(** * AHKMiniIDE: code generator, inspector data, hotkey manager, process runner

    A shallow embedding of the four core modules of the repository

      - [ahk_mini_ide/hotkeys/codegen.py]        (module [Codegen])
      - [ahk_mini_ide/inspector/win_info.py]     (module [WinInfo])
      - [ahk_mini_ide/hotkeys/global_hotkeys.py] (module [Hotkeys])
      - [ahk_mini_ide/editor/runner.py]          (module [Runner])

    and of the code around them that calls them

      - [ahk_mini_ide/inspector/inspector_widget.py], the refresh tick
        (module [Inspector])
      - [ahk_mini_ide/settings.py], the recent projects (module [Settings])
      - [ahk_mini_ide/app.py], from a hotkey to the editor (module [App])

    Python [int] is [Z], Python [str] is [string] (white space and the case
    of hexadecimal digits are those of characters below 128; [str.upper]
    and [ord] on a hotkey letter are parameters of the hotkey manager, so
    that any letter is covered), the [dict] that is iterated in
    insertion order is an association list, the set of temporary files is a
    stdpp [gset], and Qt objects created with a parent live in a store (a
    list addressed by index) so that two references to one object alias. *)

From Stdlib Require Import ZArith String Ascii List Lia.
From Stdlib Require Import DecimalString HexadecimalString DecimalZ HexadecimalN.
From stdpp Require Import gmap strings list fin_maps.

Open Scope Z_scope.

(** stdpp freezes [String.append] under [simpl]; the templates below are
    concatenations of literals, so let it reduce on a literal head. *)
#[local] Arguments String.append !s1 s2 : simpl nomatch.

(* ===================================================================== *)
(** ** Python string primitives used by the sources *)
(* ===================================================================== *)

Module Py.

(** [str(z)] and the [{z}] replacement field of an f-string. *)
Definition str_int (z : Z) : string :=
  DecimalString.NilEmpty.string_of_int (Z.to_int z).

(** The inverse reading, used only to state that [str_int] is the decimal
    numeral of its argument. *)
Definition int_of_str (s : string) : option Z :=
  Z.of_int <$> DecimalString.NilEmpty.int_of_string s.

(** Lower-case hexadecimal digits of a natural number, no prefix. *)
Definition hex_digits (n : N) : string :=
  HexadecimalString.NilEmpty.string_of_uint (N.to_hex_uint n).

Definition nat_of_hex_digits (s : string) : option N :=
  N.of_hex_uint <$> HexadecimalString.NilEmpty.uint_of_string s.

(** [hex(z)]: sign, ["0x"], lower-case digits of the magnitude. *)
Definition hex (z : Z) : string :=
  (if z <? 0 then "-" else EmptyString) +:+ "0x" +:+ hex_digits (Z.abs_N z).

(** [c.upper()] on one character below 128.  [upper] is [str.upper] on
    ASCII text (the hexadecimal digits of the format specs are such). *)
Definition upper_ascii (c : ascii) : ascii :=
  let n := nat_of_ascii c in
  if ((97 <=? n) && (n <=? 122))%nat then ascii_of_nat (n - 32) else c.

Fixpoint upper (s : string) : string :=
  match s with
  | EmptyString => EmptyString
  | String c s' => String (upper_ascii c) (upper s')
  end.

(** [s.zfill]-style left padding with ['0'] up to [width] characters. *)
Fixpoint zeros (k : nat) : string :=
  match k with
  | O => EmptyString
  | S k' => String "0" (zeros k')
  end.

Definition pad0 (width : nat) (s : string) : string :=
  zeros (width - String.length s) +:+ s.

(** The format spec [{z:02X}]: upper-case hexadecimal, zero-filled to a
    minimum width of two, the sign (if any) counting towards the width. *)
Definition format_02X (z : Z) : string :=
  let digits := upper (hex_digits (Z.abs_N z)) in
  if z <? 0 then "-" +:+ pad0 1 digits else pad0 2 digits.

(** [sep.join(parts)]. *)
Definition join (sep : string) (parts : list string) : string :=
  String.concat sep parts.

(** Truthiness of a [str]: non-empty. *)
Definition truthy (s : string) : bool :=
  match s with EmptyString => false | _ => true end.

(** [c.isspace()] for characters below 128.  [split_ws] below is
    [str.split] on ASCII text; beyond it Python also splits at the Unicode
    spaces (U+0085, U+00A0, ...), which are bytes above 127 here. *)
Definition is_space (c : ascii) : bool :=
  let n := nat_of_ascii c in
  (((9 <=? n) && (n <=? 13)) || ((28 <=? n) && (n <=? 32)))%nat.

(** [s.split()] (no separator): maximal runs of non-space characters.
    [cur] is the run being read, in reverse. *)
Fixpoint split_ws_aux (s : string) (cur : list ascii) : list string :=
  let flush rest :=
    match cur with
    | [] => rest
    | _ => string_of_list_ascii (rev cur) :: rest
    end in
  match s with
  | EmptyString => flush []
  | String c s' =>
      if is_space c then flush (split_ws_aux s' [])
      else split_ws_aux s' (c :: cur)
  end.

Definition split_ws (s : string) : list string := split_ws_aux s [].

(** Every character is below 128. *)
Fixpoint ascii_text (s : string) : bool :=
  match s with
  | EmptyString => true
  | String c s' => (nat_of_ascii c <? 128)%nat && ascii_text s'
  end.

(** [ord(s)] on ASCII text: defined on strings of length one, a
    [TypeError] otherwise. *)
Definition ord (s : string) : option Z :=
  match s with
  | String c EmptyString => Some (Z.of_nat (nat_of_ascii c))
  | _ => None
  end.

(** The lines of a text, split at ['\n'] (as [s.split("\n")]). *)
Definition nl : string := String (ascii_of_nat 10) EmptyString.

Fixpoint lines_aux (s : string) (cur : list ascii) : list string :=
  match s with
  | EmptyString => [string_of_list_ascii (rev cur)]
  | String c s' =>
      if Ascii.eqb c (ascii_of_nat 10)
      then string_of_list_ascii (rev cur) :: lines_aux s' []
      else lines_aux s' (c :: cur)
  end.

Definition lines (s : string) : list string := lines_aux s [].


End Py.

(* ===================================================================== *)
(** ** hotkeys/codegen.py *)
(* ===================================================================== *)

Module Codegen.
Import Py.

Definition dq : string := String (ascii_of_nat 34) EmptyString.

(** [gen_win_activate(hwnd, title, class_name, process)] *)
Definition gen_win_activate (hwnd : Z) (title class_name process : string)
  : string :=
  let parts := [] in
  let parts := if truthy title then parts ++ ["Title: " +:+ title] else parts in
  let parts := if truthy class_name
               then parts ++ ["Class: " +:+ class_name] else parts in
  let parts := if truthy process
               then parts ++ ["Process: " +:+ process] else parts in
  let comment := match parts with
                 | [] => EmptyString
                 | _ => "  ; " +:+ join ", " parts
                 end in
  "WinActivate " +:+ dq +:+ "ahk_id " +:+ hex hwnd +:+ dq +:+ comment.

(** [gen_click(x, y, *, button, count, coord_mode)] *)
Definition gen_click (x y : Z) (button : string) (count : Z)
    (coord_mode : string) : string :=
  let header :=
    "CoordMode " +:+ dq +:+ "Mouse" +:+ dq +:+ ", " +:+ dq +:+ coord_mode
      +:+ dq +:+ nl in
  if String.eqb button "Left" && (count =? 1) then
    header +:+ "Click " +:+ str_int x +:+ ", " +:+ str_int y
  else if String.eqb button "Left" && (count >? 1) then
    header +:+ "Click " +:+ str_int x +:+ ", " +:+ str_int y +:+ ",, "
      +:+ str_int count
  else if count =? 1 then
    header +:+ "Click " +:+ str_int x +:+ ", " +:+ str_int y +:+ ", "
      +:+ dq +:+ button +:+ dq
  else
    header +:+ "Click " +:+ str_int x +:+ ", " +:+ str_int y +:+ ", "
      +:+ dq +:+ button +:+ dq +:+ ", " +:+ str_int count.

(** [gen_drag(x1, y1, x2, y2, *, button, coord_mode)] *)
Definition gen_drag (x1 y1 x2 y2 : Z) (button coord_mode : string) : string :=
  let header :=
    "CoordMode " +:+ dq +:+ "Mouse" +:+ dq +:+ ", " +:+ dq +:+ coord_mode
      +:+ dq +:+ nl in
  header +:+ "MouseClickDrag " +:+ dq +:+ button +:+ dq +:+ ", "
    +:+ str_int x1 +:+ ", " +:+ str_int y1 +:+ ", " +:+ str_int x2 +:+ ", "
    +:+ str_int y2.

(** [gen_pixel_loop(x, y, target_color, *, coord_mode, variation,
    use_pixel_search)] *)
Definition gen_pixel_loop (x y : Z) (target_color coord_mode : string)
    (variation : Z) (use_pixel_search : bool) : string :=
  let header :=
    "CoordMode " +:+ dq +:+ "Pixel" +:+ dq +:+ ", " +:+ dq +:+ coord_mode
      +:+ dq +:+ nl in
  if use_pixel_search then
    header
      +:+ "Loop {" +:+ nl
      +:+ "    if PixelSearch(&FoundX, &FoundY, " +:+ str_int x +:+ ", "
      +:+ str_int y +:+ ", " +:+ str_int x +:+ ", " +:+ str_int y +:+ ", "
      +:+ dq +:+ target_color +:+ dq +:+ ", " +:+ str_int variation +:+ ")"
      +:+ nl
      +:+ "        break" +:+ nl
      +:+ "    Sleep 100" +:+ nl
      +:+ "}"
  else
    header
      +:+ "Loop {" +:+ nl
      +:+ "    CurrentColor := PixelGetColor(" +:+ str_int x +:+ ", "
      +:+ str_int y +:+ ")" +:+ nl
      +:+ "    if (CurrentColor = " +:+ dq +:+ target_color +:+ dq +:+ ")"
      +:+ nl
      +:+ "        break" +:+ nl
      +:+ "    Sleep 100" +:+ nl
      +:+ "}".

End Codegen.

(* ===================================================================== *)
(** ** inspector/win_info.py *)
(* ===================================================================== *)

Module WinInfo.
Import Py.

Record WindowInfo := mkWindowInfo {
  title : string;
  class_name : string;
  hwnd : Z;
  pid : Z;
  process_name : string;
  exe_path : string
}.

Record MouseCoords := mkMouseCoords {
  screen_x : Z; screen_y : Z;
  window_x : Z; window_y : Z;
  client_x : Z; client_y : Z
}.

Record ControlInfo := mkControlInfo {
  class_nn : string;
  ctl_hwnd : Z
}.

Record PixelColor := mkPixelColor { r : Z; g : Z; b : Z }.

Record InspectorSnapshot := mkSnapshot {
  window : WindowInfo;
  coords : MouseCoords;
  control : ControlInfo;
  color : PixelColor
}.

(** The dataclass defaults. *)
Definition WindowInfo_default : WindowInfo :=
  mkWindowInfo EmptyString EmptyString 0 0 EmptyString EmptyString.
Definition MouseCoords_default : MouseCoords := mkMouseCoords 0 0 0 0 0 0.
Definition ControlInfo_default : ControlInfo := mkControlInfo EmptyString 0.
Definition PixelColor_default : PixelColor := mkPixelColor 0 0 0.
Definition InspectorSnapshot_default : InspectorSnapshot :=
  mkSnapshot WindowInfo_default MouseCoords_default ControlInfo_default
    PixelColor_default.

(** [PixelColor.hex_rgb] *)
Definition hex_rgb (c : PixelColor) : string :=
  "0x" +:+ format_02X (r c) +:+ format_02X (g c) +:+ format_02X (b c).

(** [PixelColor.decimal_str] *)
Definition decimal_str (c : PixelColor) : string :=
  str_int (r c) +:+ ", " +:+ str_int (g c) +:+ ", " +:+ str_int (b c).

(** The Win32 entry points the module calls through ctypes, read at one
    instant.  A NULL handle is [0]; [QueryFullProcessImageNameW] is [None]
    when the call returns FALSE.  [ntpath_basename] is the standard
    library's [ntpath.basename]. *)
Record Win32 := mkWin32 {
  GetCursorPos : Z * Z;
  WindowFromPoint : Z -> Z -> Z;
  GetAncestor : Z -> Z -> Z;
  GetWindowTextW : Z -> string;
  GetClassNameW : Z -> string;
  GetWindowThreadProcessId : Z -> Z;
  OpenProcess : Z -> Z;
  QueryFullProcessImageNameW : Z -> option string;
  GetWindowRect : Z -> Z * Z * Z * Z;
  ScreenToClient : Z -> Z * Z -> Z * Z;
  RealChildWindowFromPoint : Z -> Z * Z -> Z;
  GetDC : Z -> Z;
  GetPixel : Z -> Z -> Z -> Z;
  GetForegroundWindow : Z;
  ntpath_basename : string -> string
}.

Definition GA_ROOT : Z := 2.

Section Windows.
Variable os : Win32.

Definition _get_cursor_pos : Z * Z := GetCursorPos os.

(** [hwnd or 0] *)
Definition _window_from_point (x y : Z) : Z := WindowFromPoint os x y.

(** [GetAncestor(hwnd, GA_ROOT) or hwnd] *)
Definition _get_root_window (h : Z) : Z :=
  let a := GetAncestor os h GA_ROOT in
  if a =? 0 then h else a.

Definition _get_window_text (h : Z) : string := GetWindowTextW os h.
Definition _get_class_name (h : Z) : string := GetClassNameW os h.
Definition _get_pid (h : Z) : Z := GetWindowThreadProcessId os h.

Definition _get_exe_path (p : Z) : string :=
  let handle := OpenProcess os p in
  if handle =? 0 then EmptyString
  else match QueryFullProcessImageNameW os handle with
       | Some path => path
       | None => EmptyString
       end.

Definition _get_process_name (exe : string) : string :=
  if truthy exe then ntpath_basename os exe else EmptyString.

Definition _screen_to_window (h sx sy : Z) : Z * Z :=
  let '(rect_left, rect_top, _, _) := GetWindowRect os h in
  (sx - rect_left, sy - rect_top).

Definition _screen_to_client (h sx sy : Z) : Z * Z :=
  ScreenToClient os h (sx, sy).

Definition _get_control_at (h sx sy : Z) : ControlInfo :=
  let pt := ScreenToClient os h (sx, sy) in
  let child := RealChildWindowFromPoint os h pt in
  if negb (child =? 0) && negb (child =? h)
  then mkControlInfo (_get_class_name child) child
  else ControlInfo_default.

Definition _get_pixel_color (sx sy : Z) : PixelColor :=
  let hdc := GetDC os 0 in
  if hdc =? 0 then PixelColor_default
  else
    let colorref := GetPixel os hdc sx sy in
    if colorref =? 4294967295 then PixelColor_default
    else mkPixelColor (Z.land colorref 255)
                      (Z.land (Z.shiftr colorref 8) 255)
                      (Z.land (Z.shiftr colorref 16) 255).

Definition get_foreground_window_win : Z := GetForegroundWindow os.

Definition capture_snapshot_win (follow_mouse : bool) (last_hwnd : Z)
  : InspectorSnapshot :=
  let '(sx, sy) := _get_cursor_pos in
  let root_hwnd :=
    if follow_mouse
    then _get_root_window (_window_from_point sx sy)
    else if negb (last_hwnd =? 0) then last_hwnd
         else get_foreground_window_win in
  let p := _get_pid root_hwnd in
  let exe := _get_exe_path p in
  let win := {| title := _get_window_text root_hwnd;
                class_name := _get_class_name root_hwnd;
                hwnd := root_hwnd;
                pid := p;
                exe_path := exe;
                process_name := _get_process_name exe |} in
  let '(wx, wy) := _screen_to_window root_hwnd sx sy in
  let '(cx, cy) := _screen_to_client root_hwnd sx sy in
  let crd := {| screen_x := sx; screen_y := sy;
                window_x := wx; window_y := wy;
                client_x := cx; client_y := cy |} in
  let ctl := _get_control_at root_hwnd sx sy in
  let col := _get_pixel_color sx sy in
  mkSnapshot win crd ctl col.
End Windows.

(** The module is written twice under [if _IS_WINDOWS: ... else: ...];
    [is_windows] is that flag and [os] is only consulted when it is set. *)
Definition is_modifier_held_stub : bool := false.
Definition get_foreground_window (is_windows : bool) (os : Win32) : Z :=
  if is_windows then get_foreground_window_win os else 0.

Definition capture_snapshot (is_windows : bool) (os : Win32)
    (follow_mouse : bool) (last_hwnd : Z) : InspectorSnapshot :=
  if is_windows then capture_snapshot_win os follow_mouse last_hwnd
  else InspectorSnapshot_default.

(** The three channels are bytes. *)
Definition byte_range (c : PixelColor) : Prop :=
  0 <= r c <= 255 /\ 0 <= g c <= 255 /\ 0 <= b c <= 255.

End WinInfo.

(* ===================================================================== *)
(** ** hotkeys/global_hotkeys.py *)
(* ===================================================================== *)

(** What a Python call hands back: a value, or an exception that unwinds. *)
Inductive outcome (A : Type) : Type :=
| Returned (a : A)
| Raised (exc : string).
Arguments Returned {A} a.
Arguments Raised {A} exc.

Module Hotkeys.
Import Py.

Inductive HotkeyID := CLICK | DRAG | PIXEL_LOOP | WIN_ACTIVATE.

(** [int(hid)] *)
Definition int_of_hid (h : HotkeyID) : Z :=
  match h with CLICK => 1 | DRAG => 2 | PIXEL_LOOP => 3 | WIN_ACTIVATE => 4 end.

(** [hid.name] *)
Definition hid_name (h : HotkeyID) : string :=
  match h with
  | CLICK => "CLICK" | DRAG => "DRAG"
  | PIXEL_LOOP => "PIXEL_LOOP" | WIN_ACTIVATE => "WIN_ACTIVATE"
  end.

(** [HotkeyID(n)], [None] for the [ValueError]. *)
Definition HotkeyID_of_int (n : Z) : option HotkeyID :=
  if n =? 1 then Some CLICK
  else if n =? 2 then Some DRAG
  else if n =? 3 then Some PIXEL_LOOP
  else if n =? 4 then Some WIN_ACTIVATE
  else None.

Definition MOD_CONTROL : Z := 2.
Definition MOD_SHIFT : Z := 4.
Definition MOD_NOREPEAT : Z := 16384.
Definition WM_HOTKEY : Z := 786.

(** A Python [dict] with insertion order ([unregister_all] iterates it):
    assigning to a present key keeps its position. *)
Fixpoint dict_set (d : list (Z * Z)) (k v : Z) : list (Z * Z) :=
  match d with
  | [] => [(k, v)]
  | (k', v') :: d' =>
      if k' =? k then (k', v) :: d' else (k', v') :: dict_set d' k v
  end.

(** [d.get(k)] *)
Fixpoint dict_get (d : list (Z * Z)) (k : Z) : option Z :=
  match d with
  | [] => None
  | (k', v') :: d' => if k' =? k then Some v' else dict_get d' k
  end.

Section Manager.
(** The operating system's hotkey table, and the two user32 calls. *)
Variable OS : Type.
Variable RegisterHotKey : OS -> Z -> Z -> Z -> Z -> bool * OS.
Variable UnregisterHotKey : OS -> Z -> Z -> OS.
(** [str.upper] and [ord] on any text.  Both follow the Unicode tables:
    the upper-case form of one character can be several characters, and
    [ord] is the code point of a string of one character, [None] standing
    for its [TypeError] on any other string.  On ASCII text they are
    [Py.upper] and [Py.ord]. *)
Variable str_upper : string -> string.
Variable str_ord : string -> option Z.

(** The manager's fields together with the world it acts on: the OS, the
    QApplication's list of installed native event filters ([None] when
    [QApplication.instance()] is [None]), the next fresh filter object,
    and the [hotkey_triggered] emissions so far. *)
Record State := mkState {
  _registered : list (Z * Z);
  _filter : option nat;
  os : OS;
  app_filters : option (list nat);
  next_obj : nat;
  triggered : list HotkeyID
}.

Definition init (o : OS) (app : option (list nat)) : State :=
  mkState [] None o app 0 [].

Definition error_message (hid : HotkeyID) (letter : string) : string :=
  "Failed to register Ctrl+Shift+" +:+ letter +:+ " (id=" +:+ hid_name hid
    +:+ ")".

(** The body of [for hid, letter in bindings.items(): ...]; [None] is the
    [TypeError] of [ord] on a string that is not one character long. *)
Fixpoint register_loop (bindings : list (HotkeyID * string)) (st : State)
    (errors : list string) : State * option (list string) :=
  match bindings with
  | [] => (st, Some errors)
  | (hid, letter) :: rest =>
      match str_ord (str_upper letter) with
      | None => (st, None)
      | Some vk =>
          let mods := Z.lor (Z.lor MOD_CONTROL MOD_SHIFT) MOD_NOREPEAT in
          let '(ok, os') := RegisterHotKey (os st) 0 (int_of_hid hid) mods vk in
          if ok then
            register_loop rest
              (mkState (dict_set (_registered st) (int_of_hid hid) vk)
                 (_filter st) os' (app_filters st) (next_obj st)
                 (triggered st))
              errors
          else
            register_loop rest
              (mkState (_registered st) (_filter st) os' (app_filters st)
                 (next_obj st) (triggered st))
              (errors ++ [error_message hid letter])
      end
  end.

(** [if self._filter is None: ...] at the end of [register_all]. *)
Definition install_filter (st : State) : State :=
  match _filter st with
  | Some _ => st
  | None =>
      let f := next_obj st in
      mkState (_registered st) (Some f) (os st)
        (match app_filters st with
         | Some fs => Some (fs ++ [f])
         | None => None
         end)
        (S (next_obj st)) (triggered st)
  end.

(** [HotkeyManager.register_all(bindings)] *)
Definition register_all (is_windows : bool)
    (bindings : list (HotkeyID * string)) (st : State)
  : State * outcome (list string) :=
  if negb is_windows then (st, Returned ["Global hotkeys require Windows"])
  else
    match register_loop bindings st [] with
    | (st', None) => (st', Raised "TypeError")
    | (st', Some errors) => (install_filter st', Returned errors)
    end.

(** [HotkeyManager.unregister_all()] *)
Definition unregister_all (is_windows : bool) (st : State) : State :=
  if negb is_windows then st
  else
    let os' := fold_left (fun o kv => UnregisterHotKey o 0 (fst kv))
                 (_registered st) (os st) in
    match _filter st with
    | None => mkState [] None os' (app_filters st) (next_obj st)
                (triggered st)
    | Some f =>
        mkState [] None os'
          (match app_filters st with
           | Some fs => Some (List.filter (fun g => negb (Nat.eqb g f)) fs)
           | None => None
           end)
          (next_obj st) (triggered st)
    end.

(** [HotkeyManager._dispatch(hotkey_id)] *)
Definition _dispatch (hotkey_id : Z) (st : State) : State :=
  match HotkeyID_of_int hotkey_id with
  | None => st
  | Some hid =>
      mkState (_registered st) (_filter st) (os st) (app_filters st)
        (next_obj st) (triggered st ++ [hid])
  end.

(** [_NativeFilter.nativeEventFilter(event_type, message)]: the Windows
    class and the stub.  [msg_message] and [wParam] are the fields of the
    [MSG] found at the address [message].  The result is the pair the
    method returns: whether the event was consumed, and zero. *)
Definition nativeEventFilter (is_windows : bool) (event_type : string)
    (msg_message wParam : Z) (st : State) : State * (bool * Z) :=
  if is_windows then
    if String.eqb event_type "windows_generic_MSG" then
      if msg_message =? WM_HOTKEY then (_dispatch wParam st, (true, 0))
      else (st, (false, 0))
    else (st, (false, 0))
  else (st, (false, 0)).

(** The calls a client can make, for statements about call sequences. *)
Inductive call :=
| CallRegister (bindings : list (HotkeyID * string))
| CallUnregister.

Definition do_call (is_windows : bool) (c : call) (st : State) : State :=
  match c with
  | CallRegister bs => fst (register_all is_windows bs st)
  | CallUnregister => unregister_all is_windows st
  end.

Definition do_calls (is_windows : bool) (cs : list call) (st : State)
  : State :=
  fold_left (fun s c => do_call is_windows c s) cs st.

(** The OS-level registration attempts of one pass over [bindings], in
    order, written from the specification's words: every binding is
    attempted under Ctrl+Shift (no repeat) and its id's number, against
    the OS as the earlier attempts left it.  The result pairs the log
    (binding and success flag) with the OS afterwards. *)
Fixpoint attempts (bindings : list (HotkeyID * string)) (o : OS)
  : list (HotkeyID * string * bool) * OS :=
  match bindings with
  | [] => ([], o)
  | (hid, letter) :: rest =>
      match str_ord (str_upper letter) with
      | None => ([], o)
      | Some vk =>
          let '(ok, o') :=
            RegisterHotKey o 0 (int_of_hid hid) 16390 vk in
          let '(log, o'') := attempts rest o' in
          ((hid, letter, ok) :: log, o'')
      end
  end.

Definition failures (log : list (HotkeyID * string * bool))
  : list (HotkeyID * string) :=
  map fst (List.filter (fun e => negb (snd e)) log).

(** The interceptors installed on the application. *)
Definition installed (st : State) : list nat :=
  match app_filters st with Some fs => fs | None => [] end.

(** The upper-case form of every letter is one character (what [ord]
    accepts). *)
Definition well_formed (bindings : list (HotkeyID * string)) : Prop :=
  Forall (fun b => str_ord (str_upper (snd b)) <> None) bindings.

(** The bindings with every letter in upper case. *)
Definition upper_bindings (bindings : list (HotkeyID * string))
  : list (HotkeyID * string) :=
  map (fun b => (fst b, str_upper (snd b))) bindings.
End Manager.

Arguments _registered {OS} _.
Arguments _filter {OS} _.
Arguments os {OS} _.
Arguments app_filters {OS} _.
Arguments next_obj {OS} _.
Arguments triggered {OS} _.
Arguments init {OS} _ _.
Arguments installed {OS} _.

Definition message_of (b : HotkeyID * string) : string :=
  error_message (fst b) (snd b).

(** At most one interceptor, and when there is one the manager holds it. *)
Definition filter_inv {OS : Type} (st : State OS) : Prop :=
  installed st = []
  \/ exists f, _filter st = Some f /\ installed st = [f].

(** With an application: the manager holds no interceptor and none is
    installed, or it holds the only one installed. *)
Definition filter_tight {OS : Type} (st : State OS) : Prop :=
  (_filter st = None /\ app_filters st = Some [])
  \/ exists f, _filter st = Some f /\ app_filters st = Some [f].

(** A small operating system for examples: the table of registered
    (id, virtual key) pairs; a key that is already taken is refused. *)
Definition table_register (t : list (Z * Z)) (hwnd id mods vk : Z)
  : bool * list (Z * Z) :=
  if existsb (fun e => snd e =? vk) t then (false, t)
  else (true, t ++ [(id, vk)]).

Definition table_unregister (t : list (Z * Z)) (hwnd id : Z)
  : list (Z * Z) :=
  List.filter (fun e => negb (fst e =? id)) t.

End Hotkeys.

(* ===================================================================== *)
(** ** editor/runner.py *)
(* ===================================================================== *)

Module Runner.
Import Py.

Inductive RunState := IDLE | RUNNING | ERROR.

(** [QProcess.ProcessState] and [QProcess.ExitStatus]. *)
Inductive ProcessState := NotRunning | Starting | Running.
Inductive ExitStatus := NormalExit | CrashExit.

(** The keyword arguments of [run]. *)
Record RunRequest := mkRequest {
  ahk_exe : string;
  script_path : string;
  flags : string;
  args : string;
  working_dir : string;
  unsaved_text : option string
}.

(** A [QTimer] created with the runner as parent, its [timeout] connected
    to [_hard_kill]. It stays alive, and armed, whether or not a Python
    attribute still refers to it. *)
Record QTimer := mkTimer {
  single_shot : bool;
  active : bool;
  deadline : Z
}.

(** What the runner emits or asks of the outside, in order. *)
Inductive Effect :=
| state_changed (s : RunState)
| stdout_ready (text : string)
| stderr_ready (text : string)
| finished (exit_code : Z) (message : string)
| file_write (path text : string)
| file_remove (path : string)
| proc_start (p : nat) (program : string) (arguments : list string)
    (wd : string)
| proc_terminate (p : nat)
| proc_kill (p : nat).

(** The runner's attributes, the Qt objects it has created (processes and
    timers, addressed by index), the temporary files that exist, and the
    time in milliseconds. *)
Record World := mkWorld {
  _process : option nat;
  _state : RunState;
  _temp_file : option string;
  _kill_timer : option nat;
  procs : list ProcessState;
  timers : list QTimer;
  files : gset string;
  clock : Z
}.

(** [AHKRunner.__init__] *)
Definition init : World := mkWorld None IDLE None None [] [] ∅ 0.

(** State and output, threaded through every method. *)
Definition M (A : Type) : Type := World -> A * World * list Effect.

#[global] Instance M_ret : MRet M := fun A a w => (a, w, []).
#[global] Instance M_bind : MBind M := fun A B f m w =>
  let '(a, w1, e1) := m w in
  let '(b, w2, e2) := f a w1 in
  (b, w2, e1 ++ e2).

Definition get : M World := fun w => (w, w, []).
Definition modify (f : World -> World) : M unit := fun w => (tt, f w, []).
Definition emit (e : Effect) : M unit := fun w => (tt, w, [e]).
Definition skip : M unit := mret tt.

Definition set_process (p : option nat) (w : World) : World :=
  mkWorld p (_state w) (_temp_file w) (_kill_timer w) (procs w) (timers w)
    (files w) (clock w).
Definition set_state (s : RunState) (w : World) : World :=
  mkWorld (_process w) s (_temp_file w) (_kill_timer w) (procs w) (timers w)
    (files w) (clock w).
Definition set_temp_file (f : option string) (w : World) : World :=
  mkWorld (_process w) (_state w) f (_kill_timer w) (procs w) (timers w)
    (files w) (clock w).
Definition set_kill_timer (t : option nat) (w : World) : World :=
  mkWorld (_process w) (_state w) (_temp_file w) t (procs w) (timers w)
    (files w) (clock w).
Definition set_procs (ps : list ProcessState) (w : World) : World :=
  mkWorld (_process w) (_state w) (_temp_file w) (_kill_timer w) ps
    (timers w) (files w) (clock w).
Definition set_timers (ts : list QTimer) (w : World) : World :=
  mkWorld (_process w) (_state w) (_temp_file w) (_kill_timer w) (procs w)
    ts (files w) (clock w).
Definition set_files (fs : gset string) (w : World) : World :=
  mkWorld (_process w) (_state w) (_temp_file w) (_kill_timer w) (procs w)
    (timers w) fs (clock w).
Definition set_clock (c : Z) (w : World) : World :=
  mkWorld (_process w) (_state w) (_temp_file w) (_kill_timer w) (procs w)
    (timers w) (files w) c.

(** [self._process is not None and
     self._process.state() != QProcess.ProcessState.NotRunning] *)
Definition live (w : World) : bool :=
  match _process w with
  | None => false
  | Some p =>
      match procs w !! p with
      | Some NotRunning | None => false
      | Some _ => true
      end
  end.

(** [AHKRunner._set_state] *)
Definition _set_state (s : RunState) : M unit :=
  modify (set_state s) ;; emit (state_changed s).

(** How [start] followed by [waitForStarted(3000)] ends: the process runs,
    it could not be started, or it is still starting after three seconds. *)
Inductive StartOutcome := Started | FailedToStart | StartTimedOut.

Definition state_after_start (o : StartOutcome) : ProcessState :=
  match o with
  | Started => Running
  | FailedToStart => NotRunning
  | StartTimedOut => Starting
  end.

(** [waitForStarted(3000)] *)
Definition waitForStarted (o : StartOutcome) : bool :=
  match o with Started => true | _ => false end.

Section Methods.
(** [os.path.dirname] of the platform. *)
Variable dirname : string -> string.

(** [cmd_parts]: interpreter, split flags, target, split arguments. *)
Definition cmd_parts (req : RunRequest) (target : string) : list string :=
  [ahk_exe req]
    ++ (if truthy (flags req) then split_ws (flags req) else [])
    ++ [target]
    ++ (if truthy (args req) then split_ws (args req) else []).

(** The working directory: the caller's, or the target's directory. *)
Definition effective_wd (req : RunRequest) (target : string) : string :=
  if truthy (working_dir req) then working_dir req else dirname target.

(** The informational line [">> <command line>\n"]. *)
Definition command_line (req : RunRequest) (target : string) : string :=
  ">> " +:+ join " " (cmd_parts req target) +:+ nl.

(** [AHKRunner.run]. [tmp] is the path [tempfile.mkstemp] hands out and
    [o] the way the start ends.  Creating and writing the temporary
    file is taken to succeed. *)
Definition run (req : RunRequest) (tmp : string) (o : StartOutcome)
  : M unit :=
  w ← get;
  if live w then skip
  else
    target ← match unsaved_text req with
             | Some text =>
                 emit (file_write tmp text) ;;
                 modify (fun w => set_files ({[tmp]} ∪ files w) w) ;;
                 modify (set_temp_file (Some tmp)) ;;
                 mret tmp
             | None => mret (script_path req)
             end;
    let wd := effective_wd req target in
    let parts := cmd_parts req target in
    w ← get;
    let p := length (procs w) in
    modify (set_procs (procs w ++ [NotRunning])) ;;
    modify (set_process (Some p)) ;;
    let program := hd EmptyString parts in
    let arguments := tl parts in
    _set_state RUNNING ;;
    emit (stdout_ready (command_line req target)) ;;
    emit (proc_start p program arguments wd) ;;
    modify (fun w => set_procs (<[p := state_after_start o]> (procs w)) w) ;;
    if negb (waitForStarted o) then
      _set_state ERROR ;;
      emit (finished (-1) "Failed to start AHK process")
    else skip.

(** [AHKRunner.stop].  [graceful_timeout_ms] is an interval that
    [QTimer.start] accepts: not negative and within a C int (at most
    2147483647); beyond that range the real [start] raises [OverflowError]
    and the new timer stays unarmed, which this definition does not
    follow.  A statement that the timer fires carries the range as a
    hypothesis. *)
Definition stop (graceful_timeout_ms : Z) : M unit :=
  w ← get;
  if negb (live w) then skip
  else
    emit (proc_terminate (default 0%nat (_process w))) ;;
    let t := length (timers w) in
    modify (set_timers
              (timers w ++ [mkTimer true true (clock w + graceful_timeout_ms)])) ;;
    modify (set_kill_timer (Some t)).

(** [AHKRunner._hard_kill] *)
Definition _hard_kill : M unit :=
  w ← get;
  if live w then emit (proc_kill (default 0%nat (_process w))) else skip.

(** [AHKRunner._on_stdout], [AHKRunner._on_stderr]; [data] is what the
    read returns, decoded. *)
Definition _on_stdout (data : string) : M unit :=
  w ← get;
  match _process w with
  | Some _ => emit (stdout_ready data)
  | None => skip
  end.

Definition _on_stderr (data : string) : M unit :=
  w ← get;
  match _process w with
  | Some _ => emit (stderr_ready data)
  | None => skip
  end.

(** [QTimer.stop] on the timer object [t]. *)
Definition timer_stop (t : nat) (w : World) : World :=
  match timers w !! t with
  | Some tm =>
      set_timers (<[t := mkTimer (single_shot tm) false (deadline tm)]>
                    (timers w)) w
  | None => w
  end.

(** [AHKRunner._on_finished]. [rm_ok] tells whether [os.remove]
    succeeds (an [OSError] is swallowed). *)
Definition _on_finished (exit_code : Z) (exit_status : ExitStatus)
    (rm_ok : bool) : M unit :=
  w ← get;
  match _kill_timer w with
  | Some t => modify (timer_stop t) ;; modify (set_kill_timer None)
  | None => skip
  end ;;
  w ← get;
  match _temp_file w with
  | Some f =>
      if truthy f && bool_decide (f ∈ files w) then
        (if rm_ok then
           emit (file_remove f) ;;
           modify (fun w => set_files (files w ∖ {[f]}) w)
         else skip) ;;
        modify (set_temp_file None)
      else skip
  | None => skip
  end ;;
  if exit_code =? 0 then
    _set_state IDLE ;;
    emit (finished exit_code "Process exited normally")
  else
    _set_state ERROR ;;
    let label := match exit_status with
                 | CrashExit => "crashed"
                 | NormalExit => "exited"
                 end in
    emit (finished exit_code
            ("Process " +:+ label +:+ " with code " +:+ str_int exit_code)).

(** A single-shot timer fires: it disarms itself and its slot runs. *)
Definition fire (t : nat) : M unit :=
  modify (timer_stop t) ;; _hard_kill.

Definition due (c : Z) (ts : list QTimer) : list nat :=
  List.filter (fun t => match ts !! t with
                   | Some tm => active tm && (deadline tm <=? c)
                   | None => false
                   end)
         (seq 0 (length ts)).

Fixpoint fire_all (ts : list nat) : M unit :=
  match ts with
  | [] => skip
  | t :: ts' => fire t ;; fire_all ts'
  end.

(** What can happen to a runner: its two public methods are called, or
    the event loop delivers something. *)
Inductive event :=
| ev_run (req : RunRequest) (tmp : string) (o : StartOutcome)
| ev_stop (graceful_timeout_ms : Z)
| ev_proc_started (p : nat)
| ev_proc_failed (p : nat)
| ev_proc_exit (p : nat) (exit_code : Z) (exit_status : ExitStatus)
    (rm_ok : bool)
| ev_stdout (data : string)
| ev_stderr (data : string)
| ev_advance (dt : Z).

Definition handle (ev : event) : M unit :=
  match ev with
  | ev_run req tmp o => run req tmp o
  | ev_stop ms => stop ms
  | ev_proc_started p =>
      w ← get;
      match procs w !! p with
      | Some Starting => modify (set_procs (<[p := Running]> (procs w)))
      | _ => skip
      end
  | ev_proc_failed p =>
      w ← get;
      match procs w !! p with
      | Some Starting => modify (set_procs (<[p := NotRunning]> (procs w)))
      | _ => skip
      end
  | ev_proc_exit p code status rm_ok =>
      w ← get;
      match procs w !! p with
      | Some Running =>
          modify (set_procs (<[p := NotRunning]> (procs w))) ;;
          _on_finished code status rm_ok
      | _ => skip
      end
  | ev_stdout data => _on_stdout data
  | ev_stderr data => _on_stderr data
  | ev_advance dt =>
      if dt <? 0 then skip
      else
        w ← get;
        modify (set_clock (clock w + dt)) ;;
        fire_all (due (clock w + dt) (timers w))
  end.

Definition step (w : World) (ev : event) : World * list Effect :=
  let '(_, w', out) := handle ev w in (w', out).

Fixpoint steps (w : World) (evs : list event) : World * list Effect :=
  match evs with
  | [] => (w, [])
  | ev :: evs' =>
      let '(w1, o1) := step w ev in
      let '(w2, o2) := steps w1 evs' in
      (w2, o1 ++ o2)
  end.

Inductive reachable : World -> Prop :=
| reach_init : reachable init
| reach_step w ev : reachable w -> reachable (fst (step w ev)).

(** The target of a run and the notifications of a run that is let
    through, as the body of [run] produces them. *)
Definition run_target (req : RunRequest) (tmp : string) : string :=
  match unsaved_text req with
  | Some _ => tmp
  | None => script_path req
  end.

(** What [_on_finished] emits while it removes the temporary file. *)
Definition cleanup_effects (w : World) (rm_ok : bool) : list Effect :=
  match _temp_file w with
  | Some f =>
      if truthy f && bool_decide (f ∈ files w) && rm_ok
      then [file_remove f] else []
  | None => []
  end.

(** The world a computation ends in. *)
Definition world_of {A : Type} (r : A * World * list Effect) : World :=
  snd (fst r).

(** Only the current process can be alive, and a published [RUNNING]
    means it is running. *)
Definition inv (w : World) : Prop :=
  (forall q st, procs w !! q = Some st -> st <> NotRunning ->
                _process w = Some q)
  /\ (_state w = RUNNING ->
      exists p, _process w = Some p /\ procs w !! p = Some Running).

(** Timers still armed. *)
Definition armed (w : World) : list nat :=
  List.filter (fun t => match timers w !! t with
                   | Some tm => active tm
                   | None => false
                   end)
         (seq 0 (length (timers w))).
End Methods.

(** A request and a [dirname] for examples. *)
Definition sample_request : RunRequest :=
  mkRequest "AutoHotkey64.exe" "C:/scripts/demo.ahk" "/ErrorStdOut"
    EmptyString EmptyString None.

Definition sample_dirname (path : string) : string := "C:/scripts".

(** What an observer connected to [state_changed] believes the state to be
    after the notifications [out], having believed [s0] before. *)
Fixpoint last_published (s0 : RunState) (out : list Effect) : RunState :=
  match out with
  | [] => s0
  | state_changed s :: out' => last_published s out'
  | _ :: out' => last_published s0 out'
  end.

(** Requests to end a process. *)
Definition is_termination (e : Effect) : bool :=
  match e with
  | proc_terminate _ | proc_kill _ => true
  | _ => false
  end.

Definition is_kill (e : Effect) : bool :=
  match e with proc_kill _ => true | _ => false end.

Definition is_stop_call (ev : event) : bool :=
  match ev with ev_stop _ => true | _ => false end.

(** A command-line token: not empty, no white space inside. *)
Fixpoint no_space (s : string) : bool :=
  match s with
  | EmptyString => true
  | String c s' => negb (is_space c) && no_space s'
  end.

Definition clean_token (s : string) : bool := truthy s && no_space s.

(** Where a token can end: at the end of the text or before white space. *)
Definition token_break (s : string) : bool :=
  match s with
  | EmptyString => true
  | String c _ => is_space c
  end.

(** [tokens_of s ts]: read from the left, [s] is white space, which is
    skipped, and maximal runs of other characters, which are the tokens
    [ts], in order. *)
Inductive tokens_of : string -> list string -> Prop :=
| tokens_end : tokens_of EmptyString []
| tokens_space (c : ascii) (s : string) (ts : list string) :
    is_space c = true -> tokens_of s ts -> tokens_of (String c s) ts
| tokens_word (t s : string) (ts : list string) :
    clean_token t = true -> token_break s = true -> tokens_of s ts ->
    tokens_of (t +:+ s) (t :: ts).

End Runner.

(* ===================================================================== *)
(** ** Vocabulary of the statements *)
(* ===================================================================== *)

Module Text.
Import Py.

(** No line break inside [s]. *)
Fixpoint no_nl (s : string) : bool :=
  match s with
  | EmptyString => true
  | String c s' => negb (Ascii.eqb c (ascii_of_nat 10)) && no_nl s'
  end.

(** The upper-case hexadecimal digit of value [d]. *)
Definition hex_char (d : Z) : ascii :=
  match String.get (Z.to_nat d) "0123456789ABCDEF" with
  | Some c => c
  | None => "?"%char
  end.

(** Two upper-case hexadecimal digits, most significant first. *)
Definition two_hex (z : Z) : string :=
  String (hex_char (z / 16)) (String (hex_char (z mod 16)) EmptyString).

(** The statement [CoordMode "<target>", "<mode>"]. *)
Definition coord_mode_statement (target mode : string) : string :=
  "CoordMode " +:+ Codegen.dq +:+ target +:+ Codegen.dq +:+ ", "
    +:+ Codegen.dq +:+ mode +:+ Codegen.dq.

(** ["<label>: <value>"] for those fields whose value is not empty, in the
    order given. *)
Fixpoint listed (fields : list (string * string)) : list string :=
  match fields with
  | [] => []
  | (label, value) :: rest =>
      match value with
      | EmptyString => listed rest
      | _ => (label +:+ ": " +:+ value) :: listed rest
      end
  end.

(** A double-quoted string literal. *)
Definition quoted (s : string) : string := Codegen.dq +:+ s +:+ Codegen.dq.

(** No double quote inside [s]. *)
Fixpoint no_dq (s : string) : bool :=
  match s with
  | EmptyString => true
  | String c s' => negb (Ascii.eqb c (ascii_of_nat 34)) && no_dq s'
  end.
End Text.

(* ===================================================================== *)
(** ** inspector/inspector_widget.py: the refresh tick *)
(* ===================================================================== *)

Module Inspector.
Import Py WinInfo.

Definition VK_CONTROL : Z := 17.
Definition VK_SHIFT : Z := 16.

(** [win_info.is_modifier_held()] on Windows: bit 15 of
    [GetAsyncKeyState] for Ctrl or for Shift, as
    [bool(ctrl or shift)]. *)
Definition is_modifier_held_win (GetAsyncKeyState : Z -> Z) : bool :=
  let ctrl := Z.land (GetAsyncKeyState VK_CONTROL) 32768 in
  let shift := Z.land (GetAsyncKeyState VK_SHIFT) 32768 in
  negb ((if ctrl =? 0 then shift else ctrl) =? 0).

(** [is_modifier_held()], with the stub of the other platforms. *)
Definition is_modifier_held (is_windows : bool) (GetAsyncKeyState : Z -> Z)
  : bool :=
  if is_windows then is_modifier_held_win GetAsyncKeyState else false.

(** The texts the panel shows: the read-only lines, the swatch's style
    sheet and the frozen label. *)
Record Display := mkDisplay {
  f_title : string; f_class : string; f_process : string;
  f_hwnd : string; f_pid : string; f_exe : string;
  f_screen : string; f_window : string; f_client : string;
  f_ctrl_class : string; f_ctrl_hwnd : string;
  f_rgb : string; f_hex : string;
  color_swatch : string;
  frozen_label : string
}.

(** [_build_ui] *)
Definition Display_init : Display :=
  mkDisplay EmptyString EmptyString EmptyString EmptyString EmptyString
    EmptyString EmptyString EmptyString EmptyString EmptyString EmptyString
    EmptyString EmptyString "background-color: #000000;" EmptyString.

(** [InspectorWidget._update_display] *)
Definition _update_display (s : InspectorSnapshot) (d : Display) : Display :=
  let w := window s in
  let c := coords s in
  let ctrl := control s in
  let clr := color s in
  mkDisplay (title w) (class_name w) (process_name w)
    (if hwnd w =? 0 then EmptyString else hex (hwnd w))
    (if pid w =? 0 then EmptyString else str_int (pid w))
    (exe_path w)
    (str_int (screen_x c) +:+ ", " +:+ str_int (screen_y c))
    (str_int (window_x c) +:+ ", " +:+ str_int (window_y c))
    (str_int (client_x c) +:+ ", " +:+ str_int (client_y c))
    (class_nn ctrl)
    (if ctl_hwnd ctrl =? 0 then EmptyString else hex (ctl_hwnd ctrl))
    (decimal_str clr)
    (hex_rgb clr)
    ("background-color: rgb(" +:+ str_int (r clr) +:+ "," +:+ str_int (g clr)
       +:+ "," +:+ str_int (b clr) +:+ ");")
    (frozen_label d).

(** The widget's attributes, what it shows, and the snapshots it has
    emitted through [snapshot_updated], oldest first. *)
Record State := mkState {
  _frozen : bool;
  _follow_mouse : bool;
  _last_hwnd : Z;
  _snapshot : InspectorSnapshot;
  display : Display;
  emitted : list InspectorSnapshot
}.

(** [InspectorWidget.__init__] *)
Definition init : State :=
  mkState false true 0 InspectorSnapshot_default Display_init [].

Definition set_label (text : string) (d : Display) : Display :=
  mkDisplay (f_title d) (f_class d) (f_process d) (f_hwnd d) (f_pid d)
    (f_exe d) (f_screen d) (f_window d) (f_client d) (f_ctrl_class d)
    (f_ctrl_hwnd d) (f_rgb d) (f_hex d) (color_swatch d) text.

(** [InspectorWidget._tick]; [os] and [keys] are the operating system as
    it is when the timer fires. *)
Definition _tick (is_windows : bool) (os : Win32) (keys : Z -> Z) (st : State)
  : State :=
  if is_modifier_held is_windows keys then
    if negb (_frozen st) then
      mkState true (_follow_mouse st) (_last_hwnd st) (_snapshot st)
        (set_label "[FROZEN]" (display st)) (emitted st)
    else st
  else
    let d := if _frozen st then set_label EmptyString (display st)
             else display st in
    let snap := capture_snapshot is_windows os (_follow_mouse st)
                  (_last_hwnd st) in
    let last := if negb (hwnd (window snap) =? 0) then hwnd (window snap)
                else _last_hwnd st in
    mkState false (_follow_mouse st) last snap (_update_display snap d)
      (emitted st ++ [snap]).

(** [InspectorWidget._on_follow_toggled] *)
Definition _on_follow_toggled (checked : bool) (st : State) : State :=
  mkState (_frozen st) checked (_last_hwnd st) (_snapshot st) (display st)
    (emitted st).

(** What happens to the widget: the timer fires, or the box is toggled. *)
Inductive event :=
| ev_tick (os : Win32) (keys : Z -> Z)
| ev_follow (checked : bool).

Definition step (is_windows : bool) (st : State) (ev : event) : State :=
  match ev with
  | ev_tick os keys => _tick is_windows os keys st
  | ev_follow checked => _on_follow_toggled checked st
  end.

Definition run (is_windows : bool) (evs : list event) (st : State) : State :=
  fold_left (step is_windows) evs st.

(** An operating system for examples: a Notepad window (1000) with an edit
    control (1002) under the cursor, an orange pixel. *)
Definition sample_os : Win32 :=
  mkWin32 (640, 480)
    (fun _ _ => 1001)
    (fun _ _ => 1000)
    (fun _ => "Untitled - Notepad")
    (fun h => if h =? 1000 then "Notepad" else "Edit")
    (fun _ => 4242)
    (fun _ => 77)
    (fun _ => Some "C:/Windows/notepad.exe")
    (fun _ => (100, 50, 900, 650))
    (fun _ pt => (fst pt - 108, snd pt - 81))
    (fun _ _ => 1002)
    (fun _ => 55)
    (fun _ _ _ => 34047)
    1000
    (fun _ => "notepad.exe").

Definition no_keys (vk : Z) : Z := 0.
Definition ctrl_down (vk : Z) : Z := if vk =? 17 then -32768 else 0.

(** The widget is coherent: the label tells whether it is frozen, its
    snapshot is the last one emitted and has a byte colour, and once a
    snapshot has been emitted the panel shows that snapshot. *)
Definition coherent (st : State) : Prop :=
  frozen_label (display st) = (if _frozen st then "[FROZEN]" else EmptyString)
  /\ _snapshot st = List.last (emitted st) InspectorSnapshot_default
  /\ byte_range (color (_snapshot st))
  /\ (emitted st <> [] ->
      set_label EmptyString (display st)
      = set_label EmptyString (_update_display (_snapshot st) (display st))).

Definition is_tick (ev : event) : bool :=
  match ev with ev_tick _ _ => true | _ => false end.

Definition ticks_of (samples : list (Win32 * (Z -> Z))) : list event :=
  map (fun e => ev_tick (fst e) (snd e)) samples.

(** The same system when no screen device context can be had. *)
Definition sample_os_no_dc : Win32 :=
  mkWin32 (GetCursorPos sample_os) (WindowFromPoint sample_os)
    (GetAncestor sample_os) (GetWindowTextW sample_os)
    (GetClassNameW sample_os) (GetWindowThreadProcessId sample_os)
    (OpenProcess sample_os) (QueryFullProcessImageNameW sample_os)
    (GetWindowRect sample_os) (ScreenToClient sample_os)
    (RealChildWindowFromPoint sample_os) (fun _ => 0) (GetPixel sample_os)
    (GetForegroundWindow sample_os) (ntpath_basename sample_os).

End Inspector.

(* ===================================================================== *)
(** ** settings.py: the list of recent projects *)
(* ===================================================================== *)

Module Settings.

(** [p in recents] *)
Definition contains (p : string) (recents : list string) : bool :=
  existsb (String.eqb p) recents.

(** [recents.remove(p)]: the first occurrence goes. *)
Fixpoint list_remove (p : string) (recents : list string) : list string :=
  match recents with
  | [] => []
  | x :: rest => if String.eqb x p then rest else x :: list_remove p rest
  end.

(** [Settings.add_recent_project(project_path)], on the list [recents]
    found under ["recent_projects"].  The method changes that list object
    in place and then binds the key to a new list, [recents[:10]]; the
    result is the pair of the old object as it is left and of the list now
    stored (the one [save] writes and [recent_projects] copies). *)
Definition add_recent_project (p : string) (recents : list string)
  : list string * list string :=
  let recents := if contains p recents then list_remove p recents
                 else recents in
  let recents := p :: recents in
  (recents, firstn 10 recents).

Definition stored (p : string) (recents : list string) : list string :=
  snd (add_recent_project p recents).

(** [x] comes before [y] in [l]. *)
Definition before (x y : string) (l : list string) : Prop :=
  exists l1 l2 l3, l = l1 ++ x :: l2 ++ y :: l3.

End Settings.

(* ===================================================================== *)
(** ** app.py: from a hotkey to the editor *)
(* ===================================================================== *)

Module App.
Import Py WinInfo Hotkeys Codegen.

(** The window's attributes that the hotkey path uses, whether the editor
    has the focus, the codes handed to [insert_code] so far, and the
    messages shown in the status bar, oldest first. *)
Record State := mkState {
  _drag_start : option (Z * Z);
  _pending_insertions : list string;
  editor_has_focus : bool;
  inserted : list string;
  status : list string
}.

(** [MainWindow.__init__], before the editor is given the focus. *)
Definition init : State := mkState None [] false [] [].

(** The coordinates [_on_hotkey] picks for a coordinate mode. *)
Definition select_coords (coord_mode : string) (c : MouseCoords) : Z * Z :=
  if String.eqb coord_mode "Screen" then (screen_x c, screen_y c)
  else if String.eqb coord_mode "Client" then (client_x c, client_y c)
  else (window_x c, window_y c).

(** [MainWindow._insert_or_pend] *)
Definition _insert_or_pend (code : string) (st : State) : State :=
  if editor_has_focus st then
    mkState (_drag_start st) (_pending_insertions st) true
      (inserted st ++ [code]) (status st)
  else
    let pending := _pending_insertions st ++ [code] in
    mkState (_drag_start st) pending false (inserted st)
      (status st
         ++ ["Code captured (pending insertion: "
               +:+ str_int (Z.of_nat (length pending)) +:+ ")"]).

(** [MainWindow._flush_pending] *)
Definition _flush_pending (st : State) : State :=
  match _pending_insertions st with
  | [] => st
  | pending =>
      mkState (_drag_start st) [] (editor_has_focus st)
        (inserted st ++ pending) (status st)
  end.

(** [MainWindow._on_hotkey(hid)]; [snap] is the inspector's snapshot,
    [coord_mode] and [variation] the settings [default_coord_mode] and
    [color_slack]. *)
Definition _on_hotkey (snap : InspectorSnapshot) (coord_mode : string)
    (variation : Z) (hid : HotkeyID) (st : State) : State :=
  let '(x, y) := select_coords coord_mode (coords snap) in
  match hid with
  | WIN_ACTIVATE =>
      let w := window snap in
      _insert_or_pend
        (gen_win_activate (hwnd w) (title w) (class_name w) (process_name w))
        st
  | CLICK => _insert_or_pend (gen_click x y "Left" 1 coord_mode) st
  | DRAG =>
      match _drag_start st with
      | None =>
          mkState (Some (x, y)) (_pending_insertions st)
            (editor_has_focus st) (inserted st)
            (status st
               ++ ["Drag start captured: " +:+ str_int x +:+ ", "
                     +:+ str_int y +:+ " — press again for end point"])
      | Some (x1, y1) =>
          _insert_or_pend (gen_drag x1 y1 x y "Left" coord_mode)
            (mkState None (_pending_insertions st) (editor_has_focus st)
               (inserted st) (status st))
      end
  | PIXEL_LOOP =>
      _insert_or_pend
        (gen_pixel_loop x y (hex_rgb (color snap)) coord_mode variation false)
        st
  end.

(** What reaches the window: a hotkey, or the editor gains or loses the
    focus ([eventFilter] flushes on [FocusIn]). *)
Inductive event :=
| ev_hotkey (snap : InspectorSnapshot) (coord_mode : string) (variation : Z)
    (hid : HotkeyID)
| ev_focus_in
| ev_focus_out.

Definition set_focus (f : bool) (st : State) : State :=
  mkState (_drag_start st) (_pending_insertions st) f (inserted st)
    (status st).

Definition step (st : State) (ev : event) : State :=
  match ev with
  | ev_hotkey snap coord_mode variation hid =>
      _on_hotkey snap coord_mode variation hid st
  | ev_focus_in => _flush_pending (set_focus true st)
  | ev_focus_out => set_focus false st
  end.

Definition run (evs : list event) (st : State) : State :=
  fold_left step evs st.

(** Every code captured so far, inserted or still waiting, oldest first. *)
Definition all_codes (st : State) : list string :=
  inserted st ++ _pending_insertions st.

(** Nothing waits while the editor has the focus. *)
Definition settled (st : State) : Prop :=
  editor_has_focus st = true -> _pending_insertions st = [].

(** The local variable [code] of [_on_hotkey] where the method tests
    [code is not None]; [None] also when the method has returned before
    (the first press of a drag).  [drag_start] is [self._drag_start] on
    entry. *)
Definition hotkey_code (snap : InspectorSnapshot) (coord_mode : string)
    (variation : Z) (hid : HotkeyID) (drag_start : option (Z * Z))
  : option string :=
  let '(x, y) := select_coords coord_mode (coords snap) in
  match hid with
  | WIN_ACTIVATE =>
      let w := window snap in
      Some (gen_win_activate (hwnd w) (title w) (class_name w)
              (process_name w))
  | CLICK => Some (gen_click x y "Left" 1 coord_mode)
  | DRAG =>
      match drag_start with
      | None => None
      | Some (x1, y1) => Some (gen_drag x1 y1 x y "Left" coord_mode)
      end
  | PIXEL_LOOP =>
      Some (gen_pixel_loop x y (hex_rgb (color snap)) coord_mode variation
              false)
  end.

(** The code an event captures in the state [st], if any. *)
Definition captured (st : State) (ev : event) : list string :=
  match ev with
  | ev_hotkey snap coord_mode variation hid =>
      match hotkey_code snap coord_mode variation hid (_drag_start st) with
      | Some code => [code]
      | None => []
      end
  | _ => []
  end.

(** The codes captured along the events [evs] from [st], oldest first. *)
Fixpoint captured_along (evs : list event) (st : State) : list string :=
  match evs with
  | [] => []
  | ev :: evs' => captured st ev ++ captured_along evs' (step st ev)
  end.

(** A snapshot for examples: the cursor at (640, 480) on the screen,
    (540, 430) in the window, (532, 399) in its client area. *)
Definition sample_snapshot : InspectorSnapshot :=
  mkSnapshot
    (mkWindowInfo "Untitled - Notepad" "Notepad" 1000 4242 "notepad.exe"
       "C:/Windows/notepad.exe")
    (mkMouseCoords 640 480 540 430 532 399)
    (mkControlInfo "Edit" 1002)
    (mkPixelColor 255 132 0).

End App.

(* ===================================================================== *)
(** ** Strings: concatenation, lines, numerals *)
(* ===================================================================== *)

Section StringFacts.
Import Py Text.

Lemma append_assoc (a b c : string) : (a +:+ b) +:+ c = a +:+ (b +:+ c).
Proof. induction a as [|ch a IH]; simpl; [reflexivity | now rewrite IH]. Qed.

Lemma append_nil_r (a : string) : a +:+ EmptyString = a.
Proof. induction a as [|ch a IH]; simpl; [reflexivity | now rewrite IH]. Qed.

Lemma length_append (a b : string) :
  String.length (a +:+ b) = (String.length a + String.length b)%nat.
Proof. induction a as [|ch a IH]; simpl; [reflexivity | now rewrite IH]. Qed.

Lemma no_nl_append (a b : string) : no_nl (a +:+ b) = no_nl a && no_nl b.
Proof.
  induction a as [|ch a IH]; simpl; [reflexivity |].
  rewrite IH. now rewrite andb_assoc.
Qed.

Lemma string_of_rev_snoc (cur : list ascii) (ch : ascii) (s : string) :
  string_of_list_ascii (rev (ch :: cur)) +:+ s
  = string_of_list_ascii (rev cur) +:+ String ch s.
Proof.
  simpl. generalize (rev cur) as l.
  induction l as [|x l IH]; simpl; [reflexivity | now rewrite IH].
Qed.

(** Reading a prefix without line break only grows the current line. *)
Lemma lines_aux_no_nl (a : string) :
  forall cur, no_nl a = true ->
    lines_aux a cur = [string_of_list_ascii (rev cur) +:+ a].
Proof.
  induction a as [|ch a IH]; intros cur Hnl; simpl in *.
  - now rewrite append_nil_r.
  - apply andb_prop in Hnl as [Hch Ha].
    destruct (Ascii.eqb ch (ascii_of_nat 10)); [discriminate |].
    rewrite IH by assumption. now rewrite string_of_rev_snoc.
Qed.

Lemma lines_aux_line (a rest : string) :
  forall cur, no_nl a = true ->
    lines_aux (a +:+ nl +:+ rest) cur
    = (string_of_list_ascii (rev cur) +:+ a) :: lines rest.
Proof.
  induction a as [|ch a IH]; intros cur Hnl; simpl in *.
  - now rewrite append_nil_r.
  - apply andb_prop in Hnl as [Hch Ha].
    destruct (Ascii.eqb ch (ascii_of_nat 10)); [discriminate |].
    rewrite IH by assumption. now rewrite string_of_rev_snoc.
Qed.

Lemma lines_single (a : string) : no_nl a = true -> lines a = [a].
Proof. intros H. unfold lines. now rewrite lines_aux_no_nl. Qed.

Lemma lines_cons (a rest : string) :
  no_nl a = true -> lines (a +:+ nl +:+ rest) = a :: lines rest.
Proof. intros H. unfold lines. now rewrite lines_aux_line. Qed.

(** Decimal numerals hold digits and at most a sign. *)
Lemma no_nl_uint (d : Decimal.uint) :
  no_nl (DecimalString.NilEmpty.string_of_uint d) = true.
Proof. induction d; simpl; auto. Qed.

Lemma no_nl_str_int (z : Z) : no_nl (str_int z) = true.
Proof.
  unfold str_int. destruct (Z.to_int z); simpl; apply no_nl_uint.
Qed.

(** [str_int] writes the decimal numeral of its argument. *)
Lemma int_of_str_int (z : Z) : int_of_str (str_int z) = Some z.
Proof.
  unfold int_of_str, str_int.
  rewrite DecimalString.NilEmpty.isi. simpl. now rewrite DecimalZ.of_to.
Qed.

(** [hex_digits] writes the hexadecimal numeral of its argument. *)
Lemma nat_of_hex_digits_hex (n : N) :
  nat_of_hex_digits (hex_digits n) = Some n.
Proof.
  unfold nat_of_hex_digits, hex_digits.
  rewrite HexadecimalString.NilEmpty.usu. simpl.
  now rewrite HexadecimalN.Unsigned.of_to.
Qed.

(** On a byte, [{z:02X}] is the two upper-case digits of [z]. *)
Lemma format_02X_byte (z : Z) : 0 <= z <= 255 -> format_02X z = two_hex z.
Proof.
  intros Hz.
  assert (Hall : forallb
            (fun k => String.eqb (format_02X (Z.of_nat k))
                                 (two_hex (Z.of_nat k)))
            (seq 0 256) = true) by (vm_compute; reflexivity).
  rewrite forallb_forall in Hall.
  specialize (Hall (Z.to_nat z)).
  rewrite Z2Nat.id in Hall by lia.
  apply String.eqb_eq, Hall, in_seq. lia.
Qed.

Lemma upper_length (s : string) : String.length (upper s) = String.length s.
Proof. induction s as [|c s IH]; simpl; [reflexivity | now rewrite IH]. Qed.

Lemma ord_upper_single (s : string) :
  String.length s = 1%nat -> exists vk, ord (upper s) = Some vk.
Proof.
  destruct s as [|c [|c' s]]; simpl; intros H; try discriminate.
  eexists. reflexivity.
Qed.
End StringFacts.

(* ===================================================================== *)
(** ** The code generator *)
(* ===================================================================== *)

Section CodegenFacts.
Import Py Text Codegen.

#[local] Arguments str_int : simpl never.
#[local] Arguments hex : simpl never.

Ltac reassoc :=
  unfold nl, dq;
  repeat (progress (repeat rewrite append_assoc; simpl));
  try reflexivity.

Lemma no_nl_quoted (s : string) : no_nl s = true -> no_nl (quoted s) = true.
Proof.
  intros H. unfold quoted, dq. rewrite !no_nl_append, H. reflexivity.
Qed.

Lemma no_nl_coord_mode_statement (target mode : string) :
  no_nl target = true -> no_nl mode = true ->
  no_nl (coord_mode_statement target mode) = true.
Proof.
  intros Ht Hm. unfold coord_mode_statement, dq.
  rewrite !no_nl_append, Ht, Hm. reflexivity.
Qed.

(** The click statement proper, as the source's four branches build it. *)
Lemma gen_click_split (x y : Z) (button : string) (count : Z)
    (coord_mode : string) :
  exists tail,
    gen_click x y button count coord_mode
    = coord_mode_statement "Mouse" coord_mode +:+ nl
        +:+ ("Click " +:+ str_int x +:+ ", " +:+ str_int y +:+ tail)
    /\ tail =
         if String.eqb button "Left" && (count =? 1) then EmptyString
         else if String.eqb button "Left" && (count >? 1)
              then ",, " +:+ str_int count
         else if count =? 1 then ", " +:+ quoted button
         else ", " +:+ quoted button +:+ ", " +:+ str_int count.
Proof.
  eexists. split; [| reflexivity].
  unfold gen_click, coord_mode_statement, quoted.
  destruct (String.eqb button "Left" && (count =? 1));
    [| destruct (String.eqb button "Left" && (count >? 1));
       [| destruct (count =? 1)]];
    reassoc; rewrite ?append_nil_r; reflexivity.
Qed.


(** C7. [gen_pixel_loop] returns one coordinate-mode statement followed by
    a [Loop { ... }] block whose opening line carries no count.  Without
    the search option the body samples [PixelGetColor(x, y)] into
    [CurrentColor], compares it with the quoted target colour, breaks on
    equality and otherwise sleeps 100; with it the body calls
    [PixelSearch] on the one-point region [x, y, x, y] with the target
    colour and the given variation, breaks when found and otherwise sleeps
    100. *)
Theorem gen_pixel_loop_shape (x y : Z) (target_color coord_mode : string)
    (variation : Z) :
  gen_pixel_loop x y target_color coord_mode variation false
  = join nl
      [ coord_mode_statement "Pixel" coord_mode;
        "Loop {";
        "    CurrentColor := PixelGetColor(" +:+ str_int x +:+ ", "
          +:+ str_int y +:+ ")";
        "    if (CurrentColor = " +:+ quoted target_color +:+ ")";
        "        break";
        "    Sleep 100";
        "}" ]
  /\ gen_pixel_loop x y target_color coord_mode variation true
     = join nl
         [ coord_mode_statement "Pixel" coord_mode;
           "Loop {";
           "    if PixelSearch(&FoundX, &FoundY, " +:+ str_int x +:+ ", "
             +:+ str_int y +:+ ", " +:+ str_int x +:+ ", " +:+ str_int y
             +:+ ", " +:+ quoted target_color +:+ ", "
             +:+ str_int variation +:+ ")";
           "        break";
           "    Sleep 100";
           "}" ].
Proof.
  unfold gen_pixel_loop, coord_mode_statement, quoted, join.
  split; reassoc.
Qed.

(** C8. [gen_win_activate] returns the statement
    [WinActivate "ahk_id <hex(hwnd)>"], where [hex] writes the sign,
    [0x] and the hexadecimal digits of the handle, followed by
    ["  ; "] and the comma-joined list of [Title: ...], [Class: ...],
    [Process: ...] for exactly the non-empty ones; with all three empty
    nothing follows the statement. *)
Theorem gen_win_activate_shape (hwnd : Z) (title class_name process : string) :
  gen_win_activate hwnd title class_name process
  = "WinActivate " +:+ quoted ("ahk_id " +:+ hex hwnd)
      +:+ match listed [("Title", title); ("Class", class_name);
                        ("Process", process)] with
          | [] => EmptyString
          | parts => "  ; " +:+ join ", " parts
          end
  /\ gen_win_activate hwnd EmptyString EmptyString EmptyString
     = "WinActivate " +:+ quoted ("ahk_id " +:+ hex hwnd)
  /\ hex hwnd = (if hwnd <? 0 then "-" else EmptyString) +:+ "0x"
                  +:+ hex_digits (Z.abs_N hwnd)
  /\ nat_of_hex_digits (hex_digits (Z.abs_N hwnd)) = Some (Z.abs_N hwnd).
Proof.
  split; [| split; [| split]].
  - unfold gen_win_activate, quoted.
    destruct title, class_name, process; simpl; reassoc.
  - unfold gen_win_activate, quoted. simpl. reassoc.
  - reflexivity.
  - apply nat_of_hex_digits_hex.
Qed.
End CodegenFacts.

(* ===================================================================== *)
(** ** The inspector's data *)
(* ===================================================================== *)

Section WinInfoFacts.
Import Py Text WinInfo.

(** C5. Off Windows [capture_snapshot] is the same snapshot for every
    argument (and whatever the operating system record holds): the
    dataclass defaults.  Its window handle is zero, its colour reads
    [0x000000], and every other field is zero or empty.  The function is
    total: it has no failing path. *)
Theorem capture_snapshot_stub (os : Win32) (follow_mouse : bool)
    (last_hwnd : Z) :
  let s := capture_snapshot false os follow_mouse last_hwnd in
  s = InspectorSnapshot_default
  /\ hwnd (window s) = 0
  /\ hex_rgb (color s) = "0x000000"
  /\ (title (window s) = EmptyString /\ class_name (window s) = EmptyString
      /\ pid (window s) = 0 /\ process_name (window s) = EmptyString
      /\ exe_path (window s) = EmptyString)
  /\ coords s = mkMouseCoords 0 0 0 0 0 0
  /\ control s = mkControlInfo EmptyString 0
  /\ color s = mkPixelColor 0 0 0.
Proof. repeat split. Qed.

(** C10. With the three channels in 0..255, [hex_rgb] is ["0x"] followed
    by two upper-case hexadecimal digits for red, then green, then blue,
    eight characters in all, and [decimal_str] is the three decimal
    numerals of the channels separated by [", "]. *)
Theorem pixel_color_views (c : PixelColor) :
  0 <= r c <= 255 -> 0 <= g c <= 255 -> 0 <= b c <= 255 ->
  hex_rgb c = "0x" +:+ two_hex (r c) +:+ two_hex (g c) +:+ two_hex (b c)
  /\ String.length (hex_rgb c) = 8%nat
  /\ decimal_str c
     = str_int (r c) +:+ ", " +:+ str_int (g c) +:+ ", " +:+ str_int (b c)
  /\ int_of_str (str_int (r c)) = Some (r c)
  /\ int_of_str (str_int (g c)) = Some (g c)
  /\ int_of_str (str_int (b c)) = Some (b c).
Proof.
  intros Hr Hg Hb.
  assert (Hhex : hex_rgb c
                 = "0x" +:+ two_hex (r c) +:+ two_hex (g c) +:+ two_hex (b c)).
  { unfold hex_rgb. now rewrite !format_02X_byte by assumption. }
  split; [exact Hhex |].
  split; [rewrite Hhex; reflexivity |].
  split; [reflexivity |].
  repeat split; apply int_of_str_int.
Qed.

Lemma pixel_color_views_witness :
  (0 <= 255 <= 255 /\ 0 <= 136 <= 255 /\ 0 <= 0 <= 255)
  /\ hex_rgb (mkPixelColor 255 136 0) = "0xFF8800"
  /\ decimal_str (mkPixelColor 255 136 0) = "255, 136, 0".
Proof.
  split; [lia |].
  destruct (pixel_color_views (mkPixelColor 255 136 0))
    as (Hh & _ & Hd & _); simpl; try lia.
  split; [rewrite Hh | rewrite Hd]; reflexivity.
Defined.
End WinInfoFacts.

Section CodegenWitnesses.
Import Py Text Codegen.

End CodegenWitnesses.

(* ===================================================================== *)
(** ** The hotkey manager *)
(* ===================================================================== *)

Section HotkeyFacts.
Import Py Hotkeys.

Context {OS : Type}.
Variable RegisterHotKey : OS -> Z -> Z -> Z -> Z -> bool * OS.
Variable UnregisterHotKey : OS -> Z -> Z -> OS.
Variable str_upper : string -> string.
Variable str_ord : string -> option Z.

Abbreviation state := (Hotkeys.State OS).
Abbreviation loop :=
  (Hotkeys.register_loop OS RegisterHotKey str_upper str_ord).
Abbreviation reg_all :=
  (Hotkeys.register_all OS RegisterHotKey str_upper str_ord).
Abbreviation unreg_all := (Hotkeys.unregister_all OS UnregisterHotKey).
Abbreviation attempts :=
  (Hotkeys.attempts OS RegisterHotKey str_upper str_ord).
Abbreviation calls :=
  (Hotkeys.do_calls OS RegisterHotKey UnregisterHotKey str_upper str_ord).
Abbreviation wf := (Hotkeys.well_formed str_upper str_ord).

(** A pass over well-formed bindings reaches the end of the list: it
    returns the messages of the failed attempts after those collected so
    far, leaves the OS as the attempts left it, and does not touch the
    interceptor. *)
Lemma register_loop_log (bindings : list (HotkeyID * string)) :
  forall (st : state) (errors : list string),
    wf bindings ->
    exists st',
      loop bindings st errors
      = (st', Some (errors ++ map message_of
                                (failures (fst (attempts bindings (os st))))))
      /\ os st' = snd (attempts bindings (os st))
      /\ map fst (fst (attempts bindings (os st))) = bindings
      /\ _filter st' = _filter st
      /\ app_filters st' = app_filters st
      /\ next_obj st' = next_obj st.
Proof.
  induction bindings as [|[hid letter] rest IH]; intros st errors Hwf.
  - exists st. simpl. rewrite app_nil_r. repeat split.
  - inversion Hwf as [|? ? Hlen Hrest]; subst. simpl in Hlen.
    destruct (str_ord (str_upper letter)) as [vk|] eqn:Hvk; [| contradiction].
    simpl. rewrite Hvk.
    change (Z.lor (Z.lor MOD_CONTROL MOD_SHIFT) MOD_NOREPEAT) with 16390.
    destruct (RegisterHotKey (os st) 0 (int_of_hid hid) 16390 vk)
      as [ok o'] eqn:Hreg.
    destruct ok.
    + destruct (IH (mkState OS (dict_set (_registered st) (int_of_hid hid) vk)
                      (_filter st) o' (app_filters st) (next_obj st)
                      (triggered st)) errors Hrest)
        as (st' & Hrun & Hos & Hall & Hf & Ha & Hn).
      simpl in *. exists st'.
      destruct (attempts rest o') as [log o''].
      simpl in *. rewrite Hrun. repeat split; try assumption.
      now rewrite Hall.
    + destruct (IH (mkState OS (_registered st) (_filter st) o'
                      (app_filters st) (next_obj st) (triggered st))
                  (errors ++ [error_message hid letter]) Hrest)
        as (st' & Hrun & Hos & Hall & Hf & Ha & Hn).
      simpl in *. exists st'.
      destruct (attempts rest o') as [log o''].
      simpl in *. rewrite Hrun. repeat split; try assumption.
      * now rewrite <- app_assoc.
      * now rewrite Hall.
Qed.

(** A refused registration in the middle of the list does not end the
    pass: the loop goes on with the bindings after it. *)
Lemma register_loop_continues (pre post : list (HotkeyID * string))
    (hid : HotkeyID) (letter : string) :
  forall (st st1 : state) (e0 e1 : list string) (vk : Z) (o' : OS),
    loop pre st e0 = (st1, Some e1) ->
    str_ord (str_upper letter) = Some vk ->
    RegisterHotKey (os st1) 0 (int_of_hid hid) 16390 vk = (false, o') ->
    loop (pre ++ (hid, letter) :: post) st e0
    = loop post
        (mkState OS (_registered st1) (_filter st1) o' (app_filters st1)
           (next_obj st1) (triggered st1))
        (e1 ++ [error_message hid letter]).
Proof.
  induction pre as [|[h l] pre IH]; intros st st1 e0 e1 vk o' Hpre Hord Hreg.
  - simpl in Hpre. injection Hpre as <- <-.
    simpl. rewrite Hord.
    change (Z.lor (Z.lor MOD_CONTROL MOD_SHIFT) MOD_NOREPEAT) with 16390.
    now rewrite Hreg.
  - simpl in *.
    destruct (str_ord (str_upper l)) as [vk0|]; [| discriminate].
    destruct (RegisterHotKey (os st) 0 (int_of_hid h)
                (Z.lor (Z.lor MOD_CONTROL MOD_SHIFT) MOD_NOREPEAT) vk0)
      as [[] o0]; eapply IH; eassumption.
Qed.

Lemma install_filter_inv (st : state) :
  filter_inv st -> filter_inv (install_filter OS st).
Proof.
  unfold filter_inv, install_filter, installed.
  intros [Hnone | (f & Hf & Hone)].
  - destruct (_filter st) as [f|]; simpl; [now left |].
    destruct (app_filters st) as [fs|]; simpl in *; [| now left].
    subst fs. right. eexists. split; reflexivity.
  - rewrite Hf. right. exists f. now rewrite Hf.
Qed.

Lemma register_loop_frame (bindings : list (HotkeyID * string)) :
  forall (st : state) (errors : list string),
    let st' := fst (loop bindings st errors) in
    _filter st' = _filter st /\ app_filters st' = app_filters st.
Proof.
  induction bindings as [|[hid letter] rest IH]; intros st errors; simpl.
  - split; reflexivity.
  - destruct (str_ord (str_upper letter)) as [vk|]; [| split; reflexivity].
    destruct (RegisterHotKey (os st) 0 (int_of_hid hid)
                (Z.lor (Z.lor MOD_CONTROL MOD_SHIFT) MOD_NOREPEAT) vk)
      as [[] o'];
      match goal with
      | |- context [Hotkeys.register_loop _ _ _ _ rest ?s ?e] => exact (IH s e)
      end.
Qed.

Lemma register_all_inv (w : bool) (bindings : list (HotkeyID * string))
    (st : state) :
  filter_inv st -> filter_inv (fst (reg_all w bindings st)).
Proof.
  intros Hinv. unfold register_all.
  destruct w; simpl; [| assumption].
  pose proof (register_loop_frame bindings st []) as [Hf Ha].
  destruct (loop bindings st []) as [st' [errors|]]; simpl in *.
  - apply install_filter_inv.
    unfold filter_inv, installed in *. now rewrite Hf, Ha.
  - unfold filter_inv, installed in *. now rewrite Hf, Ha.
Qed.

Lemma unregister_all_inv (w : bool) (st : state) :
  filter_inv st -> filter_inv (unreg_all w st).
Proof.
  intros Hinv. unfold unregister_all.
  destruct w; simpl; [| assumption].
  left. unfold filter_inv, installed in *.
  destruct (_filter st) as [f|] eqn:Hf; simpl.
  - destruct (app_filters st) as [fs|]; simpl; [| reflexivity].
    destruct Hinv as [-> | (f' & Hf' & ->)]; [reflexivity |].
    injection Hf' as ->. simpl. now rewrite Nat.eqb_refl.
  - destruct Hinv as [H | (f' & Hf' & _)]; [exact H | discriminate].
Qed.

Lemma do_calls_inv (w : bool) (cs : list call) :
  forall st : state, filter_inv st -> filter_inv (calls w cs st).
Proof.
  induction cs as [|c cs IH]; intros st Hinv; simpl; [assumption |].
  apply IH. destruct c; simpl.
  - now apply register_all_inv.
  - now apply unregister_all_inv.
Qed.

(** With an application, the interceptor the manager holds is the one
    installed, whatever the calls. *)
Lemma install_filter_tight (st : state) :
  filter_tight st ->
  exists f, _filter (install_filter OS st) = Some f
            /\ app_filters (install_filter OS st) = Some [f].
Proof.
  unfold filter_tight, install_filter.
  intros [(Hf & Ha) | (f & Hf & Ha)]; rewrite Hf; simpl.
  - rewrite Ha. eexists. split; reflexivity.
  - exists f. now split.
Qed.

Lemma register_all_tight (w : bool) (bindings : list (HotkeyID * string))
    (st : state) :
  filter_tight st -> filter_tight (fst (reg_all w bindings st)).
Proof.
  intros Hinv. unfold register_all.
  destruct w; simpl; [| assumption].
  pose proof (register_loop_frame bindings st []) as [Hf Ha].
  destruct (loop bindings st []) as [st' [errors|]]; simpl in *.
  - right. apply install_filter_tight.
    unfold filter_tight in *. now rewrite Hf, Ha.
  - unfold filter_tight in *. now rewrite Hf, Ha.
Qed.

Lemma unregister_all_tight (w : bool) (st : state) :
  filter_tight st -> filter_tight (unreg_all w st).
Proof.
  intros Hinv. unfold unregister_all.
  destruct w; simpl; [| assumption].
  left. unfold filter_tight in *.
  destruct Hinv as [(Hf & Ha) | (f & Hf & Ha)]; rewrite Hf, Ha; simpl.
  - now split.
  - now rewrite Nat.eqb_refl.
Qed.

Lemma do_calls_tight (w : bool) (cs : list call) :
  forall st : state, filter_tight st -> filter_tight (calls w cs st).
Proof.
  induction cs as [|c cs IH]; intros st Hinv; simpl; [assumption |].
  apply IH. destruct c; simpl.
  - now apply register_all_tight.
  - now apply unregister_all_tight.
Qed.

(** C6 (amended). For bindings in which the upper-case form of every
    letter is one character, [register_all] on Windows attempts every
    binding in order, returns exactly one message per refused attempt (in
    order) and leaves the OS as all the attempts left it; a refused attempt
    is followed by the attempts for the bindings after it.  The call ends
    with an interceptor held by the manager: a manager that held none makes
    a fresh one and installs it on the application (when there is one), a
    manager that held one keeps it and installs nothing.  So after any
    sequence of [register_all] and [unregister_all] calls on a fresh manager
    with an application, the call leaves exactly one interceptor installed,
    the one the manager holds; over any such sequence at most one is
    installed, and registering again right after a registration installs
    nothing more.  Off Windows the call changes nothing and returns the
    single message [Global hotkeys require Windows]. *)
Theorem register_all_contract (bindings : list (HotkeyID * string))
    (st : state) :
  wf bindings ->
  let log := fst (attempts bindings (os st)) in
  let st' := fst (reg_all true bindings st) in
  map fst log = bindings
  /\ snd (reg_all true bindings st)
     = Returned (map message_of (failures log))
  /\ os st' = snd (attempts bindings (os st))
  /\ (forall pre hid letter post st1 e1 vk o',
        bindings = pre ++ (hid, letter) :: post ->
        loop pre st [] = (st1, Some e1) ->
        str_ord (str_upper letter) = Some vk ->
        RegisterHotKey (os st1) 0 (int_of_hid hid) 16390 vk = (false, o') ->
        loop bindings st []
        = loop post
            (mkState OS (_registered st1) (_filter st1) o' (app_filters st1)
               (next_obj st1) (triggered st1))
            (e1 ++ [error_message hid letter]))
  /\ (_filter st = None ->
      _filter st' = Some (next_obj st)
      /\ app_filters st'
         = match app_filters st with
           | Some fs => Some (fs ++ [next_obj st])
           | None => None
           end)
  /\ (forall f, _filter st = Some f ->
        _filter st' = Some f /\ app_filters st' = app_filters st)
  /\ (forall (cs : list call) (o : OS),
        let s := calls true cs (init o (Some [])) in
        exists f, _filter (fst (reg_all true bindings s)) = Some f
                  /\ installed (fst (reg_all true bindings s)) = [f])
  /\ (forall (w app_present : bool) (cs : list call) (o : OS),
        (length (installed
                   (calls w cs
                      (init o (if app_present then Some [] else None))))
         <= 1)%nat)
  /\ (forall more : list (HotkeyID * string),
        let st'' := fst (reg_all true more st') in
        installed st'' = installed st' /\ _filter st'' = _filter st')
  /\ reg_all false bindings st
     = (st, Returned ["Global hotkeys require Windows"]).
Proof.
  intros Hwf log st'.
  assert (Hexact : forall (cs : list call) (o : OS),
             let s := calls true cs (init o (Some [])) in
             exists f, _filter (fst (reg_all true bindings s)) = Some f
                       /\ installed (fst (reg_all true bindings s)) = [f]).
  { intros cs o s.
    assert (Htight : filter_tight s).
    { apply do_calls_tight. left. now split. }
    destruct (register_loop_log bindings s [] Hwf)
      as (s1 & Hrun' & _ & _ & Hf1 & Ha1 & _).
    unfold register_all. simpl. rewrite Hrun'. simpl.
    destruct (install_filter_tight s1) as (f & Hf2 & Ha2).
    { unfold filter_tight in *. now rewrite Hf1, Ha1. }
    exists f. split; [exact Hf2 |].
    unfold installed. now rewrite Ha2. }
  destruct (register_loop_log bindings st [] Hwf)
    as (st1 & Hrun & Hos & Hall & Hf & Ha & Hn).
  assert (Hreg : reg_all true bindings st
                 = (install_filter OS st1,
                    Returned (map message_of (failures log)))).
  { unfold register_all. simpl. now rewrite Hrun. }
  subst st'. rewrite Hreg. simpl.
  split; [exact Hall |].
  split; [reflexivity |].
  split.
  { rewrite <- Hos. unfold install_filter.
    now destruct (_filter st1). }
  split.
  { intros pre hid letter post s1 e1 vk o' -> Hpre Hord Hfail.
    eapply register_loop_continues; eassumption. }
  split.
  { intros Hnone. unfold install_filter.
    rewrite Hf, Hnone. simpl. now rewrite Hn, Ha. }
  split.
  { intros f Hsome. unfold install_filter.
    rewrite Hf, Hsome. simpl. split; [now rewrite Hf | exact Ha]. }
  split.
  { exact Hexact. }
  split.
  { intros w app_present cs o.
    assert (Hinv : filter_inv
                     (calls w cs
                        (init o (if app_present then Some [] else None)))).
    { apply do_calls_inv. left. now destruct app_present. }
    destruct Hinv as [-> | (f & _ & ->)]; simpl; lia. }
  split; [| reflexivity].
  intros more.
  unfold register_all. simpl.
  pose proof (register_loop_frame more (install_filter OS st1) []) as [Hf' Ha'].
  destruct (loop more (install_filter OS st1) []) as [s2 [errs|]];
    simpl in *.
  - assert (Hsome : exists f, _filter s2 = Some f).
    { rewrite Hf'. unfold install_filter.
      destruct (_filter st1) eqn:E; simpl; eauto. }
    destruct Hsome as [f Hsome].
    assert (Hsame : install_filter OS s2 = s2)
      by (unfold install_filter; now rewrite Hsome).
    rewrite Hsame. unfold installed. now rewrite Ha', Hf'.
  - unfold installed. now rewrite Ha', Hf'.
Qed.
End HotkeyFacts.

Section HotkeyWitness.
Import Py Hotkeys.

(** Another program already holds Ctrl+Shift+K. *)
Lemma register_all_contract_witness :
  well_formed Py.upper Py.ord [(CLICK, "k"); (DRAG, "D")]
  /\ snd (register_all _ table_register Py.upper Py.ord true
            [(CLICK, "k"); (DRAG, "D")] (init [(9, 75)] (Some [])))
     = Returned ["Failed to register Ctrl+Shift+k (id=CLICK)"]
  /\ os (fst (register_all _ table_register Py.upper Py.ord true
                [(CLICK, "k"); (DRAG, "D")] (init [(9, 75)] (Some []))))
     = [(9, 75); (2, 68)]
  /\ installed (fst (register_all _ table_register Py.upper Py.ord true
                       [(CLICK, "k"); (DRAG, "D")]
                       (init [(9, 75)] (Some []))))
     = [0%nat].
Proof.
  assert (Hwf : well_formed Py.upper Py.ord [(CLICK, "k"); (DRAG, "D")]).
  { repeat (constructor; [discriminate |]). constructor. }
  split; [exact Hwf |].
  destruct (register_all_contract table_register table_unregister
              Py.upper Py.ord
              [(CLICK, "k"); (DRAG, "D")] (init [(9, 75)] (Some [])) Hwf)
    as (_ & Hres & Hos & _ & Hnew & _).
  split; [rewrite Hres; reflexivity |].
  split; [rewrite Hos; reflexivity |].
  destruct (Hnew eq_refl) as (_ & Happ).
  unfold installed. rewrite Happ. reflexivity.
Defined.

(** C6 as the specification states it, for every binding, fails.  The
    settings dialog stores the upper-case form of the one character typed
    as a hotkey; for the sharp s that is [SS].  With Ctrl+Shift+K already
    taken the registration of CLICK is refused, and at DRAG [ord] raises
    [TypeError]: the call ends by the exception, no message is returned,
    the binding after it is never attempted and no interceptor is
    installed. *)
Lemma register_all_aborts_on_long_letter :
  let bindings := [(CLICK, "K"); (DRAG, "SS"); (PIXEL_LOOP, "L")] in
  let r := register_all _ table_register Py.upper Py.ord true bindings
             (init [(9, 75)] (Some [])) in
  fst (table_register [(9, 75)] 0 (int_of_hid CLICK) 16390 75) = false
  /\ snd r = Raised "TypeError"
  /\ (forall errors : list string, snd r <> Returned errors)
  /\ os (fst r) = [(9, 75)]
  /\ installed (fst r) = [].
Proof.
  repeat split; try reflexivity. intros errors. discriminate.
Qed.
End HotkeyWitness.

(* ===================================================================== *)
(** ** The process runner *)
(* ===================================================================== *)

Section RunnerFacts.
Import Py Runner.
Variable dirname : string -> string.

Ltac unfold_m :=
  cbv [mbind M_bind mret M_ret get modify emit skip _set_state] in *.

Lemma insert_snoc {A : Type} (l : list A) (x y : A) :
  <[length l := x]> (l ++ [y]) = l ++ [x].
Proof. induction l as [|a l IH]; simpl; [reflexivity | now rewrite IH]. Qed.

Lemma run_live w req tmp o :
  live w = true -> run dirname req tmp o w = (tt, w, []).
Proof. intros H. unfold run. unfold_m. now rewrite H. Qed.

Lemma run_not_live w req tmp o :
  live w = false ->
  run dirname req tmp o w
  = (tt,
     mkWorld (Some (length (procs w)))
       (if waitForStarted o then RUNNING else ERROR)
       (match unsaved_text req with
        | Some _ => Some tmp
        | None => _temp_file w
        end)
       (_kill_timer w)
       (procs w ++ [state_after_start o])
       (timers w)
       (match unsaved_text req with
        | Some _ => {[tmp]} ∪ files w
        | None => files w
        end)
       (clock w),
     match unsaved_text req with
     | Some text => [file_write tmp text]
     | None => []
     end
     ++ [state_changed RUNNING;
         stdout_ready (command_line req (run_target req tmp));
         proc_start (length (procs w)) (ahk_exe req)
           (tl (cmd_parts req (run_target req tmp)))
           (effective_wd dirname req (run_target req tmp))]
     ++ (if waitForStarted o then []
         else [state_changed ERROR;
               finished (-1) "Failed to start AHK process"])).
Proof.
  intros H. unfold run. unfold_m. rewrite H. unfold run_target.
  destruct (unsaved_text req), o; simpl; rewrite insert_snoc; reflexivity.
Qed.

Lemma stop_not_live w ms : live w = false -> stop ms w = (tt, w, []).
Proof. intros H. unfold stop. unfold_m. now rewrite H. Qed.

Lemma stop_live w ms :
  live w = true ->
  stop ms w
  = (tt,
     set_kill_timer (Some (length (timers w)))
       (set_timers (timers w ++ [mkTimer true true (clock w + ms)]) w),
     [proc_terminate (default 0%nat (_process w))]).
Proof. intros H. unfold stop. unfold_m. now rewrite H. Qed.

Lemma hard_kill_spec w :
  _hard_kill w
  = (tt, w, if live w then [proc_kill (default 0%nat (_process w))] else []).
Proof. unfold _hard_kill. unfold_m. now destruct (live w). Qed.

Lemma on_finished_spec w code status rm_ok :
  exists w',
    _on_finished code status rm_ok w
    = (tt, w',
       cleanup_effects w rm_ok
       ++ [state_changed (if code =? 0 then IDLE else ERROR);
           finished code
             (if code =? 0 then "Process exited normally"
              else "Process "
                     +:+ match status with
                         | CrashExit => "crashed"
                         | NormalExit => "exited"
                         end
                     +:+ " with code " +:+ str_int code)])
    /\ _state w' = (if code =? 0 then IDLE else ERROR)
    /\ procs w' = procs w
    /\ _process w' = _process w
    /\ _kill_timer w' = None.
Proof.
  destruct w as [pr stt tf kt ps ts fs ck].
  unfold _on_finished, cleanup_effects, timer_stop. unfold_m. simpl.
  destruct kt as [t|]; simpl; [destruct (ts !! t); simpl |];
    (destruct tf as [f|]; simpl;
     [destruct (truthy f && bool_decide (f ∈ fs)); simpl;
      [destruct rm_ok; simpl |] |]);
    destruct (code =? 0); simpl;
    eexists; (split; [reflexivity |]); repeat split.
Qed.

(** Firing timers touches the timers only. *)
Lemma fire_frame t w :
  let w' := world_of (fire t w) in
  procs w' = procs w /\ _process w' = _process w /\ _state w' = _state w.
Proof.
  destruct w as [pr stt tf kt ps ts fs ck].
  unfold fire, _hard_kill, timer_stop, world_of. unfold_m. simpl.
  destruct (ts !! t); simpl;
    match goal with |- context [live ?x] => destruct (live x) end;
    simpl; repeat split.
Qed.

Lemma fire_all_frame ts :
  forall w,
    let w' := world_of (fire_all ts w) in
    procs w' = procs w /\ _process w' = _process w /\ _state w' = _state w.
Proof.
  induction ts as [|t ts IH]; intros w; simpl; [repeat split |].
  unfold_m.
  pose proof (fire_frame t w) as (Hp & Hc & Hs).
  destruct (fire t w) as [[u w1] e1]. unfold world_of in *. simpl in *.
  pose proof (IH w1) as (Hp' & Hc' & Hs').
  destruct (fire_all ts w1) as [[u2 w2] e2]. simpl in *.
  repeat split; congruence.
Qed.

Lemma not_live_all_dead w :
  inv w -> live w = false ->
  forall q st, procs w !! q = Some st -> st = NotRunning.
Proof.
  intros [Hone _] Hlive q st Hq.
  destruct st; [reflexivity | |];
    (assert (Hcur : _process w = Some q) by (eapply Hone; [exact Hq | discriminate]);
     unfold live in Hlive; rewrite Hcur, Hq in Hlive; discriminate).
Qed.

Lemma inv_same w w' :
  procs w' = procs w -> _process w' = _process w -> _state w' = _state w ->
  inv w -> inv w'.
Proof. unfold inv. intros -> -> ->. trivial. Qed.

Lemma inv_step w ev : inv w -> inv (fst (step dirname w ev)).
Proof.
  intros Hinv. unfold step. destruct ev; simpl.
  - (* run *)
    destruct (live w) eqn:Hlive.
    + rewrite run_live by assumption. exact Hinv.
    + rewrite run_not_live by assumption. simpl.
      pose proof (not_live_all_dead w Hinv Hlive) as Hdead.
      split; simpl.
      * intros q st Hq Hst.
        apply lookup_app_Some in Hq as [Hq | [Hge Hq]].
        -- apply Hdead in Hq. contradiction.
        -- apply list_lookup_singleton_Some in Hq as [Hz _].
           f_equal. lia.
      * destruct o; simpl; try discriminate.
        intros _. eexists. split; [reflexivity |].
        apply list_lookup_middle. reflexivity.
  - (* stop *)
    destruct (live w) eqn:Hlive.
    + rewrite stop_live by assumption. simpl.
      eapply inv_same; [| | | exact Hinv]; reflexivity.
    + rewrite stop_not_live by assumption. exact Hinv.
  - (* started *)
    unfold_m. destruct (procs w !! p) as [[]|] eqn:Hp; simpl; try exact Hinv.
    destruct Hinv as [Hone Hrun]. split; simpl.
    + intros q st Hq Hst.
      destruct (decide (p = q)) as [<- | Hne].
      * eapply Hone; [exact Hp | discriminate].
      * rewrite list_lookup_insert_ne in Hq by assumption.
        eapply Hone; eassumption.
    + intros Hs. destruct (Hrun Hs) as (p0 & Hcur & Hp0).
      exists p0. split; [assumption |].
      destruct (decide (p = p0)) as [<- | Hne]; [congruence |].
      now rewrite list_lookup_insert_ne.
  - (* failed *)
    unfold_m. destruct (procs w !! p) as [[]|] eqn:Hp; simpl; try exact Hinv.
    destruct Hinv as [Hone Hrun]. split; simpl.
    + intros q st Hq Hst.
      destruct (decide (p = q)) as [<- | Hne].
      * rewrite list_lookup_insert_eq in Hq
          by (eapply lookup_lt_Some; eassumption).
        congruence.
      * rewrite list_lookup_insert_ne in Hq by assumption.
        eapply Hone; eassumption.
    + intros Hs. destruct (Hrun Hs) as (p0 & Hcur & Hp0).
      exists p0. split; [assumption |].
      destruct (decide (p = p0)) as [<- | Hne]; [congruence |].
      now rewrite list_lookup_insert_ne.
  - (* exit *)
    unfold_m. destruct (procs w !! p) as [[]|] eqn:Hp; simpl; try exact Hinv.
    destruct (on_finished_spec
                (set_procs (<[p:=NotRunning]> (procs w)) w)
                exit_code exit_status rm_ok)
      as (w' & Hrun' & Hs & Hps & Hcur & _).
    rewrite Hrun'. simpl.
    destruct Hinv as [Hone Hrun]. split.
    + rewrite Hps, Hcur. simpl. intros q st Hq Hst.
      destruct (decide (p = q)) as [<- | Hne].
      * rewrite list_lookup_insert_eq in Hq
          by (eapply lookup_lt_Some; eassumption).
        congruence.
      * rewrite list_lookup_insert_ne in Hq by assumption.
        eapply Hone; eassumption.
    + rewrite Hs. destruct (exit_code =? 0); discriminate.
  - (* stdout *)
    unfold _on_stdout. unfold_m. destruct (_process w); exact Hinv.
  - unfold _on_stderr. unfold_m. destruct (_process w); exact Hinv.
  - (* advance *)
    destruct (dt <? 0); [exact Hinv |].
    unfold_m.
    pose proof (fire_all_frame (due (clock w + dt) (timers w))
                  (set_clock (clock w + dt) w)) as (Hp & Hc & Hs).
    unfold world_of in *.
    destruct (fire_all _ _) as [[u w'] e]. simpl in *.
    eapply inv_same; [exact Hp | exact Hc | exact Hs |].
    eapply inv_same; [| | | exact Hinv]; reflexivity.
Qed.

Lemma reachable_inv w : reachable dirname w -> inv w.
Proof.
  induction 1 as [| w ev _ IH].
  - split; simpl; [| discriminate].
    intros q st Hq. rewrite lookup_nil in Hq. discriminate.
  - now apply inv_step.
Qed.

Lemma running_is_live w : inv w -> _state w = RUNNING -> live w = true.
Proof.
  intros [_ Hrun] Hs. destruct (Hrun Hs) as (p & Hcur & Hp).
  unfold live. now rewrite Hcur, Hp.
Qed.

Lemma reachable_steps evs :
  forall w, reachable dirname w -> reachable dirname (fst (steps dirname w evs)).
Proof.
  induction evs as [|ev evs IH]; intros w Hw; simpl; [assumption |].
  pose proof (reach_step dirname w ev Hw) as H1.
  destruct (step dirname w ev) as [w1 o1]. simpl in H1.
  specialize (IH w1 H1).
  destruct (steps dirname w1 evs) as [w2 o2]. exact IH.
Qed.

(** When the process exits, the timer the runner still refers to is
    disarmed. *)
Lemma on_finished_disarms w code status rm_ok t tm :
  _kill_timer w = Some t -> timers w !! t = Some tm ->
  timers (world_of (_on_finished code status rm_ok w)) !! t
  = Some (mkTimer (single_shot tm) false (deadline tm)).
Proof.
  destruct w as [pr stt tf kt ps ts fs ck]. simpl. intros -> Ht.
  unfold _on_finished, timer_stop, world_of. unfold_m. simpl. rewrite Ht.
  simpl.
  destruct tf as [f|]; simpl;
    [destruct (truthy f && bool_decide (f ∈ fs)); simpl;
     [destruct rm_ok; simpl |] |];
    destruct (code =? 0); simpl;
    apply list_lookup_insert_eq; eapply lookup_lt_Some; eassumption.
Qed.

(** C1. While a child process is alive, and in particular whenever a
    runner reached from its initial state publishes [RUNNING], a call of
    [run] returns at once: the runner is unchanged (so its state stays
    [RUNNING] and no process object is added) and nothing is emitted, no
    state change, no output line, no process start. *)
Theorem run_while_running_is_noop w req tmp o :
  live w = true \/ (reachable dirname w /\ _state w = RUNNING) ->
  run dirname req tmp o w = (tt, w, [])
  /\ step dirname w (ev_run req tmp o) = (w, [])
  /\ live w = true.
Proof.
  intros H.
  assert (Hlive : live w = true).
  { destruct H as [H | [Hreach Hs]]; [exact H |].
    apply running_is_live; [now apply reachable_inv | exact Hs]. }
  repeat split; [| | exact Hlive].
  - now apply run_live.
  - unfold step. simpl. now rewrite run_live.
Qed.

(** C2. When the child process exits, [_on_finished] ends by publishing
    [IDLE] with the message [Process exited normally] if the exit code is
    zero, and [ERROR] otherwise with [Process crashed with code N] when
    the exit status is [CrashExit] and [Process exited with code N] when
    it is [NormalExit]; the two messages differ for every code.  Before
    that it emits at most the removal of the temporary file. *)
Theorem on_finished_classifies w code status rm_ok :
  exists w',
    _on_finished code status rm_ok w
    = (tt, w',
       cleanup_effects w rm_ok
       ++ [state_changed (if code =? 0 then IDLE else ERROR);
           finished code
             (if code =? 0 then "Process exited normally"
              else "Process "
                     +:+ match status with
                         | CrashExit => "crashed"
                         | NormalExit => "exited"
                         end
                     +:+ " with code " +:+ str_int code)])
    /\ _state w' = (if code =? 0 then IDLE else ERROR)
    /\ "Process " +:+ "crashed" +:+ " with code " +:+ str_int code
       <> "Process " +:+ "exited" +:+ " with code " +:+ str_int code.
Proof.
  destruct (on_finished_spec w code status rm_ok)
    as (w' & Hrun & Hs & _).
  exists w'. split; [exact Hrun |]. split; [exact Hs |].
  simpl. discriminate.
Qed.

(** The same, seen from the event loop: the exit of a running process. *)
Lemma exit_event_sets_state w p code status rm_ok :
  procs w !! p = Some Running ->
  _state (fst (step dirname w (ev_proc_exit p code status rm_ok)))
  = (if code =? 0 then IDLE else ERROR).
Proof.
  intros Hp. unfold step. simpl. unfold_m. rewrite Hp.
  destruct (on_finished_spec (set_procs (<[p:=NotRunning]> (procs w)) w)
              code status rm_ok) as (w' & Hrun & Hs & _).
  rewrite Hrun. exact Hs.
Qed.

(** C9. The gate of [run] looks at the process only: whenever no child
    process is alive, whatever the published state, [run] creates a new
    process object, publishes [RUNNING], prints the command line and
    starts the process; the state it ends in is [RUNNING] when the start
    succeeds.  A runner that published [ERROR], after a failed start or
    after a nonzero exit, is such a runner, so [ERROR] to [RUNNING] is a
    transition of the public interface. *)
Theorem run_gate_is_liveness w req tmp o :
  live w = false ->
  (exists w',
     step dirname w (ev_run req tmp o)
     = (w',
        match unsaved_text req with
        | Some text => [file_write tmp text]
        | None => []
        end
        ++ [state_changed RUNNING;
            stdout_ready (command_line req (run_target req tmp));
            proc_start (length (procs w)) (ahk_exe req)
              (tl (cmd_parts req (run_target req tmp)))
              (effective_wd dirname req (run_target req tmp))]
        ++ (if waitForStarted o then []
            else [state_changed ERROR;
                  finished (-1) "Failed to start AHK process"]))
     /\ _state w' = (if waitForStarted o then RUNNING else ERROR)
     /\ _process w' = Some (length (procs w))
     /\ procs w' = procs w ++ [state_after_start o])
  /\ (let w1 := fst (steps dirname init [ev_run req tmp FailedToStart]) in
      reachable dirname w1 /\ _state w1 = ERROR /\ live w1 = false
      /\ _state (fst (step dirname w1 (ev_run req tmp Started))) = RUNNING)
  /\ (let w2 := fst (steps dirname init
                       [ev_run req tmp Started;
                        ev_proc_exit 0 1 NormalExit true]) in
      reachable dirname w2 /\ _state w2 = ERROR /\ live w2 = false
      /\ _state (fst (step dirname w2 (ev_run req tmp Started))) = RUNNING).
Proof.
  intros Hlive. split; [| split].
  - eexists. unfold step. simpl. rewrite run_not_live by assumption.
    split; [reflexivity |]. repeat split.
  - assert (Hreach : reachable dirname
                       (fst (steps dirname init [ev_run req tmp FailedToStart])))
      by (apply reachable_steps, reach_init).
    revert Hreach. unfold steps, step. simpl.
    rewrite (run_not_live init) by reflexivity. simpl.
    intros Hreach. split; [exact Hreach |].
    split; [reflexivity |]. split; [reflexivity |].
    rewrite run_not_live by reflexivity. reflexivity.
  - assert (Hreach : reachable dirname
                       (fst (steps dirname init
                               [ev_run req tmp Started;
                                ev_proc_exit 0 1 NormalExit true])))
      by (apply reachable_steps, reach_init).
    revert Hreach. unfold steps, step. simpl.
    rewrite (run_not_live init) by reflexivity. simpl.
    unfold_m. simpl.
    destruct (on_finished_spec
                (mkWorld (Some 0%nat) RUNNING
                   (match unsaved_text req with
                    | Some _ => Some tmp
                    | None => None
                    end) None [NotRunning] []
                   (match unsaved_text req with
                    | Some _ => {[tmp]} ∪ ∅
                    | None => ∅
                    end) 0)
                1 NormalExit true)
      as (w' & Hrun & Hs & Hps & Hcur & _).
    simpl in *.
    match goal with
    | |- context [_on_finished 1 NormalExit true ?x] =>
        change x with
          (mkWorld (Some 0%nat) RUNNING
             (match unsaved_text req with
              | Some _ => Some tmp
              | None => None
              end) None [NotRunning] []
             (match unsaved_text req with
              | Some _ => {[tmp]} ∪ ∅
              | None => ∅
              end) 0)
    end.
    rewrite Hrun. simpl.
    assert (Hdead : live w' = false)
      by (unfold live; now rewrite Hcur, Hps).
    intros Hreach. split; [exact Hreach |].
    split; [exact Hs |]. split; [exact Hdead |].
    now rewrite run_not_live.
Qed.
End RunnerFacts.

Section RunnerExamples.
Import Py Runner.

Lemma run_while_running_is_noop_witness :
  let w := fst (step sample_dirname init
                  (ev_run sample_request EmptyString Started)) in
  (reachable sample_dirname w /\ _state w = RUNNING)
  /\ step sample_dirname w (ev_run sample_request EmptyString Started)
     = (w, []).
Proof.
  intros w.
  assert (H : reachable sample_dirname w /\ _state w = RUNNING).
  { split; [apply reach_step, reach_init | reflexivity]. }
  split; [exact H |].
  apply (run_while_running_is_noop sample_dirname w sample_request
           EmptyString Started (or_intror H)).
Defined.

Lemma run_gate_is_liveness_witness :
  live init = false
  /\ _state (fst (step sample_dirname init
                    (ev_run sample_request EmptyString Started)))
     = RUNNING.
Proof.
  split; [reflexivity |].
  destruct (run_gate_is_liveness sample_dirname init sample_request
              EmptyString Started eq_refl)
    as [(w' & Hstep & Hs & _) _].
  rewrite Hstep. exact Hs.
Defined.

(** C3. [stop] is called twice during one run (at 0 ms and at 500 ms,
    with a timeout of 2000 ms each) and the process exits at 1000 ms,
    inside both windows.  [_on_finished] disarms the second timer only:
    the first one is still armed although the run is over.  A new run is
    started at once; at 2000 ms the first timer fires and [_hard_kill]
    kills the new process, for which [stop] was never called. *)
Theorem stop_twice_leaves_timer_armed :
  let w := fst (steps sample_dirname init
                  [ev_run sample_request EmptyString Started;
                   ev_stop 2000; ev_advance 500; ev_stop 2000;
                   ev_advance 500;
                   ev_proc_exit 0 0 NormalExit true]) in
  _state w = IDLE
  /\ live w = false
  /\ _kill_timer w = None
  /\ timers w = [mkTimer true true 2000; mkTimer true false 2500]
  /\ armed w = [0%nat]
  /\ snd (steps sample_dirname w
            [ev_run sample_request EmptyString Started; ev_advance 1000])
     = [state_changed RUNNING;
        stdout_ready
          (">> AutoHotkey64.exe /ErrorStdOut C:/scripts/demo.ahk" +:+ nl);
        proc_start 1 "AutoHotkey64.exe"
          ["/ErrorStdOut"; "C:/scripts/demo.ahk"] "C:/scripts";
        proc_kill 1].
Proof. vm_compute. repeat split. Qed.

(** With a single [stop] the same exit leaves no timer armed and the new
    run is not killed. *)
Example stop_once_disarms :
  let w := fst (steps sample_dirname init
                  [ev_run sample_request EmptyString Started;
                   ev_stop 2000; ev_advance 1000;
                   ev_proc_exit 0 0 NormalExit true]) in
  armed w = []
  /\ snd (steps sample_dirname w
            [ev_run sample_request EmptyString Started; ev_advance 5000])
     = [state_changed RUNNING;
        stdout_ready
          (">> AutoHotkey64.exe /ErrorStdOut C:/scripts/demo.ahk" +:+ nl);
        proc_start 1 "AutoHotkey64.exe"
          ["/ErrorStdOut"; "C:/scripts/demo.ahk"] "C:/scripts"].
Proof. vm_compute. repeat split. Qed.

(** Without an exit the timer fires after the timeout and the process is
    killed; not before. *)
Example stop_escalates :
  snd (steps sample_dirname init
         [ev_run sample_request EmptyString Started;
          ev_stop 2000; ev_advance 1999])
  = [state_changed RUNNING;
     stdout_ready
       (">> AutoHotkey64.exe /ErrorStdOut C:/scripts/demo.ahk" +:+ nl);
     proc_start 0 "AutoHotkey64.exe"
       ["/ErrorStdOut"; "C:/scripts/demo.ahk"] "C:/scripts";
     proc_terminate 0]
  /\ snd (steps sample_dirname init
            [ev_run sample_request EmptyString Started;
             ev_stop 2000; ev_advance 1999; ev_advance 1])
     = [state_changed RUNNING;
        stdout_ready
          (">> AutoHotkey64.exe /ErrorStdOut C:/scripts/demo.ahk" +:+ nl);
        proc_start 0 "AutoHotkey64.exe"
          ["/ErrorStdOut"; "C:/scripts/demo.ahk"] "C:/scripts";
        proc_terminate 0; proc_kill 0].
Proof. vm_compute. repeat split. Qed.
End RunnerExamples.

(* ===================================================================== *)
(** ** The process runner: lifecycle, timers, temporary files *)
(* ===================================================================== *)

Section RunnerLifecycle.
Import Py Runner.
Variable dirname : string -> string.

Ltac unfold_m :=
  cbv [mbind M_bind mret M_ret get modify emit skip _set_state] in *.

(** X1. In every state the runner can reach, at most one of the process
    objects it ever created is alive (starting or running), and that one is
    the process the runner currently refers to. *)
Theorem at_most_one_live_process w p q sp sq :
  reachable dirname w ->
  procs w !! p = Some sp -> sp <> NotRunning ->
  procs w !! q = Some sq -> sq <> NotRunning ->
  p = q /\ _process w = Some p.
Proof.
  intros Hr Hp Hsp Hq Hsq.
  destruct (reachable_inv dirname w Hr) as [Hone _].
  pose proof (Hone p sp Hp Hsp) as H1.
  pose proof (Hone q sq Hq Hsq) as H2.
  split; [congruence | exact H1].
Qed.

Lemma last_published_app s0 l1 l2 :
  last_published s0 (l1 ++ l2) = last_published (last_published s0 l1) l2.
Proof.
  revert s0. induction l1 as [|e l1 IH]; intros s0; simpl; [reflexivity |].
  destruct e; apply IH.
Qed.

Lemma fire_all_out ts :
  forall w, Forall (fun e => is_kill e = true) (snd (fire_all ts w)).
Proof.
  induction ts as [|t ts IH]; intros w; simpl; [constructor |].
  unfold_m. unfold fire at 1. unfold_m.
  rewrite hard_kill_spec.
  specialize (IH (timer_stop t w)).
  destruct (fire_all ts (timer_stop t w)) as [[u w2] e2]. simpl in *.
  destruct (live (timer_stop t w)); simpl; [constructor; [reflexivity |] |]; exact IH.
Qed.

Lemma last_published_kills s0 out :
  Forall (fun e => is_kill e = true) out -> last_published s0 out = s0.
Proof.
  induction 1 as [|e out He _ IH]; simpl; [reflexivity |].
  destruct e; try discriminate; exact IH.
Qed.

Lemma cleanup_effects_no_state s0 w rm_ok :
  last_published s0 (cleanup_effects w rm_ok) = s0.
Proof.
  unfold cleanup_effects. destruct (_temp_file w) as [f|]; [| reflexivity].
  destruct (truthy f && bool_decide (f ∈ files w) && rm_ok); reflexivity.
Qed.

Lemma step_last_published w ev :
  _state (fst (step dirname w ev))
  = last_published (_state w) (snd (step dirname w ev)).
Proof.
  unfold step. destruct ev; simpl.
  - destruct (live w) eqn:Hl.
    + now rewrite run_live.
    + rewrite run_not_live by assumption. simpl.
      rewrite last_published_app.
      assert (Hpre : forall s, last_published s
                  match unsaved_text req with
                  | Some text => [file_write tmp text]
                  | None => []
                  end = s) by (intros s; now destruct (unsaved_text req)).
      rewrite Hpre. now destruct o.
  - destruct (live w) eqn:Hl.
    + now rewrite stop_live.
    + now rewrite stop_not_live.
  - unfold_m. now destruct (procs w !! p) as [[]|].
  - unfold_m. now destruct (procs w !! p) as [[]|].
  - unfold_m. destruct (procs w !! p) as [[]|]; try reflexivity.
    destruct (on_finished_spec (set_procs (<[p:=NotRunning]> (procs w)) w)
                exit_code exit_status rm_ok) as (w' & Hrun & Hs & _).
    rewrite Hrun. simpl. rewrite last_published_app, cleanup_effects_no_state.
    simpl. exact Hs.
  - unfold _on_stdout. unfold_m. now destruct (_process w).
  - unfold _on_stderr. unfold_m. now destruct (_process w).
  - destruct (dt <? 0); [reflexivity |]. unfold_m.
    pose proof (fire_all_frame (due (clock w + dt) (timers w))
                  (set_clock (clock w + dt) w)) as (_ & _ & Hs).
    pose proof (fire_all_out (due (clock w + dt) (timers w))
                  (set_clock (clock w + dt) w)) as Hout.
    unfold world_of in *.
    destruct (fire_all _ _) as [[u w'] e]. simpl in *.
    rewrite last_published_kills by assumption. exact Hs.
Qed.

Lemma steps_last_published evs :
  forall w, _state (fst (steps dirname w evs))
            = last_published (_state w) (snd (steps dirname w evs)).
Proof.
  induction evs as [|ev evs IH]; intros w; simpl; [reflexivity |].
  pose proof (step_last_published w ev) as H1.
  destruct (step dirname w ev) as [w1 o1]. simpl in H1.
  specialize (IH w1).
  destruct (steps dirname w1 evs) as [w2 o2]. simpl in *.
  now rewrite last_published_app, <- H1.
Qed.

(** X2. After any sequence of calls and events on a fresh runner, the
    state the runner holds is the state of the last [state_changed]
    notification it emitted ([IDLE] if it emitted none): an observer of the
    signal is never out of date. *)
Theorem published_state_is_last_notified evs :
  _state (fst (steps dirname init evs))
  = last_published IDLE (snd (steps dirname init evs)).
Proof. apply (steps_last_published evs init). Qed.


Lemma filter_nil_iff {A : Type} (f : A -> bool) (l : list A) :
  List.filter f l = [] <-> (forall x, In x l -> f x = false).
Proof.
  induction l as [|a l IH]; simpl.
  - split; [intros _ x [] | reflexivity].
  - destruct (f a) eqn:Ha.
    + split; [discriminate |]. intros H. specialize (H a (or_introl eq_refl)).
      congruence.
    + rewrite IH. split.
      * intros H x [<- | Hx]; [assumption | now apply H].
      * intros H x Hx. apply H. now right.
Qed.

Lemma armed_nil_iff w :
  armed w = [] <->
  (forall t tm, timers w !! t = Some tm -> active tm = false).
Proof.
  unfold armed. rewrite filter_nil_iff. split.
  - intros H t tm Ht. specialize (H t).
    rewrite Ht in H. apply H. apply in_seq.
    apply lookup_lt_Some in Ht. lia.
  - intros H t _. destruct (timers w !! t) as [tm|] eqn:Ht; [| reflexivity].
    eapply H; eassumption.
Qed.

Lemma due_nil c ts :
  (forall t tm, ts !! t = Some tm -> active tm && (deadline tm <=? c) = false) ->
  due c ts = [].
Proof.
  intros H. unfold due. apply filter_nil_iff. intros t _.
  destruct (ts !! t) as [tm|] eqn:Ht; [| reflexivity].
  eapply H; eassumption.
Qed.

Lemma due_snoc c ts tm :
  (forall t tm', ts !! t = Some tm' -> active tm' = false) ->
  due c (ts ++ [tm])
  = if active tm && (deadline tm <=? c) then [length ts] else [].
Proof.
  intros Hold. unfold due.
  rewrite length_app. simpl. rewrite seq_app. simpl.
  rewrite List.filter_app. simpl.
  rewrite list_lookup_middle by reflexivity.
  assert (Hpre : List.filter
            (fun t => match (ts ++ [tm]) !! t with
                      | Some tm0 => active tm0 && (deadline tm0 <=? c)
                      | None => false
                      end) (seq 0 (length ts)) = []).
  { apply filter_nil_iff. intros t Ht. apply in_seq in Ht.
    rewrite lookup_app_l by lia.
    destruct (ts !! t) as [tm0|] eqn:E; [| reflexivity].
    now rewrite (Hold _ _ E). }
  rewrite Hpre. simpl.
  now destruct (active tm && (deadline tm <=? c)).
Qed.

Lemma live_set_timers ts w : live (set_timers ts w) = live w.
Proof. reflexivity. Qed.

Lemma on_finished_world w code status rm_ok :
  world_of (_on_finished code status rm_ok w)
  = mkWorld (_process w) (if code =? 0 then IDLE else ERROR)
      (match _temp_file w with
       | Some f => if truthy f && bool_decide (f ∈ files w) then None
                   else Some f
       | None => None
       end)
      None (procs w)
      (match _kill_timer w with
       | Some t =>
           match timers w !! t with
           | Some tm =>
               <[t := mkTimer (single_shot tm) false (deadline tm)]> (timers w)
           | None => timers w
           end
       | None => timers w
       end)
      (match _temp_file w with
       | Some f => if truthy f && bool_decide (f ∈ files w) && rm_ok
                   then files w ∖ {[f]} else files w
       | None => files w
       end)
      (clock w).
Proof.
  destruct w as [pr stt tf kt ps ts fs ck].
  unfold _on_finished, timer_stop, world_of. unfold_m. simpl.
  destruct kt as [t|]; simpl; [destruct (ts !! t); simpl |];
    (destruct tf as [f|]; simpl;
     [destruct (truthy f && bool_decide (f ∈ fs)); simpl;
      [destruct rm_ok; simpl |] |]);
    destruct (code =? 0); reflexivity.
Qed.

Lemma on_finished_out w code status rm_ok :
  Forall (fun e => is_termination e = false)
         (snd (_on_finished code status rm_ok w)).
Proof.
  destruct (on_finished_spec w code status rm_ok) as (w' & Hrun & _).
  rewrite Hrun. simpl. apply Forall_app. split.
  - unfold cleanup_effects. destruct (_temp_file w) as [f|]; [| constructor].
    destruct (truthy f && bool_decide (f ∈ files w) && rm_ok);
      repeat constructor.
  - repeat constructor.
Qed.

Lemma all_inactive_snoc ts tm :
  (forall t tm', ts !! t = Some tm' -> active tm' = false) ->
  active tm = false ->
  forall t tm', (ts ++ [tm]) !! t = Some tm' -> active tm' = false.
Proof.
  intros Hold Hnew t tm' Ht.
  apply lookup_app_Some in Ht as [Ht | [_ Ht]].
  - eapply Hold; eassumption.
  - apply list_lookup_singleton_Some in Ht as [_ <-]. exact Hnew.
Qed.

(** X3. With no timer armed beforehand, one [stop(ms)] on a running
    process that then exits before [ms] have passed emits the terminate
    request, the clean-up and the completion notifications only; the timer
    is disarmed, [_kill_timer] is reset, and however much time passes
    afterwards no kill is issued. *)
Theorem graceful_exit_cancels_kill w p ms dt dt' code status rm_ok :
  armed w = [] ->
  _process w = Some p -> procs w !! p = Some Running ->
  0 <= dt < ms -> 0 <= dt' ->
  let r := steps dirname w
             [ev_stop ms; ev_advance dt;
              ev_proc_exit p code status rm_ok; ev_advance dt'] in
  snd r = [proc_terminate p] ++ cleanup_effects w rm_ok
          ++ [state_changed (if code =? 0 then IDLE else ERROR);
              finished code
                (if code =? 0 then "Process exited normally"
                 else "Process "
                        +:+ match status with
                            | CrashExit => "crashed"
                            | NormalExit => "exited"
                            end
                        +:+ " with code " +:+ str_int code)]
  /\ armed (fst r) = []
  /\ _kill_timer (fst r) = None
  /\ live (fst r) = false.
Proof.
  intros Harmed Hcur Hp Hdt Hdt'.
  assert (Hlive : live w = true) by (unfold live; now rewrite Hcur, Hp).
  assert (Hold := proj1 (armed_nil_iff w) Harmed).
  destruct w as [pr stt tf kt ps ts fs ck]. simpl in *. subst pr.
  unfold steps, step. simpl handle.
  rewrite stop_live by assumption. simpl.
  replace (dt <? 0) with false by (symmetry; apply Z.ltb_ge; lia).
  unfold_m. simpl.
  rewrite due_snoc by assumption. simpl.
  replace (ck + ms <=? ck + dt) with false by (symmetry; apply Z.leb_gt; lia).
  simpl. rewrite Hp.
  match goal with
  | |- context [_on_finished code status rm_ok ?x] =>
      pose proof (on_finished_world x code status rm_ok) as Hw;
      destruct (on_finished_spec x code status rm_ok) as (w' & Hrun & _);
      rewrite Hrun in *
  end.
  unfold world_of in Hw. simpl in Hw.
  rewrite list_lookup_middle in Hw by reflexivity. simpl in Hw.
  rewrite insert_snoc in Hw. subst w'. simpl.
  replace (dt' <? 0) with false by (symmetry; apply Z.ltb_ge; lia).
  simpl.
  rewrite due_nil.
  2:{ intros t tm Ht.
      now rewrite (all_inactive_snoc ts (mkTimer true false (ck + ms)) Hold
                     eq_refl t tm Ht). }
  simpl. unfold cleanup_effects. simpl.
  split; [now rewrite !app_nil_r |].
  split.
  { apply armed_nil_iff. simpl. now apply all_inactive_snoc. }
  split; [reflexivity |].
  unfold live. simpl.
  rewrite list_lookup_insert_eq by (eapply lookup_lt_Some; eassumption).
  reflexivity.
Qed.

(** X4. With no timer armed beforehand, [stop(ms)] with [ms] an interval
    that [QTimer.start] accepts (not negative and within a C int, so at
    most 2147483647), on a live process that does not exit, asks it to
    terminate at once and kills it exactly when [ms] have passed:
    advancing the clock by less than [ms] leaves the timer armed and issues
    no kill, advancing by [ms] or more issues one kill, after which the
    single-shot timer is disarmed and later time issues nothing more. *)
Theorem stop_escalates_after_timeout w p sp ms dt :
  armed w = [] ->
  _process w = Some p -> procs w !! p = Some sp -> sp <> NotRunning ->
  0 <= ms <= 2147483647 -> 0 <= dt ->
  let r := steps dirname w [ev_stop ms; ev_advance dt] in
  snd r = (if ms <=? dt then [proc_terminate p; proc_kill p]
           else [proc_terminate p])
  /\ armed (fst r) = (if ms <=? dt then [] else [length (timers w)])
  /\ (forall dt2, 0 <= dt2 -> ms <= dt ->
       snd (step dirname (fst r) (ev_advance dt2)) = []).
Proof.
  intros Harmed Hcur Hp Hsp [Hms0 Hmax] Hdt.
  assert (Hlive : live w = true).
  { unfold live. rewrite Hcur, Hp. now destruct sp. }
  assert (Hold := proj1 (armed_nil_iff w) Harmed).
  destruct w as [pr stt tf kt ps ts fs ck]. simpl in *. subst pr.
  unfold steps, step. simpl handle.
  rewrite stop_live by assumption. simpl.
  replace (dt <? 0) with false by (symmetry; apply Z.ltb_ge; lia).
  unfold_m. simpl.
  rewrite due_snoc by assumption. simpl.
  replace (ck + ms <=? ck + dt) with (ms <=? dt)
    by (destruct (Z.leb_spec ms dt), (Z.leb_spec (ck + ms) (ck + dt));
        reflexivity || lia).
  destruct (ms <=? dt) eqn:Hms; simpl.
  - unfold fire, timer_stop. unfold_m. simpl.
    rewrite list_lookup_middle by reflexivity. simpl.
    rewrite hard_kill_spec. simpl.
    unfold live. simpl. rewrite Hp, insert_snoc.
    split; [now destruct sp |].
    split.
    { apply armed_nil_iff. simpl. now apply all_inactive_snoc. }
    intros dt2 Hdt2 _.
    replace (dt2 <? 0) with false by (symmetry; apply Z.ltb_ge; lia).
    simpl. rewrite due_nil; [now destruct sp |].
    intros t tm Ht.
    now rewrite (all_inactive_snoc ts (mkTimer true false (ck + ms)) Hold
                   eq_refl t tm Ht).
  - split; [reflexivity |].
    split; [| intros dt2 _ Hle; apply Z.leb_gt in Hms; lia].
    unfold armed. simpl. rewrite length_app. simpl. rewrite seq_app. simpl.
    rewrite List.filter_app. simpl.
    rewrite list_lookup_middle by reflexivity. simpl.
    replace (List.filter _ (seq 0 (length ts))) with (@nil nat); [reflexivity |].
    symmetry. apply filter_nil_iff. intros t Ht. apply in_seq in Ht.
    rewrite lookup_app_l by lia.
    destruct (ts !! t) as [tm|] eqn:E; [| reflexivity].
    now apply (Hold _ _ E).
Qed.

Lemma exit_step_world w p code status rm_ok :
  procs w !! p = Some Running ->
  fst (step dirname w (ev_proc_exit p code status rm_ok))
  = world_of (_on_finished code status rm_ok
                (set_procs (<[p:=NotRunning]> (procs w)) w)).
Proof.
  intros Hp. unfold step, world_of. simpl handle. unfold_m. rewrite Hp.
  now destruct (_on_finished _ _ _ _) as [[u w1] o1].
Qed.

(** X5. In a state the runner can reach, once the running process has
    exited no process is alive, and [stop] returns without any effect. *)
Theorem stop_after_exit_is_noop w p code status rm_ok ms :
  reachable dirname w -> procs w !! p = Some Running ->
  let w1 := fst (step dirname w (ev_proc_exit p code status rm_ok)) in
  live w1 = false /\ step dirname w1 (ev_stop ms) = (w1, []).
Proof.
  intros Hr Hp w1.
  destruct (reachable_inv dirname w Hr) as [Hone _].
  assert (Hcur : _process w = Some p) by (eapply Hone; [exact Hp | discriminate]).
  assert (Hlive : live w1 = false).
  { subst w1. rewrite exit_step_world, on_finished_world by assumption.
    unfold live. simpl. rewrite Hcur.
    rewrite list_lookup_insert_eq by (eapply lookup_lt_Some; eassumption).
    reflexivity. }
  split; [exact Hlive |].
  unfold step. simpl handle. rewrite stop_not_live by exact Hlive.
  reflexivity.
Qed.

(** X6. A run with unsaved text first writes the text to the temporary
    path, starts the interpreter on that path and remembers it.  When the
    process exits and the removal succeeds the file is removed first and the
    set of files is what it was before the run; when the removal fails
    nothing is reported, the file stays, and the runner forgets the path
    all the same. *)
Theorem temp_file_lifecycle w req text tmp code status :
  live w = false -> unsaved_text req = Some text ->
  tmp <> EmptyString -> tmp ∉ files w ->
  let r1 := step dirname w (ev_run req tmp Started) in
  let p := length (procs w) in
  let r2 := step dirname (fst r1) (ev_proc_exit p code status true) in
  let r2' := step dirname (fst r1) (ev_proc_exit p code status false) in
  (hd_error (snd r1) = Some (file_write tmp text)
   /\ In (proc_start p (ahk_exe req) (tl (cmd_parts req tmp))
            (effective_wd dirname req tmp)) (snd r1)
   /\ _temp_file (fst r1) = Some tmp /\ tmp ∈ files (fst r1))
  /\ (hd_error (snd r2) = Some (file_remove tmp)
      /\ _temp_file (fst r2) = None /\ files (fst r2) = files w)
  /\ (Forall (fun e => forall f, e <> file_remove f) (snd r2')
      /\ _temp_file (fst r2') = None /\ tmp ∈ files (fst r2')).
Proof.
  intros Hlive Htext Htmp Hfresh r1 p r2 r2'.
  assert (Htruthy : truthy tmp = true) by (destruct tmp; [contradiction | reflexivity]).
  assert (Hr1 : r1 = (mkWorld (Some p) RUNNING (Some tmp) (_kill_timer w)
                        (procs w ++ [Running]) (timers w) ({[tmp]} ∪ files w)
                        (clock w),
                      [file_write tmp text; state_changed RUNNING;
                       stdout_ready (command_line req tmp);
                       proc_start p (ahk_exe req) (tl (cmd_parts req tmp))
                         (effective_wd dirname req tmp)])).
  { subst r1. unfold step. simpl handle. rewrite run_not_live by assumption.
    unfold run_target. rewrite Htext. reflexivity. }
  assert (Hp : procs (fst r1) !! p = Some Running).
  { rewrite Hr1. simpl. now apply list_lookup_middle. }
  assert (Hin : bool_decide (tmp ∈ {[tmp]} ∪ files w) = true)
    by (apply bool_decide_eq_true; set_solver).
  split; [| split].
  - rewrite Hr1. simpl. repeat split; [tauto | set_solver].
  - subst r2. unfold step at 1 2 3.
    simpl handle. unfold_m. rewrite Hp.
    match goal with
    | |- context [_on_finished code status true ?x] =>
        pose proof (on_finished_world x code status true) as Hw;
        destruct (on_finished_spec x code status true) as (w' & Hrun & _);
        rewrite Hrun in *
    end.
    unfold world_of in Hw. simpl in Hw. subst w'. simpl.
    rewrite Hr1. unfold cleanup_effects. simpl. rewrite Htruthy, Hin. simpl.
    repeat split.
    apply leibniz_equiv. intros x.
    rewrite elem_of_difference, elem_of_union, elem_of_singleton.
    split; [tauto |]. intros Hx. split; [now right |].
    intros ->. contradiction.
  - subst r2'. unfold step at 1 2 3.
    simpl handle. unfold_m. rewrite Hp.
    match goal with
    | |- context [_on_finished code status false ?x] =>
        pose proof (on_finished_world x code status false) as Hw;
        destruct (on_finished_spec x code status false) as (w' & Hrun & _);
        rewrite Hrun in *
    end.
    unfold world_of in Hw. simpl in Hw. subst w'. simpl.
    rewrite Hr1. unfold cleanup_effects. simpl. rewrite Htruthy, Hin. simpl.
    split; [| split; [reflexivity | set_solver]].
    repeat constructor; discriminate.
Qed.

Lemma no_space_of_list (l : list ascii) :
  Forall (fun c => is_space c = false) l ->
  no_space (string_of_list_ascii l) = true.
Proof.
  induction 1 as [|c l Hc _ IH]; simpl; [reflexivity |].
  now rewrite Hc, IH.
Qed.

Lemma truthy_of_list (l : list ascii) :
  l <> [] -> truthy (string_of_list_ascii l) = true.
Proof. destruct l; [contradiction | reflexivity]. Qed.

Lemma split_ws_aux_clean s :
  forall cur, Forall (fun c => is_space c = false) cur ->
    Forall (fun t => clean_token t = true) (split_ws_aux s cur).
Proof.
  assert (Hflush : forall cur rest,
            Forall (fun c => is_space c = false) cur ->
            Forall (fun t => clean_token t = true) rest ->
            Forall (fun t => clean_token t = true)
              match cur with
              | [] => rest
              | _ => string_of_list_ascii (rev cur) :: rest
              end).
  { intros cur rest Hcur Hrest. destruct cur as [|c cur]; [exact Hrest |].
    constructor; [| exact Hrest].
    unfold clean_token. apply andb_true_intro. split.
    - apply truthy_of_list. simpl. now destruct (rev cur).
    - apply no_space_of_list. apply Forall_rev. exact Hcur. }
  induction s as [|c s IH]; intros cur Hcur; simpl.
  - apply Hflush; [exact Hcur | constructor].
  - destruct (is_space c) eqn:Hc.
    + apply Hflush; [exact Hcur |]. apply IH. constructor.
    + apply IH. constructor; assumption.
Qed.

Lemma split_ws_clean s : Forall (fun t => clean_token t = true) (split_ws s).
Proof. apply split_ws_aux_clean. constructor. Qed.

Lemma string_of_snoc (l : list ascii) (c : ascii) (s : string) :
  string_of_list_ascii (l ++ [c]) +:+ s
  = string_of_list_ascii l +:+ String c s.
Proof. induction l as [|a l IH]; simpl; [reflexivity | now rewrite IH]. Qed.

Lemma clean_of_run (cur : list ascii) :
  cur <> [] -> Forall (fun c => is_space c = false) cur ->
  clean_token (string_of_list_ascii (rev cur)) = true.
Proof.
  intros Hne Hcur. unfold clean_token. apply andb_true_intro. split.
  - apply truthy_of_list. destruct cur as [|c cur]; [contradiction |].
    simpl. now destruct (rev cur).
  - apply no_space_of_list. apply Forall_rev. exact Hcur.
Qed.

Lemma split_ws_aux_tokens (s : string) :
  forall cur, Forall (fun c => is_space c = false) cur ->
    tokens_of (string_of_list_ascii (rev cur) +:+ s) (split_ws_aux s cur).
Proof.
  induction s as [|c s IH]; intros cur Hcur.
  - simpl. destruct cur as [|a cur]; [constructor |].
    apply tokens_word; [now apply clean_of_run | reflexivity | constructor].
  - simpl split_ws_aux. destruct (is_space c) eqn:Hc.
    + assert (Hrest : tokens_of (String c s) (split_ws_aux s [])).
      { apply tokens_space; [exact Hc |]. apply (IH []). constructor. }
      destruct cur as [|a cur]; [exact Hrest |].
      apply tokens_word; [now apply clean_of_run | exact Hc | exact Hrest].
    + rewrite <- string_of_snoc.
      change (rev cur ++ [c]) with (rev (c :: cur)).
      apply IH. constructor; assumption.
Qed.

Lemma split_ws_tokens (s : string) : tokens_of s (split_ws s).
Proof. apply (split_ws_aux_tokens s []). constructor. Qed.

Lemma word_split_unique (t : string) :
  forall t' s s',
    no_space t = true -> no_space t' = true ->
    token_break s = true -> token_break s' = true ->
    t +:+ s = t' +:+ s' -> t = t' /\ s = s'.
Proof.
  induction t as [|c t IH]; intros t' s s' Ht Ht' Hs Hs' Heq.
  - destruct t' as [|c' t']; [now split |].
    simpl in Heq. subst s. simpl in *.
    apply andb_prop in Ht' as [Hc' _]. rewrite Hs in Hc'. discriminate.
  - destruct t' as [|c' t'].
    + simpl in Heq. subst s'. simpl in *.
      apply andb_prop in Ht as [Hc _]. rewrite Hs' in Hc. discriminate.
    + simpl in Heq. injection Heq as <- Heq. simpl in *.
      apply andb_prop in Ht as [_ Ht]. apply andb_prop in Ht' as [_ Ht'].
      destruct (IH t' s s' Ht Ht' Hs Hs' Heq) as [-> ->]. now split.
Qed.

Lemma tokens_of_unique (s : string) (ts : list string) :
  tokens_of s ts -> forall ts', tokens_of s ts' -> ts' = ts.
Proof.
  induction 1 as [|c s ts Hc _ IH|t s ts Ht Hs _ IH]; intros ts' H'.
  - inversion H' as [| |t' s' ts0 Ht' _ _ Heq]; [reflexivity |].
    destruct t'; [discriminate Ht' | discriminate Heq].
  - inversion H' as [|c' s' ts0 _ Hrest|t' s' ts0 Ht' _ _ Heq]; subst.
    + now apply IH.
    + destruct t' as [|c' t']; [discriminate Ht' |].
      simpl in Heq. injection Heq as -> _.
      unfold clean_token in Ht'. simpl in Ht'. rewrite Hc in Ht'.
      discriminate.
  - unfold clean_token in Ht. apply andb_prop in Ht as [Hne Hns].
    remember (t +:+ s) as u eqn:Hu.
    destruct H' as [|c' s' ts0 Hc' Hrest|t' s' ts0 Ht' Hs' Hrest].
    + destruct t; [discriminate Hne | discriminate Hu].
    + destruct t as [|c t]; [discriminate Hne |].
      simpl in Hu. injection Hu as -> _.
      simpl in Hns. rewrite Hc' in Hns. discriminate.
    + unfold clean_token in Ht'. apply andb_prop in Ht' as [_ Hns'].
      destruct (word_split_unique t' t s' s Hns' Hns Hs' Hs Hu) as [-> ->].
      f_equal. now apply IH.
Qed.

(** X7. For flags and arguments that are ASCII text, the command is the
    interpreter, then the tokens of the flags, then the target, then the
    tokens of the arguments, where the tokens of a text are its maximal
    runs of characters other than white space, in order, and nothing else
    is.  The tokens are not empty and hold no white space; the target is
    passed as it is; empty flags or arguments contribute nothing. *)
Theorem cmd_parts_shape req target :
  ascii_text (flags req) = true -> ascii_text (args req) = true ->
  exists fl ar,
    cmd_parts req target = ahk_exe req :: fl ++ target :: ar
    /\ tokens_of (flags req) fl
    /\ tokens_of (args req) ar
    /\ (forall fl', tokens_of (flags req) fl' -> fl' = fl)
    /\ (forall ar', tokens_of (args req) ar' -> ar' = ar)
    /\ Forall (fun t => clean_token t = true) fl
    /\ Forall (fun t => clean_token t = true) ar
    /\ (flags req = EmptyString -> fl = [])
    /\ (args req = EmptyString -> ar = [])
    /\ hd EmptyString (cmd_parts req target) = ahk_exe req
    /\ length (tl (cmd_parts req target)) = S (length fl + length ar).
Proof.
  intros _ _.
  assert (Htok : forall s,
            tokens_of s (if truthy s then split_ws s else [])).
  { intros s. destruct s; [constructor | apply split_ws_tokens]. }
  exists (if truthy (flags req) then split_ws (flags req) else []),
         (if truthy (args req) then split_ws (args req) else []).
  split; [reflexivity |].
  split; [apply Htok |]. split; [apply Htok |].
  split; [apply tokens_of_unique, Htok |].
  split; [apply tokens_of_unique, Htok |].
  split; [destruct (truthy (flags req)); [apply split_ws_clean | constructor] |].
  split; [destruct (truthy (args req)); [apply split_ws_clean | constructor] |].
  split; [now intros -> |]. split; [now intros -> |].
  split; [reflexivity |].
  unfold cmd_parts. simpl. rewrite length_app. simpl. lia.
Qed.

Lemma step_without_stop w ev :
  is_stop_call ev = false -> timers w = [] ->
  timers (fst (step dirname w ev)) = []
  /\ Forall (fun e => is_termination e = false) (snd (step dirname w ev)).
Proof.
  intros Hev Hts. unfold step. destruct ev; try discriminate; simpl.
  - destruct (live w) eqn:Hl.
    + rewrite run_live by assumption. split; [assumption | constructor].
    + rewrite run_not_live by assumption. simpl. split; [assumption |].
      destruct (unsaved_text req), o; repeat constructor.
  - unfold_m. destruct (procs w !! p) as [[]|]; simpl;
      (split; [assumption | constructor]).
  - unfold_m. destruct (procs w !! p) as [[]|]; simpl;
      (split; [assumption | constructor]).
  - unfold_m. destruct (procs w !! p) as [[]|]; simpl;
      try (split; [assumption | constructor]).
    match goal with
    | |- context [_on_finished exit_code exit_status rm_ok ?x] =>
        pose proof (on_finished_world x exit_code exit_status rm_ok) as Hw;
        pose proof (on_finished_out x exit_code exit_status rm_ok) as Ho;
        destruct (_on_finished exit_code exit_status rm_ok x) as [[u w1] o1]
    end.
    unfold world_of in Hw. simpl in *. subst w1. simpl. rewrite Hts.
    split; [| exact Ho].
    destruct (_kill_timer w); reflexivity.
  - unfold _on_stdout. unfold_m.
    destruct (_process w); simpl; (split; [assumption | repeat constructor]).
  - unfold _on_stderr. unfold_m.
    destruct (_process w); simpl; (split; [assumption | repeat constructor]).
  - destruct (dt <? 0); simpl; [split; [assumption | constructor] |].
    unfold_m. rewrite Hts. simpl. split; [assumption | constructor].
Qed.

(** X8. Over any sequence of calls and events on a fresh runner that
    holds no call of [stop], the runner never asks a process to terminate
    and never kills one, and it creates no timer. *)
Theorem no_stop_no_termination evs :
  forallb (fun ev => negb (is_stop_call ev)) evs = true ->
  Forall (fun e => is_termination e = false)
         (snd (steps dirname init evs))
  /\ timers (fst (steps dirname init evs)) = [].
Proof.
  assert (Hgen : forall w, timers w = [] ->
            forallb (fun ev => negb (is_stop_call ev)) evs = true ->
            Forall (fun e => is_termination e = false)
                   (snd (steps dirname w evs))
            /\ timers (fst (steps dirname w evs)) = []).
  { induction evs as [|ev evs IH]; intros w Hts Hevs; simpl.
    - split; [constructor | assumption].
    - simpl in Hevs. apply andb_prop in Hevs as [Hev Hevs].
      apply negb_true_iff in Hev.
      pose proof (step_without_stop w ev Hev Hts) as [Hts1 Ho1].
      destruct (step dirname w ev) as [w1 o1]. simpl in *.
      specialize (IH w1 Hts1 Hevs) as [Ho2 Hts2].
      destruct (steps dirname w1 evs) as [w2 o2]. simpl in *.
      split; [apply Forall_app; split; assumption | assumption]. }
  intros Hevs. now apply Hgen.
Qed.
End RunnerLifecycle.

Section RunnerLifecycleExamples.
Import Py Runner.

Lemma at_most_one_live_process_witness :
  let w := fst (step sample_dirname init
                  (ev_run sample_request EmptyString Started)) in
  (reachable sample_dirname w /\ procs w !! 0%nat = Some Running)
  /\ _process w = Some 0%nat.
Proof.
  intros w.
  assert (Hr : reachable sample_dirname w) by apply reach_step, reach_init.
  split; [split; [exact Hr | reflexivity] |].
  apply (at_most_one_live_process sample_dirname w 0%nat 0%nat Running Running
           Hr eq_refl ltac:(discriminate) eq_refl ltac:(discriminate)).
Defined.

Lemma graceful_exit_cancels_kill_witness :
  let w := fst (step sample_dirname init
                  (ev_run sample_request EmptyString Started)) in
  (armed w = [] /\ 0 <= 1000 < 2000)
  /\ armed (fst (steps sample_dirname w
                   [ev_stop 2000; ev_advance 1000;
                    ev_proc_exit 0 0 NormalExit true; ev_advance 5000])) = [].
Proof.
  intros w. split; [split; [reflexivity | lia] |].
  apply (graceful_exit_cancels_kill sample_dirname w 0%nat 2000 1000 5000 0
           NormalExit true eq_refl eq_refl eq_refl ltac:(lia) ltac:(lia)).
Defined.

Lemma stop_escalates_after_timeout_witness :
  let w := fst (step sample_dirname init
                  (ev_run sample_request EmptyString Started)) in
  (armed w = [] /\ 0 <= 2000 <= 2147483647)
  /\ snd (steps sample_dirname w [ev_stop 2000; ev_advance 2000])
     = [proc_terminate 0; proc_kill 0].
Proof.
  intros w. split; [split; [reflexivity | lia] |].
  apply (stop_escalates_after_timeout sample_dirname w 0%nat Running 2000 2000
           eq_refl eq_refl eq_refl ltac:(discriminate) ltac:(lia) ltac:(lia)).
Defined.

Lemma stop_after_exit_is_noop_witness :
  let w := fst (step sample_dirname init
                  (ev_run sample_request EmptyString Started)) in
  (reachable sample_dirname w /\ procs w !! 0%nat = Some Running)
  /\ live (fst (step sample_dirname w (ev_proc_exit 0 3 CrashExit true)))
     = false.
Proof.
  intros w.
  assert (Hr : reachable sample_dirname w) by apply reach_step, reach_init.
  split; [split; [exact Hr | reflexivity] |].
  apply (stop_after_exit_is_noop sample_dirname w 0%nat 3 CrashExit true 2000
           Hr eq_refl).
Defined.

Lemma temp_file_lifecycle_witness :
  let req := mkRequest "AutoHotkey64.exe" EmptyString EmptyString EmptyString
               EmptyString (Some "MsgBox 1") in
  (live init = false /\ "/tmp/ahkmini_1.ahk" <> EmptyString)
  /\ files (fst (step sample_dirname
                   (fst (step sample_dirname init
                           (ev_run req "/tmp/ahkmini_1.ahk" Started)))
                   (ev_proc_exit 0 0 NormalExit true))) = files init.
Proof.
  intros req. split; [split; [reflexivity | discriminate] |].
  apply (temp_file_lifecycle sample_dirname init req "MsgBox 1"
           "/tmp/ahkmini_1.ahk" 0 NormalExit eq_refl eq_refl
           ltac:(discriminate) (not_elem_of_empty _)).
Defined.

Lemma cmd_parts_shape_witness :
  (ascii_text (flags sample_request) = true
   /\ ascii_text (args sample_request) = true)
  /\ exists fl ar,
       ["AutoHotkey64.exe"; "/ErrorStdOut"; "C:/scripts/demo.ahk"]
       = "AutoHotkey64.exe" :: fl ++ "C:/scripts/demo.ahk" :: ar
       /\ tokens_of "/ErrorStdOut" fl
       /\ tokens_of EmptyString ar.
Proof.
  split; [split; reflexivity |].
  destruct (cmd_parts_shape sample_request "C:/scripts/demo.ahk"
              eq_refl eq_refl)
    as (fl & ar & Hcmd & Hfl & Har & _).
  exists fl, ar. split; [exact Hcmd | split; [exact Hfl | exact Har]].
Defined.

Lemma no_stop_no_termination_witness :
  Forall (fun e => is_termination e = false)
    (snd (steps sample_dirname init
            [ev_run sample_request EmptyString Started; ev_advance 60000;
             ev_proc_exit 0 1 NormalExit true])).
Proof.
  apply (no_stop_no_termination sample_dirname
           [ev_run sample_request EmptyString Started; ev_advance 60000;
            ev_proc_exit 0 1 NormalExit true] eq_refl).
Defined.
End RunnerLifecycleExamples.

(* ===================================================================== *)
(** ** The hotkey manager: unregistering, dispatch, the registered table *)
(* ===================================================================== *)

Section HotkeyTable.
Import Py Hotkeys.
Context {OS : Type}.
Variable RegisterHotKey : OS -> Z -> Z -> Z -> Z -> bool * OS.
Variable UnregisterHotKey : OS -> Z -> Z -> OS.
Variable str_upper : string -> string.
Variable str_ord : string -> option Z.

Abbreviation hstate := (Hotkeys.State OS).
Abbreviation hloop :=
  (Hotkeys.register_loop OS RegisterHotKey str_upper str_ord).
Abbreviation hreg :=
  (Hotkeys.register_all OS RegisterHotKey str_upper str_ord).
Abbreviation hunreg := (Hotkeys.unregister_all OS UnregisterHotKey).
Abbreviation hattempts :=
  (Hotkeys.attempts OS RegisterHotKey str_upper str_ord).
Abbreviation hwf := (Hotkeys.well_formed str_upper str_ord).
Abbreviation hupper := (Hotkeys.upper_bindings str_upper).

(** X9. On Windows [unregister_all] leaves the table of registered keys
    empty and no interceptor held; if at most one interceptor was installed
    and the manager held it, none is installed afterwards.  Calling it a
    second time changes nothing, and on a manager that never registered
    anything it is a no-op; off Windows it never changes anything. *)
Theorem unregister_all_clears (w : bool) (st : hstate) :
  let st' := hunreg w st in
  (w = true ->
   _registered st' = [] /\ _filter st' = None
   /\ (filter_inv st -> installed st' = []))
  /\ hunreg w st' = st'
  /\ (forall o app, hunreg w (init o app) = init o app)
  /\ hunreg false st = st.
Proof.
  intros st'. split; [| split; [| split; [| reflexivity]]].
  - intros ->. subst st'. unfold unregister_all. simpl.
    destruct (_filter st) as [f|] eqn:Hf; simpl; repeat split.
    + intros [Hnil | (f' & Hf' & Hone)]; unfold installed in *; simpl.
      * destruct (app_filters st); simpl in *; [now subst | reflexivity].
      * destruct (app_filters st); simpl in *; [| reflexivity].
        subst. rewrite Hf in Hf'. injection Hf' as ->.
        simpl. now rewrite Nat.eqb_refl.
    + intros [Hnil | (f' & Hf' & _)]; [exact Hnil | congruence].
  - subst st'. destruct w; [| reflexivity].
    unfold unregister_all. simpl.
    destruct (_filter st); reflexivity.
  - intros o app. destruct w; reflexivity.
Qed.

Lemma HotkeyID_of_int_spec (n : Z) (h : HotkeyID) :
  HotkeyID_of_int n = Some h <-> n = int_of_hid h.
Proof.
  unfold HotkeyID_of_int. split.
  - destruct (n =? 1) eqn:E1; [intros [= <-]; now apply Z.eqb_eq |].
    destruct (n =? 2) eqn:E2; [intros [= <-]; now apply Z.eqb_eq |].
    destruct (n =? 3) eqn:E3; [intros [= <-]; now apply Z.eqb_eq |].
    destruct (n =? 4) eqn:E4; [intros [= <-]; now apply Z.eqb_eq |].
    discriminate.
  - intros ->. now destruct h.
Qed.

Lemma dispatch_unknown (n : Z) (st : hstate) :
  n < 1 \/ 4 < n -> _dispatch OS n st = st.
Proof.
  intros Hn. unfold _dispatch.
  destruct (HotkeyID_of_int n) as [h|] eqn:E; [| reflexivity].
  apply HotkeyID_of_int_spec in E. destruct h; simpl in E; lia.
Qed.

(** X10. [_dispatch] turns the number of a hotkey id back into the id and
    emits it: dispatching [int(h)] appends [h] to the emissions, every
    number from 1 to 4 is the number of an id, and any other number is
    ignored (nothing changes).  No dispatch touches the registered keys,
    the OS or the installed interceptor. *)
Theorem dispatch_round_trip (n : Z) (st : hstate) :
  (forall h, triggered (_dispatch OS (int_of_hid h) st) = triggered st ++ [h])
  /\ (1 <= n <= 4 ->
      exists h, int_of_hid h = n
                /\ triggered (_dispatch OS n st) = triggered st ++ [h])
  /\ (n < 1 \/ 4 < n -> _dispatch OS n st = st)
  /\ _registered (_dispatch OS n st) = _registered st
  /\ os (_dispatch OS n st) = os st
  /\ installed (_dispatch OS n st) = installed st.
Proof.
  split; [| split; [| split]].
  - intros h. unfold _dispatch.
    now rewrite (proj2 (HotkeyID_of_int_spec _ h) eq_refl).
  - intros Hn.
    assert (Hcase : n = 1 \/ n = 2 \/ n = 3 \/ n = 4) by lia.
    destruct Hcase as [-> | [-> | [-> | ->]]];
      [exists CLICK | exists DRAG | exists PIXEL_LOOP | exists WIN_ACTIVATE];
      split; reflexivity.
  - apply dispatch_unknown.
  - unfold _dispatch. destruct (HotkeyID_of_int n); repeat split.
Qed.

(** X11. The native event filter consumes an event exactly when it runs on
    Windows, the event type is [windows_generic_MSG] and the message is
    [WM_HOTKEY]; it then dispatches [wParam], and otherwise leaves the
    manager unchanged.  A hotkey message with an unknown id is consumed
    without any emission.  The second component of the result is always
    zero. *)
Theorem native_filter_consumes_hotkey_messages (w : bool) (event_type : string)
    (msg wParam : Z) (st : hstate) :
  let r := nativeEventFilter OS w event_type msg wParam st in
  (fst (snd r) = true <->
   w = true /\ event_type = "windows_generic_MSG" /\ msg = WM_HOTKEY)
  /\ snd (snd r) = 0
  /\ (fst (snd r) = true -> fst r = _dispatch OS wParam st)
  /\ (fst (snd r) = false -> fst r = st)
  /\ (fst (snd r) = true -> (wParam < 1 \/ 4 < wParam) -> fst r = st).
Proof.
  intros r. subst r. unfold nativeEventFilter.
  destruct w; simpl.
  2:{ repeat split; try discriminate; try reflexivity.
      intros (H & _); discriminate. }
  destruct (String.eqb_spec event_type "windows_generic_MSG") as [-> | Hne];
    simpl.
  2:{ repeat split; try discriminate; try reflexivity.
      intros (_ & H & _); contradiction. }
  destruct (Z.eqb_spec msg WM_HOTKEY) as [-> | Hne]; simpl.
  2:{ repeat split; try discriminate; try reflexivity.
      intros (_ & _ & H); contradiction. }
  repeat split; try discriminate.
  intros _ Hw. now apply dispatch_unknown.
Qed.

Lemma upper_ascii_idem (c : ascii) : upper_ascii (upper_ascii c) = upper_ascii c.
Proof. destruct c as [[] [] [] [] [] [] [] []]; reflexivity. Qed.

Lemma upper_idem (s : string) : upper (upper s) = upper s.
Proof.
  induction s as [|c s IH]; simpl; [reflexivity |].
  now rewrite upper_ascii_idem, IH.
Qed.

(** X12. The case of a binding's letter does not matter to the
    registration, for letters whose upper-case form is left as it is by
    upper-casing it again (every ASCII letter is such): with every letter
    put in upper case the loop leaves the same manager and OS, fails on the
    same inputs, and each id's attempt has the same outcome. *)
Theorem register_ignores_letter_case (bindings : list (HotkeyID * string)) :
  (forall b, In b bindings ->
             str_upper (str_upper (snd b)) = str_upper (snd b)) ->
  forall (st : hstate) (e1 e2 : list string),
    let r := hloop bindings st e1 in
    let r' := hloop (hupper bindings) st e2 in
    fst r' = fst r
    /\ (snd r = None <-> snd r' = None)
    /\ snd (hattempts (hupper bindings) (os st))
       = snd (hattempts bindings (os st))
    /\ map (fun e => (fst (fst e), snd e))
           (fst (hattempts (hupper bindings) (os st)))
       = map (fun e => (fst (fst e), snd e))
           (fst (hattempts bindings (os st))).
Proof.
  induction bindings as [|[hid letter] rest IH]; intros Hstable st e1 e2;
    simpl.
  - repeat split; intros; discriminate.
  - pose proof (Hstable (hid, letter) (or_introl eq_refl)) as Hl.
    simpl in Hl. rewrite Hl.
    assert (Hrest : forall b, In b rest ->
                      str_upper (str_upper (snd b)) = str_upper (snd b))
      by (intros b Hb; apply Hstable; now right).
    specialize (IH Hrest).
    destruct (str_ord (str_upper letter)) as [vk|]; simpl; [| repeat split].
    change (Z.lor (Z.lor MOD_CONTROL MOD_SHIFT) MOD_NOREPEAT) with 16390.
    destruct (RegisterHotKey (os st) 0 (int_of_hid hid) 16390 vk)
      as [[] o'] eqn:Hreg.
    + specialize (IH (mkState OS (dict_set (_registered st) (int_of_hid hid) vk)
                        (_filter st) o' (app_filters st) (next_obj st)
                        (triggered st)) e1 e2).
      simpl in IH. destruct IH as (H1 & H2 & H3 & H4).
      destruct (hattempts (hupper rest) o') as [l1 o1].
      destruct (hattempts rest o') as [l2 o2]. simpl in *.
      repeat split; try assumption; try apply H2. now rewrite H4.
    + specialize (IH (mkState OS (_registered st) (_filter st) o'
                        (app_filters st) (next_obj st) (triggered st))
                    (e1 ++ [error_message hid letter])
                    (e2 ++ [error_message hid (str_upper letter)])).
      simpl in IH. destruct IH as (H1 & H2 & H3 & H4).
      destruct (hattempts (hupper rest) o') as [l1 o1].
      destruct (hattempts rest o') as [l2 o2]. simpl in *.
      repeat split; try assumption; try apply H2. now rewrite H4.
Qed.

Lemma dict_get_set_eq (d : list (Z * Z)) (k v : Z) :
  dict_get (dict_set d k v) k = Some v.
Proof.
  induction d as [|[k' v'] d IH]; simpl.
  - now rewrite Z.eqb_refl.
  - destruct (k' =? k) eqn:E; simpl; rewrite E; [reflexivity | exact IH].
Qed.

Lemma dict_get_set_ne (d : list (Z * Z)) (k k0 v : Z) :
  k <> k0 -> dict_get (dict_set d k v) k0 = dict_get d k0.
Proof.
  intros Hne. induction d as [|[k' v'] d IH]; simpl.
  - replace (k =? k0) with false by (symmetry; now apply Z.eqb_neq).
    reflexivity.
  - destruct (k' =? k) eqn:E; simpl.
    + apply Z.eqb_eq in E. subst k'.
      replace (k =? k0) with false by (symmetry; now apply Z.eqb_neq).
      reflexivity.
    + now rewrite IH.
Qed.

Lemma dict_set_keys (d : list (Z * Z)) (k v : Z) :
  map fst (dict_set d k v)
  = if existsb (fun e => fst e =? k) d then map fst d else map fst d ++ [k].
Proof.
  induction d as [|[k' v'] d IH]; simpl; [reflexivity |].
  destruct (k' =? k) eqn:E; simpl; [reflexivity |].
  rewrite IH. now destruct (existsb _ d).
Qed.

Lemma dict_set_NoDup (d : list (Z * Z)) (k v : Z) :
  NoDup (map fst d) -> NoDup (map fst (dict_set d k v)).
Proof.
  intros Hd. rewrite dict_set_keys.
  destruct (existsb (fun e => fst e =? k) d) eqn:E; [exact Hd |].
  apply NoDup_app. split; [exact Hd |]. split; [| apply NoDup_singleton].
  intros x Hx Hk. apply list_elem_of_singleton in Hk. subst x.
  apply list_elem_of_In, in_map_iff in Hx as ([k' v'] & Hk' & Hin).
  simpl in Hk'. subst k'.
  assert (existsb (fun e => fst e =? k) d = true); [| congruence].
  apply existsb_exists. exists (k, v'). split; [exact Hin |].
  simpl. apply Z.eqb_refl.
Qed.

Lemma int_of_hid_inj (h1 h2 : HotkeyID) :
  int_of_hid h1 = int_of_hid h2 -> h1 = h2.
Proof. destruct h1, h2; simpl; intros H; congruence || lia. Qed.

Lemma register_loop_untouched (bindings : list (HotkeyID * string)) (k : Z) :
  (forall b, In b bindings -> int_of_hid (fst b) <> k) ->
  forall (st : hstate) (errors : list string),
    dict_get (_registered (fst (hloop bindings st errors))) k
    = dict_get (_registered st) k.
Proof.
  induction bindings as [|[hid letter] rest IH]; intros Hk st errors; simpl;
    [reflexivity |].
  destruct (str_ord (str_upper letter)) as [vk|]; [| reflexivity].
  assert (Hrest : forall b, In b rest -> int_of_hid (fst b) <> k)
    by (intros b Hb; apply Hk; now right).
  assert (Hhid : int_of_hid hid <> k) by (apply (Hk (hid, letter)); now left).
  destruct (RegisterHotKey _ _ _ _ _) as [[] o']; rewrite IH by assumption;
    simpl; [now apply dict_get_set_ne | reflexivity].
Qed.

Lemma register_loop_NoDup (bindings : list (HotkeyID * string)) :
  forall (st : hstate) (errors : list string),
    NoDup (map fst (_registered st)) ->
    NoDup (map fst (_registered (fst (hloop bindings st errors)))).
Proof.
  induction bindings as [|[hid letter] rest IH]; intros st errors Hd; simpl;
    [exact Hd |].
  destruct (str_ord (str_upper letter)) as [vk|]; [| exact Hd].
  destruct (RegisterHotKey _ _ _ _ _) as [[] o']; apply IH; simpl;
    [now apply dict_set_NoDup | exact Hd].
Qed.

(** X13. After [register_all] on Windows, for bindings with distinct ids in
    which the upper-case form of every letter is one character, the table
    maps the number of every id whose registration succeeded to the code
    point of its upper-cased letter, keeps what it held for an id whose
    registration was refused and for every number that is no id of the
    bindings, and has no duplicate keys if it had none. *)
Theorem registered_records_successes (bindings : list (HotkeyID * string))
    (st : hstate) :
  hwf bindings -> NoDup (map fst bindings) ->
  let st' := fst (hreg true bindings st) in
  (forall hid letter ok,
      In (hid, letter, ok) (fst (hattempts bindings (os st))) ->
      dict_get (_registered st') (int_of_hid hid)
      = if ok then str_ord (str_upper letter)
        else dict_get (_registered st) (int_of_hid hid))
  /\ (forall k, (forall b, In b bindings -> int_of_hid (fst b) <> k) ->
        dict_get (_registered st') k = dict_get (_registered st) k)
  /\ (NoDup (map fst (_registered st)) -> NoDup (map fst (_registered st'))).
Proof.
  intros Hwf Hnd st'.
  assert (Hst' : _registered st' = _registered (fst (hloop bindings st []))).
  { subst st'. unfold register_all. simpl.
    destruct (hloop bindings st []) as [s1 [errs|]]; simpl; [| reflexivity].
    unfold install_filter. now destruct (_filter s1). }
  rewrite Hst'. clear Hst' st'.
  split; [| split].
  - generalize (@nil string) as errors. revert st Hwf Hnd.
    induction bindings as [|[h l] rest IH]; intros st Hwf Hnd errors hid letter ok Hin;
      simpl in *; [contradiction |].
    inversion Hwf as [|? ? Hlen Hrest]; subst. simpl in Hlen.
    inversion Hnd as [|? ? Hnotin Hnd']; subst.
    destruct (str_ord (str_upper l)) as [vk|] eqn:Hvk; [| contradiction].
    change (Z.lor (Z.lor MOD_CONTROL MOD_SHIFT) MOD_NOREPEAT) with 16390.
    destruct (RegisterHotKey (os st) 0 (int_of_hid h) 16390 vk)
      as [ok0 o'] eqn:Hreg.
    destruct (hattempts rest o') as [log o''] eqn:Hatt. simpl in Hin.
    assert (Hrest_ne : forall b, In b rest -> int_of_hid (fst b) <> int_of_hid h).
    { intros b Hb Heq. apply int_of_hid_inj in Heq. apply Hnotin.
      apply list_elem_of_In, in_map_iff. exists b. split; assumption. }
    destruct Hin as [Heq | Hin].
    + injection Heq as <- <- <-.
      destruct ok0; rewrite register_loop_untouched by assumption; simpl.
      * rewrite dict_get_set_eq. now rewrite Hvk.
      * reflexivity.
    + assert (Hne : int_of_hid h <> int_of_hid hid).
      { intros Heq. apply int_of_hid_inj in Heq. subst hid.
        apply Hnotin.
        assert (Hmap : map fst log = rest).
        { destruct (register_loop_log RegisterHotKey str_upper str_ord rest
                      (mkState OS (_registered st) (_filter st) o'
                         (app_filters st) (next_obj st) (triggered st))
                      [] Hrest) as (_ & _ & _ & Hall & _).
          simpl in Hall. now rewrite Hatt in Hall. }
        apply list_elem_of_In, in_map_iff. exists (h, letter). split; [reflexivity |].
        rewrite <- Hmap. apply in_map_iff. exists (h, letter, ok). now split. }
      destruct ok0;
        match goal with
        | |- context [Hotkeys.register_loop _ _ _ _ rest ?s ?e] =>
            assert (Hin' : In (hid, letter, ok) (fst (hattempts rest (os s))))
              by (simpl; rewrite Hatt; exact Hin);
            rewrite (IH s Hrest Hnd' e hid letter ok Hin')
        end.
      * destruct ok; [reflexivity |]. simpl. now apply dict_get_set_ne.
      * reflexivity.
  - intros k Hk. now apply register_loop_untouched.
  - apply register_loop_NoDup.
Qed.
End HotkeyTable.

Section HotkeyTableWitness.
Import Py Hotkeys.

Lemma register_ignores_letter_case_witness :
  (forall b, In b [(CLICK, "k"); (DRAG, "D")] ->
             Py.upper (Py.upper (snd b)) = Py.upper (snd b))
  /\ fst (register_loop _ table_register Py.upper Py.ord
            [(CLICK, "K"); (DRAG, "D")] (init [(9, 75)] (Some [])) [])
     = fst (register_loop _ table_register Py.upper Py.ord
              [(CLICK, "k"); (DRAG, "D")] (init [(9, 75)] (Some [])) []).
Proof.
  assert (Hstable : forall b, In b [(CLICK, "k"); (DRAG, "D")] ->
                      Py.upper (Py.upper (snd b)) = Py.upper (snd b)).
  { intros b [<- | [<- | []]]; reflexivity. }
  split; [exact Hstable |].
  exact (proj1 (register_ignores_letter_case table_register Py.upper Py.ord
                  [(CLICK, "k"); (DRAG, "D")] Hstable
                  (init [(9, 75)] (Some [])) [] [])).
Defined.

Lemma registered_records_successes_witness :
  (well_formed Py.upper Py.ord [(CLICK, "k"); (DRAG, "d")]
   /\ NoDup (map fst [(CLICK, "k"); (DRAG, "d")]))
  /\ dict_get
       (_registered
          (fst (register_all _ table_register Py.upper Py.ord true
                  [(CLICK, "k"); (DRAG, "d")] (init [(9, 75)] (Some [])))))
       2 = Some 68.
Proof.
  assert (Hwf : well_formed Py.upper Py.ord [(CLICK, "k"); (DRAG, "d")]).
  { repeat (constructor; [discriminate |]). constructor. }
  assert (Hnd : NoDup (map fst [(CLICK, "k"); (DRAG, "d")])).
  { simpl. apply NoDup_cons. split; [| apply NoDup_singleton].
    intros H. apply list_elem_of_singleton in H. discriminate. }
  split; [split; assumption |].
  destruct (registered_records_successes table_register Py.upper Py.ord
              [(CLICK, "k"); (DRAG, "d")] (init [(9, 75)] (Some [])) Hwf Hnd)
    as (Hrec & _).
  apply (Hrec DRAG "d" true). simpl. right. left. reflexivity.
Defined.
End HotkeyTableWitness.

(* ===================================================================== *)
(** ** Snapshots and the inspector *)
(* ===================================================================== *)

Section SnapshotFacts.
Import Py Text WinInfo.

Lemma land_255_range (x : Z) : 0 <= Z.land x 255 <= 255.
Proof.
  assert (H : Z.land x 255 = x mod 256)
    by (change 255 with (Z.ones 8); now rewrite Z.land_ones by lia).
  rewrite H. pose proof (Z.mod_pos_bound x 256 ltac:(lia)). lia.
Qed.

Lemma get_pixel_color_range (os : Win32) (sx sy : Z) :
  byte_range (_get_pixel_color os sx sy).
Proof.
  unfold _get_pixel_color, byte_range.
  destruct (GetDC os 0 =? 0); [simpl; lia |].
  destruct (GetPixel os (GetDC os 0) sx sy =? 4294967295); [simpl; lia |].
  simpl. repeat split; apply land_255_range.
Qed.

Lemma hex_rgb_length (c : PixelColor) :
  byte_range c -> String.length (hex_rgb c) = 8%nat.
Proof.
  intros (Hr & Hg & Hb). unfold hex_rgb.
  now rewrite !format_02X_byte by assumption.
Qed.

Lemma capture_color_range (is_windows : bool) (os : Win32)
    (follow_mouse : bool) (last_hwnd : Z) :
  byte_range (color (capture_snapshot is_windows os follow_mouse last_hwnd)).
Proof.
  unfold capture_snapshot. destruct is_windows.
  - unfold capture_snapshot_win.
    destruct (_get_cursor_pos os) as [sx sy].
    destruct (_screen_to_window os _ sx sy) as [wx wy].
    destruct (_screen_to_client os _ sx sy) as [cx cy].
    simpl. apply get_pixel_color_range.
  - simpl. unfold byte_range. simpl. lia.
Qed.

Lemma capture_hwnd_locked (os : Win32) (last_hwnd : Z) :
  last_hwnd <> 0 ->
  hwnd (window (capture_snapshot true os false last_hwnd)) = last_hwnd.
Proof.
  intros Hl. unfold capture_snapshot, capture_snapshot_win.
  destruct (_get_cursor_pos os) as [sx sy].
  destruct (_screen_to_window os _ sx sy) as [wx wy].
  destruct (_screen_to_client os _ sx sy) as [cx cy].
  simpl.
  now replace (last_hwnd =? 0) with false by (symmetry; now apply Z.eqb_neq).
Qed.

(** X14. Whatever the operating system answers, on either platform, the
    colour of a captured snapshot has its three channels within 0..255, so
    its hexadecimal view is ["0x"] and six upper-case digits, eight
    characters. *)
Theorem captured_color_is_well_formed (is_windows : bool) (os : Win32)
    (follow_mouse : bool) (last_hwnd : Z) :
  let c := color (capture_snapshot is_windows os follow_mouse last_hwnd) in
  (0 <= r c <= 255 /\ 0 <= g c <= 255 /\ 0 <= b c <= 255)
  /\ hex_rgb c = "0x" +:+ two_hex (r c) +:+ two_hex (g c) +:+ two_hex (b c)
  /\ String.length (hex_rgb c) = 8%nat.
Proof.
  intros c.
  assert (Hc : byte_range c) by apply capture_color_range.
  split; [exact Hc |]. split; [| now apply hex_rgb_length].
  destruct Hc as (Hr & Hg & Hb). unfold hex_rgb.
  now rewrite !format_02X_byte by assumption.
Qed.

(** X15. When a device context is available and [GetPixel] returns the
    colour reference [r + 256 g + 65536 b] of three bytes (red in the low
    byte), [_get_pixel_color] is exactly the colour [(r, g, b)]. *)
Theorem pixel_color_decodes_colorref (os : Win32) (sx sy rr gg bb : Z) :
  GetDC os 0 <> 0 ->
  0 <= rr <= 255 -> 0 <= gg <= 255 -> 0 <= bb <= 255 ->
  GetPixel os (GetDC os 0) sx sy = rr + 256 * gg + 65536 * bb ->
  _get_pixel_color os sx sy = mkPixelColor rr gg bb.
Proof.
  intros Hdc Hr Hg Hb Hpx. unfold _get_pixel_color.
  replace (GetDC os 0 =? 0) with false by (symmetry; now apply Z.eqb_neq).
  rewrite Hpx.
  replace (rr + 256 * gg + 65536 * bb =? 4294967295) with false
    by (symmetry; apply Z.eqb_neq; lia).
  assert (Hland : forall x, Z.land x 255 = x mod 256)
    by (intros x; change 255 with (Z.ones 8); now rewrite Z.land_ones by lia).
  rewrite !Hland, !Z.shiftr_div_pow2 by lia.
  change (2 ^ 8) with 256. change (2 ^ 16) with 65536.
  f_equal.
  - symmetry. apply Z.mod_unique_pos with (q := gg + 256 * bb); lia.
  - replace ((rr + 256 * gg + 65536 * bb) / 256) with (gg + 256 * bb)
      by (apply Z.div_unique_pos with (r := rr); lia).
    symmetry. apply Z.mod_unique_pos with (q := bb); lia.
  - replace ((rr + 256 * gg + 65536 * bb) / 65536) with bb
      by (apply Z.div_unique_pos with (r := rr + 256 * gg); lia).
    symmetry. apply Z.mod_unique_pos with (q := 0); lia.
Qed.

(** X16. When no device context can be had, or [GetPixel] answers
    [0xFFFFFFFF], [_get_pixel_color] is black: it reads [0x000000] and
    [0, 0, 0]. *)
Theorem pixel_color_failure_is_black (os : Win32) (sx sy : Z) :
  GetDC os 0 = 0 \/ GetPixel os (GetDC os 0) sx sy = 4294967295 ->
  _get_pixel_color os sx sy = mkPixelColor 0 0 0
  /\ hex_rgb (_get_pixel_color os sx sy) = "0x000000"
  /\ decimal_str (_get_pixel_color os sx sy) = "0, 0, 0".
Proof.
  intros H.
  assert (Hc : _get_pixel_color os sx sy = mkPixelColor 0 0 0).
  { unfold _get_pixel_color. destruct H as [H | H].
    - now rewrite H.
    - destruct (GetDC os 0 =? 0); [reflexivity |]. now rewrite H. }
  rewrite Hc. repeat split.
Qed.

(** X17. A snapshot captured on Windows is about one window and one cursor
    position: title, class and process id are those of the reported handle,
    the process name is empty when the executable path is and its base name
    otherwise, the screen position is the cursor's, the window and client
    positions are that position relative to the reported window, the
    control is either absent or a non-null child other than the window
    itself with its own class name, and with follow-mouse off and a
    non-zero last handle the reported handle is that handle. *)
Theorem snapshot_describes_one_window (os : Win32) (follow_mouse : bool)
    (last_hwnd : Z) :
  let s := capture_snapshot true os follow_mouse last_hwnd in
  let h := hwnd (window s) in
  let '(rl, rt, _, _) := GetWindowRect os h in
  title (window s) = GetWindowTextW os h
  /\ class_name (window s) = GetClassNameW os h
  /\ pid (window s) = GetWindowThreadProcessId os h
  /\ (exe_path (window s) = EmptyString -> process_name (window s) = EmptyString)
  /\ (exe_path (window s) <> EmptyString ->
      process_name (window s) = ntpath_basename os (exe_path (window s)))
  /\ (screen_x (coords s), screen_y (coords s)) = GetCursorPos os
  /\ window_x (coords s) = screen_x (coords s) - rl
  /\ window_y (coords s) = screen_y (coords s) - rt
  /\ (client_x (coords s), client_y (coords s))
     = ScreenToClient os h (screen_x (coords s), screen_y (coords s))
  /\ (control s = ControlInfo_default
      \/ (ctl_hwnd (control s) <> 0 /\ ctl_hwnd (control s) <> h
          /\ class_nn (control s) = GetClassNameW os (ctl_hwnd (control s))))
  /\ (follow_mouse = false -> last_hwnd <> 0 -> h = last_hwnd).
Proof.
  intros s h. subst h s.
  unfold capture_snapshot, capture_snapshot_win, _get_cursor_pos.
  destruct (GetCursorPos os) as [sx sy] eqn:Hcur.
  set (h := if follow_mouse then _ else _).
  unfold _screen_to_window, _screen_to_client.
  destruct (GetWindowRect os h) as [[[rl rt] rr] rb] eqn:Hrect.
  destruct (ScreenToClient os h (sx, sy)) as [cx cy] eqn:Hcl.
  cbn [window coords control hwnd title class_name pid exe_path process_name
       screen_x screen_y window_x window_y client_x client_y].
  rewrite Hrect.
  repeat split.
  - unfold _get_process_name. now intros ->.
  - unfold _get_process_name. destruct (_get_exe_path os _); [contradiction | reflexivity].
  - now rewrite Hcl.
  - unfold _get_control_at. rewrite Hcl.
    destruct (Z.eqb_spec (RealChildWindowFromPoint os h (cx, cy)) 0) as [E0 | N0];
      simpl; [now left |].
    destruct (Z.eqb_spec (RealChildWindowFromPoint os h (cx, cy)) h) as [Eh | Nh];
      simpl; [now left |].
    right. repeat split; assumption.
  - intros -> Hl. subst h. simpl.
    now replace (last_hwnd =? 0) with false by (symmetry; now apply Z.eqb_neq).
Qed.
End SnapshotFacts.

Section InspectorFacts.
Import Py Text WinInfo Inspector.

Lemma tick_held (w : bool) (os : Win32) (keys : Z -> Z) (st : State) :
  is_modifier_held w keys = true ->
  _tick w os keys st
  = mkState true (_follow_mouse st) (_last_hwnd st) (_snapshot st)
      (if _frozen st then display st else set_label "[FROZEN]" (display st))
      (emitted st).
Proof.
  intros H. unfold _tick. rewrite H.
  destruct st as [[] fm lh sn d em]; reflexivity.
Qed.

(** X18. A tick while Ctrl or Shift is held freezes the inspector: the
    snapshot, the last handle, the follow flag, the emissions and every
    shown text but the label are unchanged, the label reads [[FROZEN]], and a
    further such tick changes nothing at all. *)
Theorem tick_freezes_while_modifier_held (w : bool) (os : Win32)
    (keys : Z -> Z) (st : State) :
  is_modifier_held w keys = true ->
  let st' := _tick w os keys st in
  _frozen st' = true
  /\ _snapshot st' = _snapshot st
  /\ _last_hwnd st' = _last_hwnd st
  /\ _follow_mouse st' = _follow_mouse st
  /\ emitted st' = emitted st
  /\ set_label EmptyString (display st') = set_label EmptyString (display st)
  /\ (frozen_label (display st) = (if _frozen st then "[FROZEN]" else EmptyString)
      -> frozen_label (display st') = "[FROZEN]")
  /\ _tick w os keys st' = st'.
Proof.
  intros H st'. subst st'. rewrite tick_held by assumption.
  simpl. repeat split.
  - now destruct (_frozen st).
  - destruct (_frozen st); simpl; [now intros -> | reflexivity].
  - now rewrite tick_held.
Qed.

Lemma step_coherent (w : bool) (st : State) (ev : event) :
  coherent st -> coherent (step w st ev).
Proof.
  intros (Hl & Hs & Hb & Hd). destruct ev as [os keys | checked]; simpl.
  - destruct (is_modifier_held w keys) eqn:Hk.
    + rewrite tick_held by assumption. unfold coherent. simpl.
      destruct (_frozen st); simpl; repeat split; auto; apply Hb.
    + unfold _tick. rewrite Hk. unfold coherent. simpl.
      rewrite last_last.
      split; [destruct (_frozen st); simpl; [reflexivity | now rewrite Hl] |].
      split; [reflexivity |].
      split; [apply capture_color_range |]. reflexivity.
  - unfold coherent, _on_follow_toggled. simpl. repeat split; assumption || apply Hb.
Qed.

Lemma run_coherent (w : bool) (evs : list event) :
  forall st, coherent st -> coherent (run w evs st).
Proof.
  induction evs as [|ev evs IH]; intros st H; simpl; [exact H |].
  apply IH. now apply step_coherent.
Qed.

(** X19. After any sequence of ticks and follow toggles on a fresh
    inspector, the label reads [[FROZEN]] exactly when the inspector is
    frozen, the snapshot it hands out is the last one it emitted, and once
    it has emitted one the panel shows that snapshot: its colour views, its
    title, its handle (blank for zero), with a hex view of eight
    characters. *)
Theorem inspector_stays_coherent (w : bool) (evs : list event) :
  let st := run w evs init in
  frozen_label (display st) = (if _frozen st then "[FROZEN]" else EmptyString)
  /\ _snapshot st = List.last (emitted st) InspectorSnapshot_default
  /\ (emitted st <> [] ->
      f_hex (display st) = hex_rgb (color (_snapshot st))
      /\ f_rgb (display st) = decimal_str (color (_snapshot st))
      /\ f_title (display st) = title (window (_snapshot st))
      /\ f_hwnd (display st)
         = (if hwnd (window (_snapshot st)) =? 0 then EmptyString
            else hex (hwnd (window (_snapshot st))))
      /\ String.length (f_hex (display st)) = 8%nat).
Proof.
  intros st.
  assert (Hc : coherent st).
  { apply run_coherent. unfold coherent, byte_range. simpl.
    repeat split; try lia. congruence. }
  destruct Hc as (Hl & Hs & Hb & Hd).
  split; [exact Hl |]. split; [exact Hs |].
  intros Hne. specialize (Hd Hne).
  assert (Hhex : f_hex (display st) = hex_rgb (color (_snapshot st)))
    by (injection Hd; intros; assumption).
  split; [exact Hhex |].
  split; [injection Hd; intros; assumption |].
  split; [injection Hd; intros; assumption |].
  split; [injection Hd; intros; assumption |].
  rewrite Hhex. now apply hex_rgb_length.
Qed.

(** X20. With follow-mouse off and a non-zero last handle, over any number
    of ticks on Windows, whatever the operating system reports, the last
    handle stays the same and every snapshot emitted is about that
    window. *)
Theorem inspector_stays_on_last_window (h : Z)
    (samples : list (Win32 * (Z -> Z))) :
  forall st,
    h <> 0 -> _follow_mouse st = false -> _last_hwnd st = h ->
    let st' := run true (ticks_of samples) st in
    _last_hwnd st' = h
    /\ _follow_mouse st' = false
    /\ (forall s, In s (emitted st') ->
          In s (emitted st) \/ hwnd (window s) = h).
Proof.
  induction samples as [|[os keys] samples IH]; intros st Hh Hf Hl; simpl.
  - repeat split; auto.
  - destruct (is_modifier_held true keys) eqn:Hk.
    + rewrite tick_held by assumption.
      match goal with
      | |- context [run true _ ?s] => specialize (IH s Hh Hf Hl)
      end.
      simpl in IH. exact IH.
    + unfold _tick. rewrite Hk, Hf, Hl.
      rewrite capture_hwnd_locked by assumption.
      replace (h =? 0) with false by (symmetry; now apply Z.eqb_neq).
      simpl negb. cbv iota.
      match goal with
      | |- context [run true _ ?s] =>
          specialize (IH s Hh eq_refl eq_refl)
      end.
      simpl in IH. destruct IH as (H1 & H2 & H3).
      split; [exact H1 |]. split; [exact H2 |].
      intros s Hs. destruct (H3 s Hs) as [Hin | Hw]; [| now right].
      apply in_app_or in Hin as [Hin | [<- | []]]; [now left | right].
      now apply capture_hwnd_locked.
Qed.

(** X21. Off Windows the inspector is never frozen: after any sequence of
    ticks and toggles its snapshot is the default one, its last handle is
    zero, the label is blank, and it has emitted one default snapshot per
    tick. *)
Theorem inspector_off_windows (evs : list event) :
  let st := run false evs init in
  _frozen st = false
  /\ _snapshot st = InspectorSnapshot_default
  /\ _last_hwnd st = 0
  /\ emitted st
     = repeat InspectorSnapshot_default (length (List.filter is_tick evs))
  /\ frozen_label (display st) = EmptyString.
Proof.
  assert (Hgen : forall st,
            _frozen st = false -> _snapshot st = InspectorSnapshot_default ->
            _last_hwnd st = 0 -> frozen_label (display st) = EmptyString ->
            let st' := run false evs st in
            _frozen st' = false
            /\ _snapshot st' = InspectorSnapshot_default
            /\ _last_hwnd st' = 0
            /\ emitted st'
               = emitted st ++ repeat InspectorSnapshot_default
                                 (length (List.filter is_tick evs))
            /\ frozen_label (display st') = EmptyString).
  { induction evs as [|ev evs IH]; intros st Hf Hs Hl Hlab; simpl.
    - rewrite app_nil_r. repeat split; assumption.
    - destruct ev as [os keys | checked]; simpl.
      + unfold _tick. simpl. rewrite Hf, Hl. simpl.
        match goal with
        | |- context [run false evs ?s] =>
            specialize (IH s eq_refl eq_refl eq_refl Hlab)
        end.
        simpl in IH. destruct IH as (H1 & H2 & H3 & H4 & H5).
        repeat split; try assumption.
        rewrite H4, <- app_assoc. reflexivity.
      + apply (IH (_on_follow_toggled checked st)); assumption. }
  intros st. apply (Hgen init); reflexivity.
Qed.

(** X22. Once the inspector has a non-zero last handle it keeps one: no
    sequence of ticks and toggles sets it back to zero. *)
Theorem last_window_is_never_forgotten (w : bool) (evs : list event) :
  forall st, _last_hwnd st <> 0 -> _last_hwnd (run w evs st) <> 0.
Proof.
  induction evs as [|ev evs IH]; intros st H; simpl; [exact H |].
  apply IH. destruct ev as [os keys | checked]; simpl; [| exact H].
  unfold _tick. destruct (is_modifier_held w keys).
  - destruct (_frozen st); exact H.
  - simpl. destruct (Z.eqb_spec (hwnd (window (capture_snapshot w os
                       (_follow_mouse st) (_last_hwnd st)))) 0);
      simpl; assumption.
Qed.
End InspectorFacts.

Section InspectorWitnesses.
Import Py Text WinInfo Inspector.

Lemma pixel_color_decodes_colorref_witness :
  (GetDC sample_os 0 <> 0
   /\ GetPixel sample_os (GetDC sample_os 0) 640 480 = 255 + 256 * 132 + 65536 * 0)
  /\ _get_pixel_color sample_os 640 480 = mkPixelColor 255 132 0.
Proof.
  split; [split; [discriminate | reflexivity] |].
  apply (pixel_color_decodes_colorref sample_os 640 480 255 132 0);
    simpl; try lia; try discriminate; reflexivity.
Defined.

Lemma pixel_color_failure_is_black_witness :
  GetDC sample_os_no_dc 0 = 0
  /\ hex_rgb (_get_pixel_color sample_os_no_dc 640 480) = "0x000000".
Proof.
  split; [reflexivity |].
  apply (pixel_color_failure_is_black sample_os_no_dc 640 480
           (or_introl eq_refl)).
Defined.

Lemma tick_freezes_while_modifier_held_witness :
  is_modifier_held true ctrl_down = true
  /\ _snapshot (_tick true sample_os ctrl_down init) = _snapshot init.
Proof.
  split; [reflexivity |].
  apply (tick_freezes_while_modifier_held true sample_os ctrl_down init
           eq_refl).
Defined.

Lemma inspector_stays_on_last_window_witness :
  let st := run true [ev_tick sample_os no_keys; ev_follow false] init in
  (1000 <> 0 /\ _follow_mouse st = false /\ _last_hwnd st = 1000)
  /\ _last_hwnd (run true (ticks_of [(sample_os_no_dc, no_keys)]) st) = 1000.
Proof.
  intros st. split; [repeat split; discriminate |].
  apply (inspector_stays_on_last_window 1000 [(sample_os_no_dc, no_keys)] st
           ltac:(discriminate) eq_refl eq_refl).
Defined.

Lemma last_window_is_never_forgotten_witness :
  let st := run true [ev_tick sample_os no_keys] init in
  _last_hwnd st <> 0
  /\ _last_hwnd (run false [ev_tick sample_os no_keys; ev_follow false] st)
     <> 0.
Proof.
  intros st.
  assert (H : _last_hwnd st <> 0) by discriminate.
  split; [exact H |].
  apply (last_window_is_never_forgotten false
           [ev_tick sample_os no_keys; ev_follow false] st H).
Defined.
End InspectorWitnesses.

(* ===================================================================== *)
(** ** The code generator: lines and handles *)
(* ===================================================================== *)

Section CodegenLines.
Import Py Text Codegen.

#[local] Arguments str_int : simpl never.
#[local] Arguments hex : simpl never.

Ltac reassoc :=
  unfold nl, dq;
  repeat (progress (repeat rewrite append_assoc; simpl));
  try reflexivity.

(** X23. [gen_drag] returns one coordinate-mode statement for the mouse, a
    line break, and one [MouseClickDrag] statement that names the button in
    quotes and then the start and the end point in that order; when neither
    the mode nor the button holds a line break the text is exactly these
    two lines. *)
Theorem gen_drag_shape (x1 y1 x2 y2 : Z) (button coord_mode : string) :
  let stmt := "MouseClickDrag " +:+ quoted button +:+ ", " +:+ str_int x1
                +:+ ", " +:+ str_int y1 +:+ ", " +:+ str_int x2 +:+ ", "
                +:+ str_int y2 in
  gen_drag x1 y1 x2 y2 button coord_mode
  = coord_mode_statement "Mouse" coord_mode +:+ nl +:+ stmt
  /\ (no_nl coord_mode = true -> no_nl button = true ->
      lines (gen_drag x1 y1 x2 y2 button coord_mode)
      = [coord_mode_statement "Mouse" coord_mode; stmt]).
Proof.
  intros stmt.
  assert (Heq : gen_drag x1 y1 x2 y2 button coord_mode
                = coord_mode_statement "Mouse" coord_mode +:+ nl +:+ stmt).
  { subst stmt. unfold gen_drag, coord_mode_statement, quoted. reassoc. }
  split; [exact Heq |].
  intros Hm Hb. rewrite Heq.
  rewrite lines_cons by now apply no_nl_coord_mode_statement.
  rewrite lines_single; [reflexivity |].
  subst stmt. unfold quoted, dq.
  rewrite !no_nl_append, !no_nl_str_int, Hb. reflexivity.
Qed.

Lemma lines_join (l : list string) :
  l <> [] -> Forall (fun s => no_nl s = true) l -> lines (join nl l) = l.
Proof.
  intros Hne Hall. induction Hall as [|a l Ha Hl IH]; [contradiction |].
  destruct l as [|b l].
  - simpl. now apply lines_single.
  - change (join nl (a :: b :: l)) with (a +:+ nl +:+ join nl (b :: l)).
    rewrite lines_cons by assumption. f_equal. apply IH. discriminate.
Qed.

(** X24. When neither the coordinate mode nor the target colour holds a
    line break, the text of [gen_pixel_loop] is exactly seven lines in the
    default form and six with the search option: the coordinate-mode
    statement, [Loop {], the body, and a closing brace alone on the last
    line. *)
Theorem gen_pixel_loop_lines (x y : Z) (target_color coord_mode : string)
    (variation : Z) :
  no_nl coord_mode = true -> no_nl target_color = true ->
  lines (gen_pixel_loop x y target_color coord_mode variation false)
  = [ coord_mode_statement "Pixel" coord_mode;
      "Loop {";
      "    CurrentColor := PixelGetColor(" +:+ str_int x +:+ ", "
        +:+ str_int y +:+ ")";
      "    if (CurrentColor = " +:+ quoted target_color +:+ ")";
      "        break";
      "    Sleep 100";
      "}" ]
  /\ lines (gen_pixel_loop x y target_color coord_mode variation true)
     = [ coord_mode_statement "Pixel" coord_mode;
         "Loop {";
         "    if PixelSearch(&FoundX, &FoundY, " +:+ str_int x +:+ ", "
           +:+ str_int y +:+ ", " +:+ str_int x +:+ ", " +:+ str_int y
           +:+ ", " +:+ quoted target_color +:+ ", "
           +:+ str_int variation +:+ ")";
         "        break";
         "    Sleep 100";
         "}" ].
Proof.
  intros Hm Ht.
  assert (Hq : no_nl (quoted target_color) = true) by now apply no_nl_quoted.
  assert (Hh : no_nl (coord_mode_statement "Pixel" coord_mode) = true)
    by now apply no_nl_coord_mode_statement.
  split.
  - match goal with
    | |- lines ?g = ?l =>
        replace g with (join nl l);
        [| unfold gen_pixel_loop, coord_mode_statement, quoted, join; reassoc]
    end.
    apply lines_join; [discriminate |].
    repeat constructor; try assumption;
      rewrite ?no_nl_append, ?no_nl_str_int, ?Hq; reflexivity.
  - match goal with
    | |- lines ?g = ?l =>
        replace g with (join nl l);
        [| unfold gen_pixel_loop, coord_mode_statement, quoted, join; reassoc]
    end.
    apply lines_join; [discriminate |].
    repeat constructor; try assumption;
      rewrite ?no_nl_append, ?no_nl_str_int, ?Hq; reflexivity.
Qed.

Lemma no_dq_hex_uint (d : Hexadecimal.uint) :
  no_dq (HexadecimalString.NilEmpty.string_of_uint d) = true.
Proof. induction d; simpl; auto. Qed.

Lemma no_dq_hex (z : Z) : no_dq (hex z) = true.
Proof.
  unfold hex, hex_digits. destruct (z <? 0); simpl; apply no_dq_hex_uint.
Qed.

Lemma cut_at_quote (a : string) :
  forall b x y,
    no_dq a = true -> no_dq b = true ->
    a +:+ dq +:+ x = b +:+ dq +:+ y -> a = b.
Proof.
  induction a as [|c a IH]; intros [|c' b] x y Ha Hb H; simpl in *.
  - reflexivity.
  - unfold dq in H. simpl in H. injection H as Hc _. subst c'.
    simpl in Hb. discriminate.
  - unfold dq in H. simpl in H. injection H as Hc _. subst c.
    simpl in Ha. discriminate.
  - injection H as -> H.
    apply andb_prop in Ha as [_ Ha]. apply andb_prop in Hb as [_ Hb].
    f_equal. eapply IH; eassumption.
Qed.

Lemma hex_digits_inj (n m : N) : hex_digits n = hex_digits m -> n = m.
Proof.
  intros H. apply (f_equal nat_of_hex_digits) in H.
  rewrite !nat_of_hex_digits_hex in H. congruence.
Qed.

Lemma hex_inj (z1 z2 : Z) : hex z1 = hex z2 -> z1 = z2.
Proof.
  unfold hex.
  destruct (Z.ltb_spec z1 0) as [L1 | L1], (Z.ltb_spec z2 0) as [L2 | L2];
    simpl; intros Heq.
  - injection Heq as Heq. apply hex_digits_inj in Heq. lia.
  - discriminate.
  - discriminate.
  - injection Heq as Heq. apply hex_digits_inj in Heq. lia.
Qed.

(** X25. The statement of [gen_win_activate] determines the handle: two
    calls that return the same text, whatever their titles, classes and
    process names, were given the same handle. *)
Theorem gen_win_activate_names_one_window (h1 h2 : Z)
    (t1 c1 p1 t2 c2 p2 : string) :
  gen_win_activate h1 t1 c1 p1 = gen_win_activate h2 t2 c2 p2 -> h1 = h2.
Proof.
  unfold gen_win_activate. intros H.
  simpl in H. injection H as H'.
  apply hex_inj. eapply cut_at_quote; [apply no_dq_hex | apply no_dq_hex | exact H'].
Qed.
End CodegenLines.

Section CodegenLinesWitnesses.
Import Py Text Codegen.

Lemma gen_pixel_loop_lines_witness :
  (no_nl "Window" = true /\ no_nl "0xFF8400" = true)
  /\ length (lines (gen_pixel_loop 50 60 "0xFF8400" "Window" 5 false)) = 7%nat
  /\ length (lines (gen_pixel_loop 50 60 "0xFF8400" "Window" 5 true)) = 6%nat.
Proof.
  split; [split; reflexivity |].
  destruct (gen_pixel_loop_lines 50 60 "0xFF8400" "Window" 5 eq_refl eq_refl)
    as [H1 H2].
  rewrite H1, H2. split; reflexivity.
Defined.

Lemma gen_win_activate_names_one_window_witness :
  gen_win_activate 291 "Test" EmptyString EmptyString
  = gen_win_activate (290 + 1) "Test" EmptyString EmptyString
  /\ 291 = 290 + 1.
Proof.
  assert (H : gen_win_activate 291 "Test" EmptyString EmptyString
              = gen_win_activate (290 + 1) "Test" EmptyString EmptyString)
    by reflexivity.
  split; [exact H |].
  apply (gen_win_activate_names_one_window 291 (290 + 1) "Test" EmptyString
           EmptyString "Test" EmptyString EmptyString H).
Defined.
End CodegenLinesWitnesses.

(* ===================================================================== *)
(** ** Recent projects, and the way from a hotkey to the editor *)
(* ===================================================================== *)

Section RecentProjects.
Import Settings.

Lemma contains_spec (p : string) (l : list string) :
  contains p l = true <-> In p l.
Proof.
  unfold contains. rewrite existsb_exists. split.
  - intros (x & Hx & He). apply String.eqb_eq in He. now subst.
  - intros H. exists p. split; [exact H | apply String.eqb_refl].
Qed.

Lemma list_remove_In (p x : string) (l : list string) :
  In x (list_remove p l) -> In x l.
Proof.
  induction l as [|a l IH]; simpl; [trivial |].
  destruct (String.eqb a p); simpl; tauto.
Qed.

Lemma list_remove_NoDup (p : string) (l : list string) :
  List.NoDup l -> List.NoDup (list_remove p l) /\ ~ In p (list_remove p l).
Proof.
  induction 1 as [|a l Ha Hl IH]; simpl.
  - split; [constructor | tauto].
  - destruct (String.eqb_spec a p) as [-> | Hne].
    + split; assumption.
    + destruct IH as [IH1 IH2]. split.
      * constructor; [| exact IH1]. intros Hin. apply Ha.
        eapply list_remove_In; eassumption.
      * simpl. intros [H | H]; [contradiction | now apply IH2].
Qed.

Lemma list_remove_absent (p : string) (l : list string) :
  ~ In p l -> list_remove p l = l.
Proof.
  induction l as [|a l IH]; simpl; [reflexivity |]. intros H.
  destruct (String.eqb_spec a p) as [-> | Hne]; [tauto |].
  f_equal. apply IH. tauto.
Qed.

Lemma list_remove_length (p : string) (l : list string) :
  In p l -> S (length (list_remove p l)) = length l.
Proof.
  induction l as [|a l IH]; simpl; [tauto |]. intros H.
  destruct (String.eqb_spec a p) as [-> | Hne]; [reflexivity |].
  simpl. f_equal. apply IH. destruct H; [contradiction | assumption].
Qed.

Lemma In_firstn {A : Type} (n : nat) (l : list A) (x : A) :
  In x (firstn n l) -> In x l.
Proof.
  revert n. induction l as [|a l IH]; intros [|n]; simpl; try tauto.
  intros [H | H]; [now left | right; eauto].
Qed.

Lemma NoDup_firstn {A : Type} (n : nat) (l : list A) :
  List.NoDup l -> List.NoDup (firstn n l).
Proof.
  revert n. induction l as [|a l IH]; intros [|n] H; simpl; try constructor.
  - inversion H; subst. intros Hin. apply In_firstn in Hin. contradiction.
  - inversion H; subst. now apply IH.
Qed.

(** X26. For a history without duplicates, the list stored by
    [add_recent_project] starts with the project, has no duplicates and at
    most ten entries, and holds nothing but the project and former entries;
    a history of fewer than ten entries loses none, re-adding a project that
    is already listed in a history of at most ten keeps the length, and
    adding the same project twice is the same as adding it once. *)
Theorem add_recent_project_keeps_history (p : string) (recents : list string) :
  List.NoDup recents ->
  let s := stored p recents in
  hd_error s = Some p
  /\ List.NoDup s
  /\ (length s <= 10)%nat
  /\ (forall x, In x s -> x = p \/ In x recents)
  /\ ((length recents < 10)%nat -> forall x, In x recents -> In x s)
  /\ (In p recents -> (length recents <= 10)%nat ->
      length s = length recents)
  /\ stored p s = s.
Proof.
  intros Hnd s.
  set (rest := if contains p recents then list_remove p recents else recents).
  assert (Hs : s = firstn 10 (p :: rest)) by reflexivity.
  assert (Hrest : List.NoDup rest /\ ~ In p rest
                  /\ (forall x, In x rest -> In x recents)
                  /\ (forall x, In x recents -> x = p \/ In x rest)
                  /\ (length rest <= length recents)%nat
                  /\ (In p recents -> S (length rest) = length recents)).
  { subst rest. destruct (contains p recents) eqn:Hc.
    - apply contains_spec in Hc.
      destruct (list_remove_NoDup p recents Hnd) as [H1 H2].
      repeat split; auto.
      + intros x. apply list_remove_In.
      + intros x Hx. destruct (String.eqb_spec x p) as [-> | Hne]; [now left |].
        right. clear - Hx Hne. induction recents as [|a l IH]; simpl in *; [tauto |].
        destruct (String.eqb_spec a p) as [-> | Hap].
        * destruct Hx; [congruence | assumption].
        * destruct Hx; [now left | right; now apply IH].
      + pose proof (list_remove_length p recents Hc). lia.
      + intros _. now apply list_remove_length.
    - assert (Hn : ~ In p recents).
      { intros H. apply contains_spec in H. congruence. }
      repeat split; auto. intros H. contradiction. }
  destruct Hrest as (R1 & R2 & R3 & R4 & R5 & R6).
  assert (Hfull : List.NoDup (p :: rest)) by (constructor; assumption).
  split; [rewrite Hs; reflexivity |].
  split; [rewrite Hs; now apply NoDup_firstn |].
  split; [rewrite Hs, length_firstn; lia |].
  split.
  { intros x Hx. rewrite Hs in Hx. apply In_firstn in Hx.
    destruct Hx as [<- | Hx]; [now left | right; now apply R3]. }
  split.
  { intros Hlen x Hx. rewrite Hs.
    rewrite firstn_all2 by (simpl; lia).
    destruct (R4 x Hx) as [-> | Hr]; [now left | now right]. }
  split.
  { intros Hin Hlen. rewrite Hs, length_firstn. simpl length.
    specialize (R6 Hin). lia. }
  (* adding again changes nothing *)
  unfold stored, add_recent_project. fold s.
  assert (Hps : contains p s = true)
    by (apply contains_spec; rewrite Hs; now left).
  rewrite Hps.
  assert (Hrm : list_remove p s = firstn 9 rest).
  { rewrite Hs. simpl. now rewrite String.eqb_refl. }
  rewrite Hrm. simpl snd.
  rewrite Hs. simpl. f_equal.
  rewrite firstn_firstn. reflexivity.
Qed.
End RecentProjects.

Section AppFacts.
Import Py Text WinInfo Hotkeys Codegen App.

Lemma insert_or_pend_codes (code : string) (st : State) :
  settled st ->
  all_codes (_insert_or_pend code st) = all_codes st ++ [code]
  /\ settled (_insert_or_pend code st)
  /\ _drag_start (_insert_or_pend code st) = _drag_start st
  /\ editor_has_focus (_insert_or_pend code st) = editor_has_focus st.
Proof.
  intros Hs. unfold _insert_or_pend, all_codes, settled in *.
  destruct (editor_has_focus st) eqn:Hf; simpl.
  - rewrite (Hs eq_refl). rewrite !app_nil_r. repeat split; auto.
  - rewrite app_assoc. repeat split; auto; discriminate.
Qed.

Lemma step_codes (st : State) (ev : event) :
  settled st ->
  settled (step st ev)
  /\ exists new, all_codes (step st ev) = all_codes st ++ new
                 /\ (length new <= 1)%nat.
Proof.
  intros Hs. destruct ev as [snap cm var hid | |]; simpl.
  - unfold _on_hotkey.
    destruct (select_coords cm (coords snap)) as [x y].
    destruct hid.
    + destruct (insert_or_pend_codes (gen_click x y "Left" 1 cm) st Hs)
        as (H1 & H2 & _).
      split; [exact H2 |]. eexists. split; [exact H1 | simpl; lia].
    + destruct (_drag_start st) as [[x1 y1]|] eqn:Hd.
      * assert (Hs' : settled (mkState None (_pending_insertions st)
                                 (editor_has_focus st) (inserted st) (status st)))
          by exact Hs.
        destruct (insert_or_pend_codes (gen_drag x1 y1 x y "Left" cm) _ Hs')
          as (H1 & H2 & _).
        split; [exact H2 |]. eexists. split; [exact H1 | simpl; lia].
      * split; [exact Hs |]. exists []. rewrite app_nil_r. split; [reflexivity | simpl; lia].
    + destruct (insert_or_pend_codes
                  (gen_pixel_loop x y (hex_rgb (color snap)) cm var false) st Hs)
        as (H1 & H2 & _).
      split; [exact H2 |]. eexists. split; [exact H1 | simpl; lia].
    + destruct (insert_or_pend_codes
                  (gen_win_activate (hwnd (window snap)) (title (window snap))
                     (class_name (window snap)) (process_name (window snap)))
                  st Hs) as (H1 & H2 & _).
      split; [exact H2 |]. eexists. split; [exact H1 | simpl; lia].
  - unfold _flush_pending, set_focus, settled, all_codes. simpl.
    destruct (_pending_insertions st) as [|c l] eqn:Hp; simpl.
    + split; [reflexivity |]. exists []. rewrite ?Hp, ?app_nil_r.
      split; [reflexivity | simpl; lia].
    + split; [reflexivity |]. exists []. rewrite !app_nil_r. split; [reflexivity | simpl; lia].
  - unfold set_focus, settled, all_codes. simpl.
    split; [discriminate |]. exists []. rewrite app_nil_r. split; [reflexivity | simpl; lia].
Qed.

Lemma run_codes (evs : list event) :
  forall st, settled st ->
    settled (run evs st)
    /\ exists more, all_codes (run evs st) = all_codes st ++ more
                    /\ (length more <= length evs)%nat.
Proof.
  induction evs as [|ev evs IH]; intros st Hs; simpl.
  - split; [exact Hs |]. exists []. rewrite app_nil_r.
    split; [reflexivity | simpl; lia].
  - destruct (step_codes st ev Hs) as (Hs1 & new & Hnew & Hlen).
    destruct (IH _ Hs1) as (Hs2 & more & Hmore & Hlen2).
    split; [exact Hs2 |]. exists (new ++ more).
    rewrite Hmore, Hnew, app_assoc. split; [reflexivity |].
    rewrite length_app. simpl. lia.
Qed.

Lemma step_captured (st : State) (ev : event) :
  settled st ->
  settled (step st ev)
  /\ all_codes (step st ev) = all_codes st ++ captured st ev.
Proof.
  intros Hs. destruct ev as [snap cm var hid | |]; simpl.
  - unfold _on_hotkey, hotkey_code.
    destruct (select_coords cm (coords snap)) as [x y].
    destruct hid.
    + destruct (insert_or_pend_codes (gen_click x y "Left" 1 cm) st Hs)
        as (H1 & H2 & _).
      split; [exact H2 | exact H1].
    + destruct (_drag_start st) as [[x1 y1]|] eqn:Hd.
      * assert (Hs' : settled (mkState None (_pending_insertions st)
                                 (editor_has_focus st) (inserted st) (status st)))
          by exact Hs.
        destruct (insert_or_pend_codes (gen_drag x1 y1 x y "Left" cm) _ Hs')
          as (H1 & H2 & _).
        split; [exact H2 | exact H1].
      * split; [exact Hs |]. unfold all_codes. simpl. now rewrite app_nil_r.
    + destruct (insert_or_pend_codes
                  (gen_pixel_loop x y (hex_rgb (color snap)) cm var false) st Hs)
        as (H1 & H2 & _).
      split; [exact H2 | exact H1].
    + destruct (insert_or_pend_codes
                  (gen_win_activate (hwnd (window snap)) (title (window snap))
                     (class_name (window snap)) (process_name (window snap)))
                  st Hs) as (H1 & H2 & _).
      split; [exact H2 | exact H1].
  - unfold _flush_pending, set_focus, settled, all_codes. simpl.
    destruct (_pending_insertions st) as [|c l] eqn:Hp; simpl.
    + split; [reflexivity |]. now rewrite ?Hp, ?app_nil_r.
    + split; [reflexivity |]. now rewrite !app_nil_r.
  - unfold set_focus, settled, all_codes. simpl.
    split; [discriminate |]. now rewrite app_nil_r.
Qed.

Lemma run_captured (evs : list event) :
  forall st, settled st ->
    settled (run evs st)
    /\ all_codes (run evs st) = all_codes st ++ captured_along evs st.
Proof.
  induction evs as [|ev evs IH]; intros st Hs; simpl.
  - split; [exact Hs |]. now rewrite app_nil_r.
  - destruct (step_captured st ev Hs) as (Hs1 & Hnew).
    destruct (IH _ Hs1) as (Hs2 & Hmore).
    split; [exact Hs2 |]. now rewrite Hmore, Hnew, app_assoc.
Qed.

(** X27. No captured code is dropped, duplicated or reordered.  Over any
    sequence of hotkeys and focus changes from start-up, the codes inserted
    into the editor followed by the codes still pending are exactly the
    codes the hotkeys captured, in the order of capture: every event
    appends the code it captures (one for every hotkey but the first press
    of a drag, none for a focus change) and nothing else, so a further
    sequence of events appends exactly its captured codes, at most one per
    event.  Nothing is pending while the editor has the focus, and when it
    gains the focus everything captured so far has been inserted. *)
Theorem captured_code_is_never_lost (evs1 evs2 : list event) :
  let st1 := run evs1 init in
  let st2 := run (evs1 ++ evs2) init in
  all_codes st2 = captured_along (evs1 ++ evs2) init
  /\ all_codes st2 = all_codes st1 ++ captured_along evs2 st1
  /\ (forall ev, all_codes (step st2 ev) = all_codes st2 ++ captured st2 ev)
  /\ (forall snap cm v hid,
        (hid = DRAG -> _drag_start st2 <> None) ->
        captured st2 (ev_hotkey snap cm v hid)
        = [default EmptyString (hotkey_code snap cm v hid (_drag_start st2))]
        /\ hotkey_code snap cm v hid (_drag_start st2) <> None)
  /\ (exists more, all_codes st2 = all_codes st1 ++ more
                   /\ (length more <= length evs2)%nat)
  /\ (editor_has_focus st2 = true -> _pending_insertions st2 = [])
  /\ inserted (step st2 ev_focus_in) = all_codes st2
  /\ _pending_insertions (step st2 ev_focus_in) = [].
Proof.
  intros st1 st2.
  assert (H0 : settled init) by (intros H; discriminate H).
  destruct (run_codes evs1 init H0) as (Hs1 & _).
  assert (Hst2 : st2 = run evs2 st1).
  { subst st1 st2. unfold run. now rewrite fold_left_app. }
  destruct (run_codes evs2 st1 Hs1) as (Hs2 & more & Hmore & Hlen).
  destruct (run_captured evs2 st1 Hs1) as (_ & Hexact).
  destruct (run_captured (evs1 ++ evs2) init H0) as (_ & Hall).
  rewrite <- Hst2 in *.
  split; [exact Hall |].
  split; [exact Hexact |].
  split; [intros ev; apply step_captured; exact Hs2 |].
  split.
  { intros snap cm v hid Hdrag. unfold captured, hotkey_code.
    destruct (select_coords cm (coords snap)) as [x y].
    destruct hid; try (split; [reflexivity | discriminate]).
    destruct (_drag_start st2) as [[x1 y1]|];
      [split; [reflexivity | discriminate] |].
    now destruct (Hdrag eq_refl). }
  split; [exists more; split; assumption |].
  split; [exact Hs2 |].
  unfold step, _flush_pending, set_focus, all_codes. simpl.
  destruct (_pending_insertions st2); simpl; [now rewrite app_nil_r | split; reflexivity].
Qed.

Lemma drag_first_press (snap : InspectorSnapshot) (cm : string) (v : Z)
    (st : State) :
  _drag_start st = None ->
  let p := select_coords cm (coords snap) in
  _on_hotkey snap cm v DRAG st
  = mkState (Some p) (_pending_insertions st) (editor_has_focus st)
      (inserted st)
      (status st
         ++ ["Drag start captured: " +:+ str_int (fst p) +:+ ", "
               +:+ str_int (snd p) +:+ " — press again for end point"]).
Proof.
  intros Hd p. subst p. unfold _on_hotkey.
  destruct (select_coords cm (coords snap)) as [x y].
  now rewrite Hd.
Qed.

Lemma drag_second_press (snap : InspectorSnapshot) (cm : string) (v : Z)
    (st : State) (x1 y1 : Z) :
  _drag_start st = Some (x1, y1) ->
  let p := select_coords cm (coords snap) in
  _on_hotkey snap cm v DRAG st
  = _insert_or_pend (gen_drag x1 y1 (fst p) (snd p) "Left" cm)
      (mkState None (_pending_insertions st) (editor_has_focus st)
         (inserted st) (status st)).
Proof.
  intros Hd p. subst p. unfold _on_hotkey.
  destruct (select_coords cm (coords snap)) as [x y].
  now rewrite Hd.
Qed.

Lemma other_hotkeys_keep_drag_start (snap : InspectorSnapshot) (cm : string)
    (v : Z) (hid : HotkeyID) (st : State) :
  hid <> DRAG -> settled st ->
  _drag_start (_on_hotkey snap cm v hid st) = _drag_start st.
Proof.
  intros Hne Hs. unfold _on_hotkey.
  destruct (select_coords cm (coords snap)) as [x y].
  destruct hid; try contradiction;
    match goal with
    | |- context [_insert_or_pend ?c ?s] =>
        destruct (insert_or_pend_codes c s Hs) as (_ & _ & H3 & _); exact H3
    end.
Qed.

(** X28. A drag takes two presses of the drag hotkey.  The first captures
    the start point for the coordinate mode of that moment and produces no
    code; the second produces one [gen_drag] statement from that start to
    the current point, for the left button, and clears the start.  The
    other hotkeys pressed in between leave the captured start alone. *)
Theorem drag_needs_two_presses (st : State) (snap1 snap2 : InspectorSnapshot)
    (cm1 cm2 : string) (v1 v2 : Z) :
  _drag_start st = None -> settled st ->
  let p1 := select_coords cm1 (coords snap1) in
  let p2 := select_coords cm2 (coords snap2) in
  let st1 := _on_hotkey snap1 cm1 v1 DRAG st in
  let st2 := _on_hotkey snap2 cm2 v2 DRAG st1 in
  (all_codes st1 = all_codes st /\ _drag_start st1 = Some p1)
  /\ (all_codes st2
      = all_codes st
          ++ [gen_drag (fst p1) (snd p1) (fst p2) (snd p2) "Left" cm2]
      /\ _drag_start st2 = None)
  /\ (forall snap cm v hid, hid <> DRAG ->
        _drag_start (_on_hotkey snap cm v hid st1) = Some p1).
Proof.
  intros Hd Hs p1 p2 st1 st2.
  assert (H1 : st1 = mkState (Some p1) (_pending_insertions st)
                       (editor_has_focus st) (inserted st)
                       (status st
                          ++ ["Drag start captured: " +:+ str_int (fst p1)
                                +:+ ", " +:+ str_int (snd p1)
                                +:+ " — press again for end point"]))
    by (apply drag_first_press; exact Hd).
  assert (Hs1 : settled st1) by (rewrite H1; exact Hs).
  split; [rewrite H1; split; reflexivity |].
  split.
  - subst st2.
    rewrite (drag_second_press snap2 cm2 v2 st1 (fst p1) (snd p1))
      by (rewrite H1; simpl; now destruct p1).
    fold p2.
    match goal with
    | |- context [_insert_or_pend ?c ?s] =>
        assert (Hs' : settled s) by (rewrite H1; exact Hs);
        destruct (insert_or_pend_codes c s Hs') as (Ha & _ & Hb & _)
    end.
    rewrite Ha, Hb. rewrite H1. split; reflexivity.
  - intros snap cm v hid Hne.
    rewrite other_hotkeys_keep_drag_start by assumption.
    now rewrite H1.
Qed.

(** X29. The click hotkey produces one code whose two lines are the
    coordinate-mode statement naming the configured mode and [Click x, y]
    with the snapshot's coordinates selected for that mode: the screen
    coordinates for [Screen], the client coordinates for [Client], the
    window coordinates for [Window] and for any other mode. *)
Theorem click_hotkey_uses_declared_space (snap : InspectorSnapshot)
    (cm : string) (v : Z) (st : State) :
  settled st -> no_nl cm = true ->
  let c := coords snap in
  (exists code,
     all_codes (_on_hotkey snap cm v CLICK st) = all_codes st ++ [code]
     /\ lines code
        = [coord_mode_statement "Mouse" cm;
           "Click " +:+ str_int (fst (select_coords cm c)) +:+ ", "
             +:+ str_int (snd (select_coords cm c))])
  /\ select_coords "Screen" c = (screen_x c, screen_y c)
  /\ select_coords "Client" c = (client_x c, client_y c)
  /\ select_coords "Window" c = (window_x c, window_y c)
  /\ (cm <> "Screen" -> cm <> "Client" ->
      select_coords cm c = (window_x c, window_y c)).
Proof.
  intros Hs Hcm c. split.
  - unfold _on_hotkey. fold c.
    destruct (select_coords cm c) as [x y]. simpl fst. simpl snd.
    destruct (insert_or_pend_codes (gen_click x y "Left" 1 cm) st Hs)
      as (H1 & _).
    eexists. split; [exact H1 |].
    destruct (gen_click_split x y "Left" 1 cm) as (tail & Hout & Htail).
    simpl in Htail. subst tail. rewrite Hout.
    rewrite lines_cons by now apply no_nl_coord_mode_statement.
    rewrite lines_single; [now rewrite append_nil_r |].
    rewrite !no_nl_append, !no_nl_str_int. reflexivity.
  - repeat split. intros H1 H2. unfold select_coords.
    apply String.eqb_neq in H1, H2. now rewrite H1, H2.
Qed.
End AppFacts.

Section AppWitnesses.
Import Py Text WinInfo Hotkeys Codegen App.

Lemma add_recent_project_keeps_history_witness :
  List.NoDup ["C:/a"; "C:/b"; "C:/c"]
  /\ Settings.stored "C:/c" ["C:/a"; "C:/b"; "C:/c"]
     = Settings.stored "C:/c"
         (Settings.stored "C:/c" ["C:/a"; "C:/b"; "C:/c"]).
Proof.
  assert (H : List.NoDup ["C:/a"; "C:/b"; "C:/c"]).
  { repeat constructor; simpl; intuition discriminate. }
  split; [exact H |].
  destruct (add_recent_project_keeps_history "C:/c" ["C:/a"; "C:/b"; "C:/c"] H)
    as (_ & _ & _ & _ & _ & _ & Hidem).
  symmetry. exact Hidem.
Defined.

Lemma drag_needs_two_presses_witness :
  (_drag_start init = None /\ settled init)
  /\ _drag_start (_on_hotkey sample_snapshot "Screen" 5 DRAG init)
     = Some (640, 480).
Proof.
  assert (Hs : settled init) by (intros H; discriminate H).
  split; [split; [reflexivity | exact Hs] |].
  destruct (drag_needs_two_presses init sample_snapshot sample_snapshot
              "Screen" "Screen" 5 5 eq_refl Hs) as ((_ & H) & _).
  exact H.
Defined.

Lemma click_hotkey_uses_declared_space_witness :
  (settled init /\ no_nl "Client" = true)
  /\ select_coords "Client" (coords sample_snapshot) = (532, 399).
Proof.
  assert (Hs : settled init) by (intros H; discriminate H).
  split; [split; [exact Hs | reflexivity] |].
  destruct (click_hotkey_uses_declared_space sample_snapshot "Client" 5 init
              Hs eq_refl) as (_ & _ & H & _).
  exact H.
Defined.
End AppWitnesses.
